(** * ForgeAgent: the task execution engine of skyvern/forge/agent.py

    A shallow embedding of [ForgeAgent] and the properties of its step
    executor, step policy, recorder and responder.

    External collaborators ([app.DATABASE], [app.BROWSER_MANAGER],
    [app.ARTIFACT_MANAGER], the LLM, the scraper, the action handlers,
    [requests]) are oracles over an abstract world: each call may return a
    value or raise, and is recorded, with its reply, in a transcript. *)

From Stdlib Require Import ZArith List String Bool Lia.
From Stdlib Require Decimal DecimalString.
Import ListNotations.

Local Open Scope string_scope.
Local Open Scope Z_scope.
Local Open Scope list_scope.

(** ** Data model *)

Module StepStatus.
Inductive t := created | running | failed | completed.
End StepStatus.

Module TaskStatus.
Inductive t := created | running | failed | terminated | completed.
End TaskStatus.

Module ActionType.
Inductive t :=
| CLICK | INPUT_TEXT | UPLOAD_FILE | SELECT_OPTION | CHECKBOX
| WAIT | NULL_ACTION | SOLVE_CAPTCHA | TERMINATE | COMPLETE.

Definition eqb (a b : t) : bool :=
  match a, b with
  | CLICK, CLICK | INPUT_TEXT, INPUT_TEXT | UPLOAD_FILE, UPLOAD_FILE
  | SELECT_OPTION, SELECT_OPTION | CHECKBOX, CHECKBOX | WAIT, WAIT
  | NULL_ACTION, NULL_ACTION | SOLVE_CAPTCHA, SOLVE_CAPTCHA
  | TERMINATE, TERMINATE | COMPLETE, COMPLETE => true
  | _, _ => false
  end.
End ActionType.

Module ArtifactType.
Inductive t :=
| SCREENSHOT_ACTION | SCREENSHOT_FINAL | HTML_SCRAPE | HTML_ACTION
| RECORDING | HAR | TRACE
| VISIBLE_ELEMENTS_ID_XPATH_MAP | VISIBLE_ELEMENTS_TREE
| VISIBLE_ELEMENTS_TREE_TRIMMED.
End ArtifactType.

(** JSON payloads the engine only moves around ([data],
    [extracted_information], schemas): a string, a list or a dict. *)
Inductive Json :=
| JStr (s : string)
| JList (items : list string)
| JDict (fields : list (string * string)).

Record UserDefinedError := {
  error_code : string;
  error_reasoning : string
}.

(** [element_id] is [Some _] exactly for the instances of [WebAction]. *)
Record Action := {
  action_type : ActionType.t;
  element_id : option Z;
  reasoning : option string;
  data_extraction_goal : option string;
  action_errors : list UserDefinedError
}.

Definition isinstance_WebAction (a : Action) : bool :=
  match element_id a with Some _ => true | None => false end.

Record ActionResult := {
  success : bool;
  data : option Json;
  javascript_triggered : bool;
  step_retry_number : option Z;
  step_order : option Z
}.

Record AgentStepOutput := {
  action_results : option (list ActionResult);
  actions_and_results : option (list (Action * list ActionResult));
  errors : list UserDefinedError
}.

Module Step.
Record t := {
  step_id : string;
  task_id : string;
  organization_id : option string;
  order : Z;
  retry_index : Z;
  is_last : bool;
  status : StepStatus.t;
  output : option AgentStepOutput
}.
End Step.

Module Task.
Record t := {
  task_id : string;
  organization_id : option string;
  workflow_run_id : option string;
  url : string;
  title : option string;
  navigation_goal : option string;
  data_extraction_goal : option string;
  navigation_payload : list (string * Json);
  extracted_information_schema : option Json;
  error_code_mapping : option (list (string * string));
  proxy_location : option string;
  webhook_callback_url : option string;
  status : TaskStatus.t;
  extracted_information : option Json;
  failure_reason : option string;
  errors : list UserDefinedError
}.
End Task.

Record Organization := {
  org_organization_id : string;
  max_steps_per_run : option Z
}.

Record ScrapedPage := {
  html : string;
  elements : list string;
  element_tree : string;
  element_tree_trimmed : string;
  id_to_xpath_dict : list (Z * string);
  screenshots : list string
}.

Record DetailedAgentStepOutput := {
  d_scraped_page : option ScrapedPage;
  d_extract_action_prompt : option string;
  d_llm_response : option (list (string * string));
  d_actions : option (list Action);
  d_action_results : option (list ActionResult);
  d_actions_and_results : option (list (Action * list ActionResult))
}.

Record Page := { page_url : string }.

Record BrowserArtifacts := {
  video_artifact_id : option string;
  traces_dir : option string
}.

Record BrowserState := {
  page : option Page;
  browser_context : bool;
  browser_artifacts : BrowserArtifacts
}.

Record Artifact := {
  artifact_id : string;
  artifact_type : ArtifactType.t
}.

Record WorkflowRun := {
  wr_workflow_run_id : string;
  wr_proxy_location : option string
}.

Record Workflow := {
  workflow_id : string;
  wf_organization_id : option string
}.

Record TaskBlock := {
  tb_parameters : list string;      (* the keys of the block's parameters *)
  tb_url : option string;
  tb_title : option string;
  tb_navigation_goal : option string;
  tb_data_extraction_goal : option string;
  tb_data_schema : option Json;
  tb_error_code_mapping : option (list (string * string))
}.

Record SkyvernContext := { max_steps_override : option Z }.

Record Settings := {
  MAX_RETRIES_PER_STEP : Z;
  MAX_STEPS_PER_RUN : Z;
  PROMPT_ACTION_HISTORY_WINDOW : Z
}.

Record Response := {
  ok : bool;
  status_code : Z;
  text : string;
  json : option string     (* [None]: the body does not decode, [resp.json()] raises *)
}.

(** ** Exceptions *)

Inductive Exn :=
| TaskNotFound (task_id : string)
| FailedToSendWebhook (task_id : string)
| BrowserStateMissingPage
| MissingBrowserStatePage (workflow_run_id : string)
| InvalidWorkflowTaskURLState (workflow_run_id : string)
| TargetClosedError
| KeyError (key : string)
| JSONDecodeError
| ValueError (msg : string)
| IndexError
| TypeError
| OtherException (msg : string)
| CancelledError
| RaiseFrom (e : Exn) (cause : Exn).     (* [raise e from cause] *)

(** [except Exception] catches every class above but [CancelledError],
    which derives from [BaseException] only. *)
Fixpoint isinstance_Exception (e : Exn) : bool :=
  match e with
  | CancelledError => false
  | RaiseFrom e _ => isinstance_Exception e
  | _ => true
  end.

Fixpoint isinstance_TargetClosedError (e : Exn) : bool :=
  match e with
  | TargetClosedError => true
  | RaiseFrom e _ => isinstance_TargetClosedError e
  | _ => false
  end.

Inductive Res (A : Type) :=
| Ok (a : A)
| Raise (e : Exn).
Arguments Ok {A} a.
Arguments Raise {A} e.

(** ** Python values: truthiness, dicts of keyword arguments *)

Definition truthy_str (o : option string) : bool :=
  match o with
  | Some s => negb (s =? "")%string
  | None => false
  end.

Definition truthy_list {A : Type} (o : option (list A)) : bool :=
  match o with
  | Some (_ :: _) => true
  | _ => false
  end.

Definition truthy_int (o : option Z) : bool :=
  match o with
  | Some z => negb (z =? 0)
  | None => false
  end.

(** [str(n)] of an [int]. *)
Definition str_of_int (n : Z) : string := DecimalString.NilZero.string_of_int (Z.to_int n).

(** The values stored under the keys of the [updates] dicts. *)
Inductive FieldVal :=
| VStepStatus (s : StepStatus.t)
| VTaskStatus (s : TaskStatus.t)
| VOutput (o : option AgentStepOutput)
| VBool (b : bool)
| VInt (z : Z)
| VJson (j : option Json)
| VStr (s : option string).

(** A [dict[str, Any]] in insertion order. *)
Definition Dict := list (string * FieldVal).

Definition dict_keys (d : Dict) : list string := map fst d.

(** The logged [{key: {"old": ..., "new": ...}}]. *)
Definition Diff := list (string * (FieldVal * FieldVal)).

Section Decidable_equality.

Definition StepStatus_eq_dec : forall a b : StepStatus.t, {a = b} + {a <> b}.
Proof. decide equality. Defined.

Definition TaskStatus_eq_dec : forall a b : TaskStatus.t, {a = b} + {a <> b}.
Proof. decide equality. Defined.

Definition ActionType_eq_dec : forall a b : ActionType.t, {a = b} + {a <> b}.
Proof. decide equality. Defined.

Definition option_eq_dec (A : Type) (dec : forall a b : A, {a = b} + {a <> b}) :
  forall a b : option A, {a = b} + {a <> b}.
Proof. decide equality. Defined.

Definition pair_eq_dec (A B : Type)
      (decA : forall a b : A, {a = b} + {a <> b})
      (decB : forall a b : B, {a = b} + {a <> b}) :
  forall a b : A * B, {a = b} + {a <> b}.
Proof. decide equality. Defined.

Definition Json_eq_dec : forall a b : Json, {a = b} + {a <> b}.
Proof.
  decide equality;
    auto using string_dec, list_eq_dec, pair_eq_dec.
Defined.

Definition UserDefinedError_eq_dec : forall a b : UserDefinedError, {a = b} + {a <> b}.
Proof. decide equality; apply string_dec. Defined.

Definition Action_eq_dec : forall a b : Action, {a = b} + {a <> b}.
Proof.
  decide equality;
    auto using string_dec, Z.eq_dec, option_eq_dec, list_eq_dec,
               UserDefinedError_eq_dec, ActionType_eq_dec.
Defined.

Definition ActionResult_eq_dec : forall a b : ActionResult, {a = b} + {a <> b}.
Proof.
  decide equality;
    auto using Z.eq_dec, option_eq_dec, Json_eq_dec, bool_dec.
Defined.

Definition AgentStepOutput_eq_dec : forall a b : AgentStepOutput, {a = b} + {a <> b}.
Proof.
  decide equality;
    auto 6 using option_eq_dec, list_eq_dec, pair_eq_dec, Action_eq_dec,
                 ActionResult_eq_dec, UserDefinedError_eq_dec.
Defined.

Definition FieldVal_eq_dec : forall a b : FieldVal, {a = b} + {a <> b}.
Proof.
  decide equality;
    auto using string_dec, Z.eq_dec, bool_dec, option_eq_dec, Json_eq_dec,
               AgentStepOutput_eq_dec, StepStatus_eq_dec, TaskStatus_eq_dec.
Defined.

End Decidable_equality.

(** Python's [a != b] on such values. *)
Definition py_ne (a b : FieldVal) : bool :=
  if FieldVal_eq_dec a b then false else true.

(** ** Calls to the collaborators *)

Inductive LogLevel := INFO | WARNING | ERROR | EXCEPTION.

Inductive ArtifactPayload :=
| Data (bytes : string)
| Path (path : string).

(** Keyword arguments of [app.DATABASE.create_task]. *)
Record TaskCreate := {
  c_url : string;
  c_title : option string;
  c_webhook_callback_url : option string;
  c_navigation_goal : option string;
  c_data_extraction_goal : option string;
  c_navigation_payload : list (string * Json);
  c_organization_id : option string;
  c_proxy_location : option string;
  c_extracted_information_schema : option Json;
  c_workflow_run_id : option string;
  c_order : option Z;
  c_retry : option Z;
  c_error_code_mapping : option (list (string * string))
}.

(** Variables handed to the "extract-action" template. *)
Record PromptVars := {
  p_navigation_goal : option string;
  p_navigation_payload_str : string;
  p_url : string;
  p_elements : string;
  p_data_extraction_goal : option string;
  p_action_history : string;
  p_error_code_mapping_str : option string;
  p_utc_datetime : Z
}.

(** One entry of the transcript: the call, its arguments, its reply. *)
Inductive Event :=
| Log (level : LogLevel) (msg : string)
| LogDiff (msg : string) (diff : Diff)
| DbGetTaskSteps (task_id : string) (org : option string) (r : Res (list Step.t))
| DbCreateTask (req : TaskCreate) (r : Res Task.t)
| DbUpdateTask (task_id : string) (org : option string) (updates : Dict) (r : Res Task.t)
| DbGetTask (task_id : string) (org : option string) (r : Res (option Task.t))
| DbCreateStep (task_id : string) (org : option string) (order retry_index : Z)
               (r : Res Step.t)
| DbUpdateStep (task_id step_id : string) (org : option string) (updates : Dict)
               (r : Res Step.t)
| DbGetArtifact (task_id step_id : string) (ty : ArtifactType.t) (org : option string)
                (r : Res (option Artifact))
| CreateArtifact (step_id : string) (ty : ArtifactType.t) (payload : ArtifactPayload)
                 (r : Res string)
| UpdateArtifactData (artifact : option string) (org : option string) (bytes : string)
                     (r : Res unit)
| WaitForUpload (task_id : string) (r : Res unit)
| GetShareLink (a : Artifact) (r : Res (option string))
| ScrapeWebsite (bs : BrowserState) (url : string) (r : Res ScrapedPage)
| LlmCall (prompt : string) (step_id : string) (shots : list string)
          (r : Res (list (string * string)))
| LoadPrompt (template : string) (vars : PromptVars) (r : Res string)
| HandleAction (a : Action) (r : Res (list ActionResult))
| Sleep (r : Res unit)
| TakeScreenshot (bs : BrowserState) (r : Res string)
| PageContent (bs : BrowserState) (r : Res string)
| GetOrCreatePage (bs : BrowserState) (r : Res unit)
| GetOrCreateForTask (task_id : string) (r : Res BrowserState)
| GetOrCreateForWorkflowRun (workflow_run_id : string) (url : option string)
                            (r : Res BrowserState)
| GetVideoData (task_id : string) (r : Res string)
| GetHarData (task_id : string) (r : Res string)
| CleanupForTask (task_id : string) (close : bool) (r : Res (option BrowserState))
| EnsureContext (r : Res SkyvernContext)
| GetValue (key : string) (r : Res Json)
| UtcNow (r : Res Z)
| AnalyticsCapture (name : string) (status : TaskStatus.t) (r : Res unit)
| RequestsPost (url payload : string) (headers : list (string * string))
               (r : Res Response).

(** The collaborators over a world [W].  The pure members stand for code
    of the model classes and helpers the engine calls. *)
Record Env (W : Type) := {
  settings : Settings;
  (* app.DATABASE *)
  db_get_task_steps : string -> option string -> W -> Res (list Step.t) * W;
  db_create_task : TaskCreate -> W -> Res Task.t * W;
  db_update_task : string -> option string -> Dict -> W -> Res Task.t * W;
  db_get_task : string -> option string -> W -> Res (option Task.t) * W;
  db_create_step : string -> option string -> Z -> Z -> W -> Res Step.t * W;
  db_update_step : string -> string -> option string -> Dict -> W -> Res Step.t * W;
  db_get_artifact :
    string -> string -> ArtifactType.t -> option string -> W -> Res (option Artifact) * W;
  (* app.ARTIFACT_MANAGER *)
  create_artifact : string -> ArtifactType.t -> ArtifactPayload -> W -> Res string * W;
  update_artifact_data : option string -> option string -> string -> W -> Res unit * W;
  wait_for_upload_aiotasks_for_task : string -> W -> Res unit * W;
  get_share_link : Artifact -> W -> Res (option string) * W;
  (* scraper, LLM, prompt engine, action handlers *)
  scrape_website : BrowserState -> string -> W -> Res ScrapedPage * W;
  LLM_API_HANDLER :
    string -> Step.t -> list string -> W -> Res (list (string * string)) * W;
  load_prompt : string -> PromptVars -> W -> Res string * W;
  handle_action :
    ScrapedPage -> Task.t -> Step.t -> BrowserState -> Action -> W ->
    Res (list ActionResult) * W;
  sleep : W -> Res unit * W;
  (* BrowserState and app.BROWSER_MANAGER *)
  take_screenshot : BrowserState -> W -> Res string * W;
  page_content : BrowserState -> W -> Res string * W;
  get_or_create_page : BrowserState -> W -> Res unit * W;
  get_or_create_for_task : Task.t -> W -> Res BrowserState * W;
  get_or_create_for_workflow_run :
    WorkflowRun -> option string -> W -> Res BrowserState * W;
  get_video_data : string -> BrowserState -> W -> Res string * W;
  get_har_data : string -> BrowserState -> W -> Res string * W;
  cleanup_for_task : string -> bool -> W -> Res (option BrowserState) * W;
  (* context, clock, analytics, HTTP *)
  ensure_context : W -> Res SkyvernContext * W;
  get_value : string -> W -> Res Json * W;
  utcnow : W -> Res Z * W;
  analytics_capture : string -> TaskStatus.t -> W -> Res unit * W;
  requests_post :
    string -> string -> list (string * string) -> W -> Res Response * W;
  (* pure helpers *)
  step_validate_update :
    Step.t -> option StepStatus.t -> option AgentStepOutput -> option bool -> option Exn;
  task_validate_update :
    Task.t -> TaskStatus.t -> option Json -> option string -> option Exn;
  to_agent_step_output : DetailedAgentStepOutput -> AgentStepOutput;
  is_goal_achieved : Step.t -> bool;
  is_terminated : Step.t -> bool;
  parse_actions : Task.t -> string -> Res (list Action);
  dumps_action_results : list ActionResult -> string;
  dumps_payload : list (string * Json) -> string;
  dumps_mapping : list (string * string) -> string;
  dumps_xpaths : list (Z * string) -> string;
  dumps_tree : string -> string;
  task_response_json : Task.t -> option string -> option string -> string;
  generate_skyvern_signature : string -> string -> string;
  long_running_warning_due : Z -> Z -> bool
}.

Arguments settings {W}.
Arguments db_get_task_steps {W}.
Arguments db_create_task {W}.
Arguments db_update_task {W}.
Arguments db_get_task {W}.
Arguments db_create_step {W}.
Arguments db_update_step {W}.
Arguments db_get_artifact {W}.
Arguments create_artifact {W}.
Arguments update_artifact_data {W}.
Arguments wait_for_upload_aiotasks_for_task {W}.
Arguments get_share_link {W}.
Arguments scrape_website {W}.
Arguments LLM_API_HANDLER {W}.
Arguments load_prompt {W}.
Arguments handle_action {W}.
Arguments sleep {W}.
Arguments take_screenshot {W}.
Arguments page_content {W}.
Arguments get_or_create_page {W}.
Arguments get_or_create_for_task {W}.
Arguments get_or_create_for_workflow_run {W}.
Arguments get_video_data {W}.
Arguments get_har_data {W}.
Arguments cleanup_for_task {W}.
Arguments ensure_context {W}.
Arguments get_value {W}.
Arguments utcnow {W}.
Arguments analytics_capture {W}.
Arguments requests_post {W}.
Arguments step_validate_update {W}.
Arguments task_validate_update {W}.
Arguments to_agent_step_output {W}.
Arguments is_goal_achieved {W}.
Arguments is_terminated {W}.
Arguments parse_actions {W}.
Arguments dumps_action_results {W}.
Arguments dumps_payload {W}.
Arguments dumps_mapping {W}.
Arguments dumps_xpaths {W}.
Arguments dumps_tree {W}.
Arguments task_response_json {W}.
Arguments generate_skyvern_signature {W}.
Arguments long_running_warning_due {W}.

(** ** The monad: state, exceptions, transcript *)

Definition M (S A : Type) : Type := S -> Res A * S * list Event.

Definition ret {S A : Type} (a : A) : M S A := fun s => (Ok a, s, []).

Definition raise {S A : Type} (e : Exn) : M S A := fun s => (Raise e, s, []).

Definition bind {S A B : Type} (m : M S A) (f : A -> M S B) : M S B :=
  fun s =>
    match m s with
    | (Ok a, s1, t1) =>
        match f a s1 with
        | (r, s2, t2) => (r, s2, t1 ++ t2)
        end
    | (Raise e, s1, t1) => (Raise e, s1, t1)
    end.

(** [try: m except <catches> as e: h e]. *)
Definition try_except {S A : Type}
           (m : M S A) (catches : Exn -> bool) (h : Exn -> M S A) : M S A :=
  fun s =>
    match m s with
    | (Ok a, s1, t1) => (Ok a, s1, t1)
    | (Raise e, s1, t1) =>
        if catches e
        then match h e s1 with
             | (r, s2, t2) => (r, s2, t1 ++ t2)
             end
        else (Raise e, s1, t1)
    end.

(** A call to a collaborator: run the oracle, record call and reply. *)
Definition call {S A : Type} (oracle : S -> Res A * S) (ev : Res A -> Event) : M S A :=
  fun s => match oracle s with (r, s1) => (r, s1, [ev r]) end.

Definition LOG {S : Type} (level : LogLevel) (msg : string) : M S unit :=
  fun s => (Ok tt, s, [Log level msg]).

Definition of_res {S A : Type} (r : Res A) : M S A :=
  match r with
  | Ok a => ret a
  | Raise e => raise e
  end.

Declare Scope monad_scope.
Delimit Scope monad_scope with monad.
Notation "x <- m ;; k" := (bind m (fun x => k))
  (at level 61, m at next level, right associativity) : monad_scope.
Notation "m ;; k" := (bind m (fun _ => k))
  (at level 61, right associativity) : monad_scope.
Local Open Scope monad_scope.

Definition result {S A : Type} (x : Res A * S * list Event) : Res A := fst (fst x).
Definition final {S A : Type} (x : Res A * S * list Event) : S := snd (fst x).
Definition transcript {S A : Type} (x : Res A * S * list Event) : list Event := snd x.

(** ** Python containers *)

(** [d[key] = value]. *)
Fixpoint dict_set {V : Type} (d : list (string * V)) (key : string) (value : V)
  : list (string * V) :=
  match d with
  | [] => [(key, value)]
  | (k, v) :: d' =>
      if (k =? key)%string then (k, value) :: d' else (k, v) :: dict_set d' key value
  end.

Fixpoint assoc {V : Type} (d : list (string * V)) (key : string) : option V :=
  match d with
  | [] => None
  | (k, v) :: d' => if (k =? key)%string then Some v else assoc d' key
  end.

(** [l[i] = v]; [None] stands for the [IndexError] out of range. *)
Fixpoint set_item {A : Type} (l : list A) (i : nat) (v : A) : option (list A) :=
  match l, i with
  | [], _ => None
  | _ :: l', O => Some (v :: l')
  | x :: l', S i' =>
      match set_item l' i' v with
      | Some l'' => Some (x :: l'')
      | None => None
      end
  end.

(** [l[start:]]. *)
Definition py_slice_from {A : Type} (start : Z) (l : list A) : list A :=
  let n := Z.of_nat (List.length l) in
  let lo := if start <? 0 then Z.max (start + n) 0 else Z.min start n in
  skipn (Z.to_nat lo) l.

(** [l[-1]] of a non-empty list. *)
Fixpoint py_last {A : Type} (l : list A) : option A :=
  match l with
  | [] => None
  | [x] => Some x
  | _ :: l' => py_last l'
  end.

(** A truthy [str | None], with its value. *)
Definition nonempty (o : option string) : option string :=
  match o with
  | Some s => if (s =? "")%string then None else Some s
  | None => None
  end.

(** ** StepRecorder: [update_step], [update_task] *)

Definition Step_getattr (step : Step.t) (key : string) : FieldVal :=
  if (key =? "status")%string then VStepStatus (Step.status step)
  else if (key =? "output")%string then VOutput (Step.output step)
  else if (key =? "is_last")%string then VBool (Step.is_last step)
  else VInt (Step.retry_index step).

Definition Task_getattr (task : Task.t) (key : string) : FieldVal :=
  if (key =? "status")%string then VTaskStatus (Task.status task)
  else if (key =? "extracted_information")%string
       then VJson (Task.extracted_information task)
  else VStr (Task.failure_reason task).

Definition set_if {V : Type} (d : Dict) (key : string) (o : option V) (inj : V -> FieldVal)
  : Dict :=
  match o with
  | Some v => dict_set d key (inj v)
  | None => d
  end.

Definition step_updates (status : option StepStatus.t) (output : option AgentStepOutput)
           (is_last : option bool) (retry_index : option Z) : Dict :=
  let updates := [] in
  let updates := set_if updates "status" status VStepStatus in
  let updates := set_if updates "output" output (fun o => VOutput (Some o)) in
  let updates := set_if updates "is_last" is_last VBool in
  let updates := set_if updates "retry_index" retry_index VInt in
  updates.

Definition task_updates (status : TaskStatus.t) (extracted_information : option Json)
           (failure_reason : option string) : Dict :=
  let updates := [] in
  let updates := set_if updates "status" (Some status) VTaskStatus in
  let updates :=
    set_if updates "extracted_information" extracted_information (fun j => VJson (Some j)) in
  let updates := set_if updates "failure_reason" failure_reason (fun s => VStr (Some s)) in
  updates.

(** [{key: {"old": getattr(obj, key), "new": value}
      for key, value in updates.items() if getattr(obj, key) != value}]. *)
Fixpoint update_comparison (getattr : string -> FieldVal) (updates : Dict) : Diff :=
  match updates with
  | [] => []
  | (key, value) :: rest =>
      if py_ne (getattr key) value
      then (key, (getattr key, value)) :: update_comparison getattr rest
      else update_comparison getattr rest
  end.

Section Agent.

Context {W : Type} (E : Env W).

Definition update_step (step : Step.t) (status : option StepStatus.t)
           (output : option AgentStepOutput) (is_last : option bool)
           (retry_index : option Z) : M W Step.t :=
  match step_validate_update E step status output is_last with
  | Some e => raise e
  | None =>
      let updates := step_updates status output is_last retry_index in
      let diff := update_comparison (Step_getattr step) updates in
      (fun w => (Ok tt, w, [LogDiff "Updating step in db" diff])) ;;
      call (db_update_step E (Step.task_id step) (Step.step_id step)
                           (Step.organization_id step) updates)
           (DbUpdateStep (Step.task_id step) (Step.step_id step)
                         (Step.organization_id step) updates)
  end.

Definition update_task (task : Task.t) (status : TaskStatus.t)
           (extracted_information : option Json) (failure_reason : option string)
  : M W Task.t :=
  match task_validate_update E task status extracted_information failure_reason with
  | Some e => raise e
  | None =>
      let updates := task_updates status extracted_information failure_reason in
      let diff := update_comparison (Task_getattr task) updates in
      (fun w => (Ok tt, w, [LogDiff "Updating task in db" diff])) ;;
      call (db_update_task E (Task.task_id task) (Task.organization_id task) updates)
           (DbUpdateTask (Task.task_id task) (Task.organization_id task) updates)
  end.

(** ** ArtifactSink *)

Definition new_artifact (step : Step.t) (ty : ArtifactType.t) (payload : ArtifactPayload)
  : M W string :=
  call (create_artifact E (Step.step_id step) ty payload)
       (CreateArtifact (Step.step_id step) ty payload).

Definition record_artifacts_after_action (task : Task.t) (step : Step.t)
           (browser_state : BrowserState) : M W unit :=
  match page browser_state with
  | None => raise BrowserStateMissingPage
  | Some _ =>
      try_except
        (screenshot <- call (take_screenshot E browser_state)
                            (TakeScreenshot browser_state) ;;
         new_artifact step ArtifactType.SCREENSHOT_ACTION (Data screenshot) ;;
         ret tt)
        isinstance_Exception
        (fun _ => LOG ERROR "Failed to record screenshot after action") ;;
      try_except
        (html <- call (page_content E browser_state) (PageContent browser_state) ;;
         new_artifact step ArtifactType.HTML_ACTION (Data html) ;;
         ret tt)
        isinstance_Exception
        (fun _ => LOG ERROR "Failed to record html after action") ;;
      try_except
        (video_data <- call (get_video_data E (Task.task_id task) browser_state)
                            (GetVideoData (Task.task_id task)) ;;
         call (update_artifact_data
                 E (video_artifact_id (browser_artifacts browser_state))
                 (Task.organization_id task) video_data)
              (UpdateArtifactData (video_artifact_id (browser_artifacts browser_state))
                                  (Task.organization_id task) video_data))
        isinstance_Exception
        (fun _ => LOG ERROR "Failed to record video after action")
  end.

(** ** PromptBuilder *)

(** The loop over [window_steps] that extends [action_results] (here [acc]). *)
Fixpoint extend_action_results (acc : list ActionResult) (window_steps : list Step.t)
  : list ActionResult :=
  match window_steps with
  | [] => acc
  | window_step :: rest =>
      match Step.output window_step with
      | Some output =>
          match action_results output with
          | Some (r :: rs) => extend_action_results (acc ++ r :: rs) rest
          | _ => extend_action_results acc rest
          end
      | None => extend_action_results acc rest
      end
  end.

Definition action_history (steps : list Step.t) : list ActionResult :=
  let window_steps :=
    py_slice_from (-1 * PROMPT_ACTION_HISTORY_WINDOW (settings E)) steps in
  extend_action_results [] window_steps.

Definition _build_and_record_step_prompt (task : Task.t) (step : Step.t)
           (browser_state : BrowserState) : M W (ScrapedPage * string) :=
  scraped_page <- call (scrape_website E browser_state (Task.url task))
                       (ScrapeWebsite browser_state (Task.url task)) ;;
  new_artifact step ArtifactType.HTML_SCRAPE (Data (html scraped_page)) ;;
  LOG INFO "Scraped website" ;;
  steps <- call (db_get_task_steps E (Task.task_id task) (Task.organization_id task))
                (DbGetTaskSteps (Task.task_id task) (Task.organization_id task)) ;;
  let action_results_str := dumps_action_results E (action_history steps) in
  let navigation_goal := Task.navigation_goal task in
  let navigation_payload_str := dumps_payload E (Task.navigation_payload task) in
  let error_code_mapping_str :=
    match Task.error_code_mapping task with
    | Some (kv :: m) => Some (dumps_mapping E (kv :: m))
    | _ => None
    end in
  utc_datetime <- call (utcnow E) UtcNow ;;
  let vars :=
    {| p_navigation_goal := navigation_goal;
       p_navigation_payload_str := navigation_payload_str;
       p_url := Task.url task;
       p_elements := element_tree_trimmed scraped_page;
       p_data_extraction_goal := Task.data_extraction_goal task;
       p_action_history := action_results_str;
       p_error_code_mapping_str := error_code_mapping_str;
       p_utc_datetime := utc_datetime |} in
  extract_action_prompt <- call (load_prompt E "extract-action" vars)
                                (LoadPrompt "extract-action" vars) ;;
  new_artifact step ArtifactType.VISIBLE_ELEMENTS_ID_XPATH_MAP
               (Data (dumps_xpaths E (id_to_xpath_dict scraped_page))) ;;
  new_artifact step ArtifactType.VISIBLE_ELEMENTS_TREE
               (Data (dumps_tree E (element_tree scraped_page))) ;;
  new_artifact step ArtifactType.VISIBLE_ELEMENTS_TREE_TRIMMED
               (Data (dumps_tree E (element_tree_trimmed scraped_page))) ;;
  ret (scraped_page, extract_action_prompt).

(** ** StepExecutor: [agent_step] *)

(** The variables of [agent_step] its [except] clause reads: [step] and
    the [detailed_agent_step_output] object, mutated in place. *)
Record Locals := {
  l_step : Step.t;
  l_out : DetailedAgentStepOutput
}.

Definition lift {A : Type} (m : M W A) : M (W * Locals) A :=
  fun s =>
    match m (fst s) with
    | (r, w, t) => (r, (w, snd s), t)
    end.

Definition get_out : M (W * Locals) DetailedAgentStepOutput :=
  fun s => (Ok (l_out (snd s)), s, []).

Definition set_step (step : Step.t) : M (W * Locals) unit :=
  fun s => (Ok tt, (fst s, {| l_step := step; l_out := l_out (snd s) |}), []).

Definition set_out (f : DetailedAgentStepOutput -> DetailedAgentStepOutput)
  : M (W * Locals) unit :=
  fun s => (Ok tt, (fst s, {| l_step := l_step (snd s); l_out := f (l_out (snd s)) |}), []).

Definition with_scraped_page (p : ScrapedPage) (prompt : string)
           (d : DetailedAgentStepOutput) : DetailedAgentStepOutput :=
  {| d_scraped_page := Some p;
     d_extract_action_prompt := Some prompt;
     d_llm_response := d_llm_response d;
     d_actions := d_actions d;
     d_action_results := d_action_results d;
     d_actions_and_results := d_actions_and_results d |}.

Definition with_llm_response (r : list (string * string))
           (d : DetailedAgentStepOutput) : DetailedAgentStepOutput :=
  {| d_scraped_page := d_scraped_page d;
     d_extract_action_prompt := d_extract_action_prompt d;
     d_llm_response := Some r;
     d_actions := d_actions d;
     d_action_results := d_action_results d;
     d_actions_and_results := d_actions_and_results d |}.

Definition with_actions (actions : list Action)
           (d : DetailedAgentStepOutput) : DetailedAgentStepOutput :=
  {| d_scraped_page := d_scraped_page d;
     d_extract_action_prompt := d_extract_action_prompt d;
     d_llm_response := d_llm_response d;
     d_actions := Some actions;
     d_action_results := d_action_results d;
     d_actions_and_results := d_actions_and_results d |}.

Definition with_action_results (rs : list ActionResult)
           (d : DetailedAgentStepOutput) : DetailedAgentStepOutput :=
  {| d_scraped_page := d_scraped_page d;
     d_extract_action_prompt := d_extract_action_prompt d;
     d_llm_response := d_llm_response d;
     d_actions := d_actions d;
     d_action_results := Some rs;
     d_actions_and_results := d_actions_and_results d |}.

Definition with_actions_and_results (ars : list (Action * list ActionResult))
           (d : DetailedAgentStepOutput) : DetailedAgentStepOutput :=
  {| d_scraped_page := d_scraped_page d;
     d_extract_action_prompt := d_extract_action_prompt d;
     d_llm_response := d_llm_response d;
     d_actions := d_actions d;
     d_action_results := d_action_results d;
     d_actions_and_results := Some ars |}.

(** [detailed_agent_step_output.actions_and_results[action_idx] = (action, results)]. *)
Definition store_results (action_idx : nat) (action : Action)
           (results : list ActionResult) : M (W * Locals) unit :=
  d <- get_out ;;
  match d_actions_and_results d with
  | None => raise TypeError
  | Some ars =>
      match set_item ars action_idx (action, results) with
      | None => raise IndexError
      | Some ars' => set_out (with_actions_and_results ars')
      end
  end.

Definition is_wait (action : Action) : bool :=
  ActionType.eqb (action_type action) ActionType.WAIT.

Definition wait_actions_to_skip (actions : list Action) : list Action :=
  filter is_wait actions.

(** Whether the WAIT actions are dropped. *)
Definition skips_wait_actions (actions : list Action) : bool :=
  if (1 <? List.length actions)%nat
  then
    let wait_actions_len := List.length (wait_actions_to_skip actions) in
    (0 <? wait_actions_len)%nat && (wait_actions_len <? List.length actions)%nat
  else false.

(** The value of [actions] after the WAIT filter. *)
Definition filter_wait_actions (actions : list Action) : list Action :=
  if skips_wait_actions actions
  then filter (fun action => negb (is_wait action)) actions
  else actions.

(** [result.step_retry_number = step.retry_index; result.step_order = step.order]. *)
Definition stamp (step : Step.t) (result : ActionResult) : ActionResult :=
  {| success := success result;
     data := data result;
     javascript_triggered := javascript_triggered result;
     step_retry_number := Some (Step.retry_index step);
     step_order := Some (Step.order step) |}.

Definition element_seen (action : Action) (web_action_element_ids : list Z) : bool :=
  match element_id action with
  | Some id => existsb (Z.eqb id) web_action_element_ids
  | None => false
  end.

Definition add_element (action : Action) (web_action_element_ids : list Z) : list Z :=
  match element_id action with
  | Some id => id :: web_action_element_ids
  | None => web_action_element_ids
  end.

(** [results and results[-1].success]. *)
Definition results_succeeded (results : list ActionResult) : bool :=
  match py_last results with
  | Some last_result => success last_result
  | None => false
  end.

(** [results[-1].javascript_triggered], read when [results] is not empty. *)
Definition last_javascript_triggered (results : list ActionResult) : bool :=
  match py_last results with
  | Some last_result => javascript_triggered last_result
  | None => false
  end.

(** The executor loop, from [action_idx] on.  [None]: the loop ended or
    broke; [Some v]: the method returned [v] from inside the loop.
    [acc] is the list [action_results], which the output object shares. *)
Fixpoint execute_actions (scraped_page : ScrapedPage) (task : Task.t) (step : Step.t)
         (browser_state : BrowserState) (acc : list ActionResult)
         (web_action_element_ids : list Z) (action_idx : nat) (actions : list Action)
  : M (W * Locals) (option (Step.t * DetailedAgentStepOutput)) :=
  match actions with
  | [] => ret None
  | action :: rest =>
      if element_seen action web_action_element_ids
      then LOG ERROR "Duplicate action element id. Action handling stops" ;; ret None
      else
        let web_action_element_ids := add_element action web_action_element_ids in
        results <- lift (call (handle_action E scraped_page task step browser_state action)
                              (HandleAction action)) ;;
        store_results action_idx action results ;;
        lift (call (sleep E) Sleep) ;;
        lift (record_artifacts_after_action task step browser_state) ;;
        let results := map (stamp step) results in
        store_results action_idx action results ;;
        let acc := acc ++ results in
        set_out (with_action_results acc) ;;
        if results_succeeded results
        then
          LOG INFO "Action succeeded" ;;
          if last_javascript_triggered results
          then
            LOG INFO "Action triggered javascript. Stop executing reamaining actions." ;;
            ret None
          else
            execute_actions scraped_page task step browser_state acc
                            web_action_element_ids (S action_idx) rest
        else
          LOG WARNING "Action failed, marking step as failed" ;;
          d <- get_out ;;
          failed_step <- lift (update_step step (Some StepStatus.failed)
                                           (Some (to_agent_step_output E d)) None None) ;;
          ret (Some (failed_step, d))
  end.

Definition empty_output : DetailedAgentStepOutput :=
  {| d_scraped_page := None;
     d_extract_action_prompt := None;
     d_llm_response := None;
     d_actions := None;
     d_action_results := None;
     d_actions_and_results := None |}.

Definition CompleteAction (reasoning : string) (data_extraction_goal : option string)
  : Action :=
  {| action_type := ActionType.COMPLETE;
     element_id := None;
     reasoning := Some reasoning;
     data_extraction_goal := data_extraction_goal;
     action_errors := [] |}.

(** The body of the [try] of [agent_step]. *)
Definition agent_step_try (task : Task.t) (step : Step.t) (browser_state : BrowserState)
  : M (W * Locals) (Step.t * DetailedAgentStepOutput) :=
  LOG INFO "Starting agent step" ;;
  step <- lift (update_step step (Some StepStatus.running) None None None) ;;
  set_step step ;;
  sp <- lift (_build_and_record_step_prompt task step browser_state) ;;
  let scraped_page := fst sp in
  let extract_action_prompt := snd sp in
  set_out (with_scraped_page scraped_page extract_action_prompt) ;;
  ra <- (if truthy_str (Task.navigation_goal task)
         then
           json_response <-
             lift (call (LLM_API_HANDLER E extract_action_prompt step
                                         (screenshots scraped_page))
                        (LlmCall extract_action_prompt (Step.step_id step)
                                 (screenshots scraped_page))) ;;
           set_out (with_llm_response json_response) ;;
           match assoc json_response "actions" with
           | None => raise (KeyError "actions")
           | Some raw =>
               actions <- of_res (parse_actions E task raw) ;;
               ret (Some json_response, actions)
           end
         else
           ret (None, [CompleteAction "Task has no navigation goal."
                                      (Task.data_extraction_goal task)])) ;;
  let json_response := fst ra in
  let actions := snd ra in
  set_out (with_actions actions) ;;
  match actions with
  | [] =>
      LOG INFO "No actions to execute, marking step as failed" ;;
      d <- get_out ;;
      step <- lift (update_step step (Some StepStatus.failed)
                                (Some (to_agent_step_output E d)) None None) ;;
      set_step step ;;
      let d' :=
        {| d_scraped_page := Some scraped_page;
           d_extract_action_prompt := Some extract_action_prompt;
           d_llm_response := json_response;
           d_actions := Some actions;
           d_action_results := Some [];
           d_actions_and_results := Some [] |} in
      set_out (fun _ => d') ;;
      ret (step, d')
  | _ :: _ =>
      LOG INFO "Executing actions" ;;
      set_out (with_action_results []) ;;
      (if skips_wait_actions actions then LOG INFO "Skipping wait actions" else ret tt) ;;
      let actions := filter_wait_actions actions in
      set_out (with_actions_and_results (map (fun action => (action, [])) actions)) ;;
      returned <- execute_actions scraped_page task step browser_state [] [] 0 actions ;;
      match returned with
      | Some v => ret v
      | None =>
          LOG INFO "Actions executed successfully, marking step as completed" ;;
          d <- get_out ;;
          completed_step <-
            lift (update_step step (Some StepStatus.completed)
                              (Some (to_agent_step_output E d)) None None) ;;
          ret (completed_step, d)
      end
  end.

(** The [except Exception] clause of [agent_step]. *)
Definition agent_step_except (_ : Exn)
  : M (W * Locals) (Step.t * DetailedAgentStepOutput) :=
  LOG EXCEPTION "Unexpected exception in agent_step, marking step as failed" ;;
  s <- (fun s => (Ok (snd s), s, [])) ;;
  failed_step <- lift (update_step (l_step s) (Some StepStatus.failed)
                                   (Some (to_agent_step_output E (l_out s))) None None) ;;
  ret (failed_step, l_out s).

Definition agent_step (task : Task.t) (step : Step.t) (browser_state : BrowserState)
           (organization : option Organization)
  : M W (Step.t * DetailedAgentStepOutput) :=
  fun w =>
    match try_except (agent_step_try task step browser_state)
                     isinstance_Exception agent_step_except
                     (w, {| l_step := step; l_out := empty_output |}) with
    | (r, s, t) => (r, fst s, t)
    end.

(** ** StepPolicy *)

(** The loop over [action_results] of one COMPLETE action: [Some d] when
    the method returns [d] from inside it. *)
Fixpoint first_successful_data (results : list ActionResult) : option (option Json) :=
  match results with
  | [] => None
  | action_result :: rest =>
      if success action_result
      then Some (data action_result)
      else first_successful_data rest
  end.

(** The loop over [step.output.actions_and_results]. *)
Fixpoint complete_data_in (ars : list (Action * list ActionResult))
  : option (option Json) :=
  match ars with
  | [] => None
  | (action, results) :: rest =>
      if negb (ActionType.eqb (action_type action) ActionType.COMPLETE)
      then complete_data_in rest
      else
        match first_successful_data results with
        | Some d => Some d
        | None => complete_data_in rest
        end
  end.

Definition is_completed (step : Step.t) : bool :=
  match Step.status step with
  | StepStatus.completed => true
  | _ => false
  end.

(** The loop over [reversed(steps)]; the argument is already reversed. *)
Fixpoint extracted_information_in (reversed_steps : list Step.t)
  : option (option Json) :=
  match reversed_steps with
  | [] => None
  | step :: rest =>
      if negb (is_completed step)
      then extracted_information_in rest
      else
        match Step.output step with
        | None => extracted_information_in rest
        | Some output =>
            match actions_and_results output with
            | Some (ar :: ars) =>
                match complete_data_in (ar :: ars) with
                | Some d => Some d
                | None => extracted_information_in rest
                end
            | _ => extracted_information_in rest
            end
        end
  end.

Definition get_extracted_information_for_task (task : Task.t) : M W (option Json) :=
  steps <- call (db_get_task_steps E (Task.task_id task) (Task.organization_id task))
                (DbGetTaskSteps (Task.task_id task) (Task.organization_id task)) ;;
  match extracted_information_in (rev steps) with
  | Some d => LOG INFO "Extracted information for task" ;; ret d
  | None => LOG WARNING "Failed to find extracted information for task" ;; ret None
  end.

Fixpoint terminate_reasoning_in (ars : list (Action * list ActionResult))
  : option (option string) :=
  match ars with
  | [] => None
  | (action, _) :: rest =>
      if ActionType.eqb (action_type action) ActionType.TERMINATE
      then Some (reasoning action)
      else terminate_reasoning_in rest
  end.

Fixpoint failure_reason_in (reversed_steps : list Step.t) : option (option string) :=
  match reversed_steps with
  | [] => None
  | step :: rest =>
      if negb (is_completed step)
      then failure_reason_in rest
      else
        match Step.output step with
        | None => failure_reason_in rest
        | Some output =>
            match actions_and_results output with
            | Some (ar :: ars) =>
                match terminate_reasoning_in (ar :: ars) with
                | Some r => Some r
                | None => failure_reason_in rest
                end
            | _ => failure_reason_in rest
            end
        end
  end.

Definition get_failure_reason_for_task (task : Task.t) : M W (option string) :=
  steps <- call (db_get_task_steps E (Task.task_id task) (Task.organization_id task))
                (DbGetTaskSteps (Task.task_id task) (Task.organization_id task)) ;;
  match failure_reason_in (rev steps) with
  | Some r => ret r
  | None => LOG ERROR "Failed to find failure reasoning for task" ;; ret None
  end.

Definition max_retries_reason : string :=
  "Max retries per step (" ++ str_of_int (MAX_RETRIES_PER_STEP (settings E))
                           ++ ") exceeded".

Definition handle_failed_step (task : Task.t) (step : Step.t) : M W (option Step.t) :=
  if Step.retry_index step >=? MAX_RETRIES_PER_STEP (settings E)
  then
    LOG WARNING "Step failed after max retries, marking task as failed" ;;
    update_task task TaskStatus.failed None (Some max_retries_reason) ;;
    ret None
  else
    LOG WARNING "Step failed, retrying" ;;
    next_step <- call (db_create_step E (Task.task_id task) (Task.organization_id task)
                                      (Step.order step) (Step.retry_index step + 1))
                      (DbCreateStep (Task.task_id task) (Task.organization_id task)
                                    (Step.order step) (Step.retry_index step + 1)) ;;
    ret (Some next_step).

(** [a or b] on [int | None] operands, the last of which is an [int]. *)
Definition py_or (a : option Z) (b : Z) : Z :=
  match a with
  | Some z => if z =? 0 then b else z
  | None => b
  end.

(** [override_max_steps_per_run or organization.max_steps_per_run
     or settings.MAX_STEPS_PER_RUN]. *)
Definition effective_max_steps (override_max_steps_per_run : option Z)
           (organization : Organization) : Z :=
  py_or override_max_steps_per_run
        (py_or (max_steps_per_run organization) (MAX_STEPS_PER_RUN (settings E))).

Definition max_steps_reason (max_steps : Z) : string :=
  "Max steps per task (" ++ str_of_int max_steps ++ ") exceeded".

Definition handle_completed_step (organization : Organization) (task : Task.t)
           (step : Step.t) : M W (option bool * option Step.t * option Step.t) :=
  if is_goal_achieved E step
  then
    LOG INFO "Step completed and goal achieved, marking task as completed" ;;
    last_step <- update_step step None None (Some true) None ;;
    extracted_information <- get_extracted_information_for_task task ;;
    update_task task TaskStatus.completed extracted_information None ;;
    ret (Some true, Some last_step, None)
  else if is_terminated E step
  then
    LOG INFO "Step completed and terminated by the agent, marking task as terminated" ;;
    last_step <- update_step step None None (Some true) None ;;
    failure_reason <- get_failure_reason_for_task task ;;
    update_task task TaskStatus.terminated None failure_reason ;;
    ret (Some false, Some last_step, None)
  else
    context <- call (ensure_context E) EnsureContext ;;
    let override_max_steps_per_run := max_steps_override context in
    let max_steps := effective_max_steps override_max_steps_per_run organization in
    if Step.order step + 1 >=? max_steps
    then
      LOG INFO "Step completed but max steps reached, marking task as failed" ;;
      last_step <- update_step step None None (Some true) None ;;
      update_task task TaskStatus.failed None (Some (max_steps_reason max_steps)) ;;
      ret (Some false, Some last_step, None)
    else
      LOG INFO "Step completed, creating next step" ;;
      next_step <- call (db_create_step E (Task.task_id task) (Task.organization_id task)
                                        (Step.order step + 1) 0)
                        (DbCreateStep (Task.task_id task) (Task.organization_id task)
                                      (Step.order step + 1) 0) ;;
      (if long_running_warning_due E (Step.order step) max_steps
       then LOG INFO "Long running task warning"
       else ret tt) ;;
      ret (None, None, Some next_step).

(** ** Responder *)

Definition webhook_headers (timestamp signature : string) : list (string * string) :=
  [("x-skyvern-timestamp", timestamp);
   ("x-skyvern-signature", signature);
   ("Content-Type", "application/json")].

Definition execute_task_webhook (task : Task.t) (last_step : Step.t)
           (api_key : option string) : M W unit :=
  match nonempty api_key with
  | None => LOG WARNING "Request has no api key. Not sending task response"
  | Some api_key =>
      match nonempty (Task.webhook_callback_url task) with
      | None => LOG WARNING "Task has no webhook callback url. Not sending task response"
      | Some _ =>
          screenshot_artifact <-
            call (db_get_artifact E (Task.task_id task) (Step.step_id last_step)
                                  ArtifactType.SCREENSHOT_FINAL (Task.organization_id task))
                 (DbGetArtifact (Task.task_id task) (Step.step_id last_step)
                                ArtifactType.SCREENSHOT_FINAL (Task.organization_id task)) ;;
          screenshot_url <-
            match screenshot_artifact with
            | Some a => call (get_share_link E a) (GetShareLink a)
            | None => ret None
            end ;;
          recording_artifact <-
            call (db_get_artifact E (Task.task_id task) (Step.step_id last_step)
                                  ArtifactType.RECORDING (Task.organization_id task))
                 (DbGetArtifact (Task.task_id task) (Step.step_id last_step)
                                ArtifactType.RECORDING (Task.organization_id task)) ;;
          recording_url <-
            match recording_artifact with
            | Some a => call (get_share_link E a) (GetShareLink a)
            | None => ret None
            end ;;
          task_from_db <-
            call (db_get_task E (Task.task_id task) (Task.organization_id task))
                 (DbGetTask (Task.task_id task) (Task.organization_id task)) ;;
          match task_from_db with
          | None =>
              LOG ERROR "Failed to get task from db when sending task response" ;;
              raise (TaskNotFound (Task.task_id task))
          | Some task =>
              match nonempty (Task.webhook_callback_url task) with
              | None => LOG INFO "Task has no webhook callback url. Not sending task response"
              | Some webhook_callback_url =>
                  now <- call (utcnow E) UtcNow ;;
                  let timestamp := str_of_int now in
                  let payload := task_response_json E task screenshot_url recording_url in
                  let signature := generate_skyvern_signature E payload api_key in
                  let headers := webhook_headers timestamp signature in
                  LOG INFO "Sending task response to webhook callback url" ;;
                  try_except
                    (resp <- call (requests_post E webhook_callback_url payload headers)
                                  (RequestsPost webhook_callback_url payload headers) ;;
                     if ok resp
                     then LOG INFO "Webhook sent successfully"
                     else
                       (* the arguments of LOG.info are evaluated first: resp.json() *)
                       match json resp with
                       | None => raise JSONDecodeError
                       | Some _ => LOG INFO "Webhook failed"
                       end)
                    isinstance_Exception
                    (fun e => raise (RaiseFrom (FailedToSendWebhook (Task.task_id task)) e))
              end
          end
      end
  end.

Definition cleanup_browser_and_create_artifacts (close_browser_on_completion : bool)
           (last_step : Step.t) (task : Task.t) : M W unit :=
  browser_state <- call (cleanup_for_task E (Task.task_id task) close_browser_on_completion)
                        (CleanupForTask (Task.task_id task) close_browser_on_completion) ;;
  match browser_state with
  | Some browser_state =>
      video_data <- call (get_video_data E (Task.task_id task) browser_state)
                         (GetVideoData (Task.task_id task)) ;;
      (if (video_data =? "")%string
       then ret tt
       else call (update_artifact_data
                    E (video_artifact_id (browser_artifacts browser_state))
                    (Task.organization_id task) video_data)
                 (UpdateArtifactData (video_artifact_id (browser_artifacts browser_state))
                                     (Task.organization_id task) video_data)) ;;
      har_data <- call (get_har_data E (Task.task_id task) browser_state)
                       (GetHarData (Task.task_id task)) ;;
      (if (har_data =? "")%string
       then ret tt
       else new_artifact last_step ArtifactType.HAR (Data har_data) ;; ret tt) ;;
      match nonempty (traces_dir (browser_artifacts browser_state)) with
      | Some dir =>
          if browser_context browser_state
          then
            let trace_path := (dir ++ "/" ++ Task.task_id task ++ ".zip")%string in
            new_artifact last_step ArtifactType.TRACE (Path trace_path) ;; ret tt
          else ret tt
      | None => ret tt
      end
  | None =>
      LOG WARNING "BrowserState is missing before sending response to webhook_callback_url"
  end.

Definition send_task_response (task : Task.t) (last_step : Step.t)
           (api_key : option string) (close_browser_on_completion : bool) : M W unit :=
  refreshed_task <-
    try_except
      (refreshed_task <-
         call (db_get_task E (Task.task_id task) (Task.organization_id task))
              (DbGetTask (Task.task_id task) (Task.organization_id task)) ;;
       match refreshed_task with
       | None =>
           LOG ERROR "Failed to get task from db when sending task response" ;;
           raise (TaskNotFound (Task.task_id task))
       | Some refreshed_task => ret refreshed_task
       end)
      isinstance_Exception
      (fun e =>
         LOG ERROR "Failed to get task from db when sending task response" ;;
         raise (RaiseFrom (TaskNotFound (Task.task_id task)) e)) ;;
  let task := refreshed_task in
  call (analytics_capture E "skyvern-oss-agent-task-status" (Task.status task))
       (AnalyticsCapture "skyvern-oss-agent-task-status" (Task.status task)) ;;
  browser_state <- call (get_or_create_for_task E task)
                        (GetOrCreateForTask (Task.task_id task)) ;;
  call (get_or_create_page E browser_state) (GetOrCreatePage browser_state) ;;
  try_except
    (screenshot <- call (take_screenshot E browser_state) (TakeScreenshot browser_state) ;;
     new_artifact last_step ArtifactType.SCREENSHOT_FINAL (Data screenshot) ;;
     ret tt)
    isinstance_TargetClosedError
    (fun _ =>
       LOG WARNING
           "Failed to take screenshot before sending task response, page is closed") ;;
  if truthy_str (Task.workflow_run_id task)
  then LOG INFO "Task is part of a workflow run, not sending a webhook response"
  else
    cleanup_browser_and_create_artifacts close_browser_on_completion last_step task ;;
    call (wait_for_upload_aiotasks_for_task E (Task.task_id task))
         (WaitForUpload (Task.task_id task)) ;;
    execute_task_webhook task last_step api_key.

(** ** Tasks of a workflow run *)

(** [for parameter in task_block_parameters:
       navigation_payload[parameter.key] = workflow_run_context.get_value(parameter.key)]. *)
Fixpoint resolve_parameters (navigation_payload : list (string * Json))
         (keys : list string) : M W (list (string * Json)) :=
  match keys with
  | [] => ret navigation_payload
  | key :: rest =>
      value <- call (get_value E key) (GetValue key) ;;
      resolve_parameters (dict_set navigation_payload key value) rest
  end.

Definition create_task_and_step_from_block (task_block : TaskBlock) (workflow : Workflow)
           (workflow_run : WorkflowRun) (task_order task_retry : Z)
  : M W (Task.t * Step.t) :=
  navigation_payload <- resolve_parameters [] (tb_parameters task_block) ;;
  task_url <-
    match tb_url task_block with
    | Some task_url => ret task_url
    | None =>
        browser_state <-
          call (get_or_create_for_workflow_run E workflow_run None)
               (GetOrCreateForWorkflowRun (wr_workflow_run_id workflow_run) None) ;;
        match page browser_state with
        | None =>
            LOG ERROR "BrowserState has no page" ;;
            raise (MissingBrowserStatePage (wr_workflow_run_id workflow_run))
        | Some page =>
            if (page_url page =? "about:blank")%string
            then raise (InvalidWorkflowTaskURLState (wr_workflow_run_id workflow_run))
            else ret (page_url page)
        end
    end ;;
  let req :=
    {| c_url := task_url;
       c_title := tb_title task_block;
       c_webhook_callback_url := None;
       c_navigation_goal := tb_navigation_goal task_block;
       c_data_extraction_goal := tb_data_extraction_goal task_block;
       c_navigation_payload := navigation_payload;
       c_organization_id := wf_organization_id workflow;
       c_proxy_location := wr_proxy_location workflow_run;
       c_extracted_information_schema := tb_data_schema task_block;
       c_workflow_run_id := Some (wr_workflow_run_id workflow_run);
       c_order := Some task_order;
       c_retry := Some task_retry;
       c_error_code_mapping := tb_error_code_mapping task_block |} in
  task <- call (db_create_task E req) (DbCreateTask req) ;;
  LOG INFO "Created new task for workflow run" ;;
  let updates := [("status", VTaskStatus TaskStatus.running)] in
  task <- call (db_update_task E (Task.task_id task) (Task.organization_id task) updates)
               (DbUpdateTask (Task.task_id task) (Task.organization_id task) updates) ;;
  step <- call (db_create_step E (Task.task_id task) (Task.organization_id task) 0 0)
               (DbCreateStep (Task.task_id task) (Task.organization_id task) 0 0) ;;
  LOG INFO "Created new step for workflow run" ;;
  ret (task, step).

End Agent.

(** ** An in-memory implementation of the collaborators

    Used to run the engine on concrete inputs.  The database keeps the
    steps and tasks in creation order and can be scripted to go down after
    a number of calls. *)

Module Mem.

Record Db := {
  steps : list Step.t;
  tasks : list Task.t;
  calls_left : option nat      (* [Some n]: the database goes down after [n] calls *)
}.

Record Script := {
  cfg : Settings;
  handler : Action -> Res (list ActionResult);
  llm : Res (list (string * string));
  parsed : Res (list Action);
  post : Res Response;
  context : SkyvernContext;
  browser : BrowserState
}.

Definition down : Exn := OtherException "database is down".

(** One database call: refused once the database is down. *)
Definition db_call {A : Type} (f : Db -> Res A * Db) (db : Db) : Res A * Db :=
  match calls_left db with
  | Some O => (Raise down, db)
  | Some (S n) =>
      f {| steps := steps db; tasks := tasks db; calls_left := Some n |}
  | None => f db
  end.

Definition set_step_field (s : Step.t) (key : string) (v : FieldVal) : Step.t :=
  match v with
  | VStepStatus st =>
      {| Step.step_id := Step.step_id s; Step.task_id := Step.task_id s;
         Step.organization_id := Step.organization_id s; Step.order := Step.order s;
         Step.retry_index := Step.retry_index s; Step.is_last := Step.is_last s;
         Step.status := st; Step.output := Step.output s |}
  | VOutput o =>
      {| Step.step_id := Step.step_id s; Step.task_id := Step.task_id s;
         Step.organization_id := Step.organization_id s; Step.order := Step.order s;
         Step.retry_index := Step.retry_index s; Step.is_last := Step.is_last s;
         Step.status := Step.status s; Step.output := o |}
  | VBool b =>
      {| Step.step_id := Step.step_id s; Step.task_id := Step.task_id s;
         Step.organization_id := Step.organization_id s; Step.order := Step.order s;
         Step.retry_index := Step.retry_index s; Step.is_last := b;
         Step.status := Step.status s; Step.output := Step.output s |}
  | VInt z =>
      {| Step.step_id := Step.step_id s; Step.task_id := Step.task_id s;
         Step.organization_id := Step.organization_id s; Step.order := Step.order s;
         Step.retry_index := z; Step.is_last := Step.is_last s;
         Step.status := Step.status s; Step.output := Step.output s |}
  | _ => s
  end.

Definition set_task_field (t : Task.t) (key : string) (v : FieldVal) : Task.t :=
  let mk st ei fr :=
    {| Task.task_id := Task.task_id t; Task.organization_id := Task.organization_id t;
       Task.workflow_run_id := Task.workflow_run_id t; Task.url := Task.url t;
       Task.title := Task.title t; Task.navigation_goal := Task.navigation_goal t;
       Task.data_extraction_goal := Task.data_extraction_goal t;
       Task.navigation_payload := Task.navigation_payload t;
       Task.extracted_information_schema := Task.extracted_information_schema t;
       Task.error_code_mapping := Task.error_code_mapping t;
       Task.proxy_location := Task.proxy_location t;
       Task.webhook_callback_url := Task.webhook_callback_url t;
       Task.status := st; Task.extracted_information := ei;
       Task.failure_reason := fr; Task.errors := Task.errors t |} in
  match v with
  | VTaskStatus st => mk st (Task.extracted_information t) (Task.failure_reason t)
  | VJson j => mk (Task.status t) j (Task.failure_reason t)
  | VStr s => mk (Task.status t) (Task.extracted_information t) s
  | _ => t
  end.

Definition apply_updates {A : Type} (set : A -> string -> FieldVal -> A)
           (updates : Dict) (a : A) : A :=
  fold_left (fun a kv => set a (fst kv) (snd kv)) updates a.

Fixpoint update_where {A : Type} (p : A -> bool) (f : A -> A) (l : list A)
  : option (A * list A) :=
  match l with
  | [] => None
  | x :: l' =>
      if p x then Some (f x, f x :: l')
      else match update_where p f l' with
           | Some (y, l'') => Some (y, x :: l'')
           | None => None
           end
  end.

Definition get_task_steps (task_id : string) (_ : option string) : Db -> Res (list Step.t) * Db :=
  db_call (fun db =>
    (Ok (filter (fun s => (Step.task_id s =? task_id)%string) (steps db)), db)).

Definition create_step (task_id : string) (org : option string) (order retry_index : Z)
  : Db -> Res Step.t * Db :=
  db_call (fun db =>
    let s := {| Step.step_id := "step_" ++ str_of_int (Z.of_nat (List.length (steps db)));
                Step.task_id := task_id; Step.organization_id := org;
                Step.order := order; Step.retry_index := retry_index;
                Step.is_last := false; Step.status := StepStatus.created;
                Step.output := None |} in
    (Ok s, {| steps := steps db ++ [s]; tasks := tasks db; calls_left := calls_left db |})).

Definition write_step (task_id step_id : string) (_ : option string) (updates : Dict)
  : Db -> Res Step.t * Db :=
  db_call (fun db =>
    match update_where (fun s => (Step.step_id s =? step_id)%string)
                       (apply_updates set_step_field updates) (steps db) with
    | Some (s, l) => (Ok s, {| steps := l; tasks := tasks db; calls_left := calls_left db |})
    | None => (Raise (OtherException "step not found"), db)
    end).

Definition get_task (task_id : string) (_ : option string) : Db -> Res (option Task.t) * Db :=
  db_call (fun db =>
    (Ok (find (fun t => (Task.task_id t =? task_id)%string) (tasks db)), db)).

Definition write_task (task_id : string) (_ : option string) (updates : Dict)
  : Db -> Res Task.t * Db :=
  db_call (fun db =>
    match update_where (fun t => (Task.task_id t =? task_id)%string)
                       (apply_updates set_task_field updates) (tasks db) with
    | Some (t, l) => (Ok t, {| steps := steps db; tasks := l; calls_left := calls_left db |})
    | None => (Raise (OtherException "task not found"), db)
    end).

Definition create_task (req : TaskCreate) : Db -> Res Task.t * Db :=
  db_call (fun db =>
    let t := {| Task.task_id := "task_" ++ str_of_int (Z.of_nat (List.length (tasks db)));
                Task.organization_id := c_organization_id req;
                Task.workflow_run_id := c_workflow_run_id req;
                Task.url := c_url req; Task.title := c_title req;
                Task.navigation_goal := c_navigation_goal req;
                Task.data_extraction_goal := c_data_extraction_goal req;
                Task.navigation_payload := c_navigation_payload req;
                Task.extracted_information_schema := c_extracted_information_schema req;
                Task.error_code_mapping := c_error_code_mapping req;
                Task.proxy_location := c_proxy_location req;
                Task.webhook_callback_url := c_webhook_callback_url req;
                Task.status := TaskStatus.created; Task.extracted_information := None;
                Task.failure_reason := None; Task.errors := [] |} in
    (Ok t, {| steps := steps db; tasks := tasks db ++ [t]; calls_left := calls_left db |})).

(** Modelled from the spec: [Step.validate_update] of
    skyvern/forge/sdk/models.py, which is absent; it admits the status
    transitions created -> running -> completed | failed and no other. *)
Definition step_validate (s : Step.t) (status : option StepStatus.t)
           (_ : option AgentStepOutput) (_ : option bool) : option Exn :=
  match status with
  | None => None
  | Some new =>
      match Step.status s, new with
      | StepStatus.created, StepStatus.running
      | StepStatus.running, StepStatus.completed
      | StepStatus.running, StepStatus.failed => None
      | _, _ => Some (ValueError "invalid_status_transition")
      end
  end.

(** Modelled from the spec: [Task.validate_update] of
    skyvern/forge/sdk/schemas/tasks.py, which is absent; no transition
    leaves a terminal status. *)
Definition task_validate (t : Task.t) (status : TaskStatus.t)
           (_ : option Json) (_ : option string) : option Exn :=
  match Task.status t with
  | TaskStatus.created | TaskStatus.running => None
  | _ => Some (ValueError "invalid_task_status_transition")
  end.

(** Modelled from the spec: [DetailedAgentStepOutput.to_agent_step_output]
    of skyvern/webeye/actions/models.py, which is absent; the output of a
    step holds the action results, the actions with their results and the
    errors the actions report. *)
Definition to_output (d : DetailedAgentStepOutput) : AgentStepOutput :=
  {| action_results := d_action_results d;
     actions_and_results := d_actions_and_results d;
     errors := match d_actions d with
               | Some actions => flat_map action_errors actions
               | None => []
               end |}.

Definition has_action (p : Action -> list ActionResult -> bool) (s : Step.t) : bool :=
  match Step.output s with
  | Some o =>
      match actions_and_results o with
      | Some ars => existsb (fun ar => p (fst ar) (snd ar)) ars
      | None => false
      end
  | None => false
  end.

(** Modelled from the spec: [Step.is_goal_achieved], which is absent; a
    successful COMPLETE action exists in the step's output. *)
Definition goal_achieved (s : Step.t) : bool :=
  has_action (fun a rs => ActionType.eqb (action_type a) ActionType.COMPLETE
                          && existsb success rs) s.

(** Modelled from the spec: [Step.is_terminated], which is absent; a
    TERMINATE action exists in the step's output. *)
Definition terminated (s : Step.t) : bool :=
  has_action (fun a _ => ActionType.eqb (action_type a) ActionType.TERMINATE) s.

Definition always {A : Type} (a : A) : Db -> Res A * Db := fun db => (Ok a, db).

Definition dumps_results (rs : list ActionResult) : string :=
  String.concat "," (map (fun r => if success r then "ok" else "failed") rs).

Definition env (sc : Script) : Env Db :=
  {| settings := cfg sc;
     db_get_task_steps := get_task_steps;
     db_create_task := create_task;
     db_update_task := write_task;
     db_get_task := get_task;
     db_create_step := create_step;
     db_update_step := write_step;
     db_get_artifact := fun _ _ _ _ => db_call (always None);
     create_artifact := fun step_id _ _ => always ("artifact_" ++ step_id)%string;
     update_artifact_data := fun _ _ _ => always tt;
     wait_for_upload_aiotasks_for_task := fun _ => always tt;
     get_share_link := fun _ => always None;
     scrape_website := fun _ _ =>
       always {| html := "<html></html>"; elements := []; element_tree := "[]";
                 element_tree_trimmed := "[]"; id_to_xpath_dict := [];
                 screenshots := [] |};
     LLM_API_HANDLER := fun _ _ _ db => (llm sc, db);
     load_prompt := fun _ vars => always (p_action_history vars);
     handle_action := fun _ _ _ _ action db => (handler sc action, db);
     sleep := always tt;
     take_screenshot := fun _ => always "png";
     page_content := fun _ => always "<html></html>";
     get_or_create_page := fun _ => always tt;
     get_or_create_for_task := fun _ => always (browser sc);
     get_or_create_for_workflow_run := fun _ _ => always (browser sc);
     get_video_data := fun _ _ => always "";
     get_har_data := fun _ _ => always "";
     cleanup_for_task := fun _ _ => always (Some (browser sc));
     ensure_context := always (context sc);
     get_value := fun key => always (JStr key);
     utcnow := always 1700000000;
     analytics_capture := fun _ _ => always tt;
     requests_post := fun _ _ _ db => (post sc, db);
     step_validate_update := step_validate;
     task_validate_update := task_validate;
     to_agent_step_output := to_output;
     is_goal_achieved := goal_achieved;
     is_terminated := terminated;
     parse_actions := fun _ _ => parsed sc;
     dumps_action_results := dumps_results;
     dumps_payload := fun _ => "{}";
     dumps_mapping := fun _ => "{}";
     dumps_xpaths := fun _ => "{}";
     dumps_tree := fun t => t;
     task_response_json := fun t _ _ => Task.task_id t;
     generate_skyvern_signature := fun payload api_key => (payload ++ api_key)%string;
     long_running_warning_due := fun _ _ => false |}.

End Mem.

(** ** Concrete inputs *)

Module Sample.

Definition browser : BrowserState :=
  {| page := Some {| page_url := "https://x" |};
     browser_context := true;
     browser_artifacts := {| video_artifact_id := Some "video_1"; traces_dir := None |} |}.

Definition cfg : Settings :=
  {| MAX_RETRIES_PER_STEP := 2; MAX_STEPS_PER_RUN := 10; PROMPT_ACTION_HISTORY_WINDOW := 2 |}.

Definition action (ty : ActionType.t) (id : option Z) : Action :=
  {| action_type := ty; element_id := id; reasoning := None;
     data_extraction_goal := None; action_errors := [] |}.

Definition click (id : Z) : Action := action ActionType.CLICK (Some id).
Definition wait : Action := action ActionType.WAIT None.
Definition complete : Action := action ActionType.COMPLETE None.

Definition outcome (succeeded : bool) (d : option Json) : ActionResult :=
  {| success := succeeded; data := d; javascript_triggered := false;
     step_retry_number := None; step_order := None |}.

Definition accepted : Response :=
  {| ok := true; status_code := 200; text := "{}"; json := Some "{}" |}.

Definition server_error : Response :=
  {| ok := false; status_code := 500; text := "Internal Server Error"; json := None |}.

(** The handler fails WAIT with no result and succeeds otherwise. *)
Definition script (actions : list Action) (reply : Res Response) : Mem.Script :=
  {| Mem.cfg := cfg;
     Mem.handler := fun a => Ok (if is_wait a then [] else [outcome true None]);
     Mem.llm := Ok [("actions", "[...]")];
     Mem.parsed := Ok actions;
     Mem.post := reply;
     Mem.context := {| max_steps_override := None |};
     Mem.browser := browser |}.

Definition E : Env Mem.Db := Mem.env (script [click 1] (Ok server_error)).

Definition step (id : string) (order retry : Z) (st : StepStatus.t) (last : bool)
           (out : option AgentStepOutput) : Step.t :=
  {| Step.step_id := id; Step.task_id := "task_0"; Step.organization_id := Some "org_1";
     Step.order := order; Step.retry_index := retry; Step.is_last := last;
     Step.status := st; Step.output := out |}.

Definition step0 : Step.t := step "step_0" 0 0 StepStatus.created false None.

Definition task (workflow_run : option string) (webhook : option string) : Task.t :=
  {| Task.task_id := "task_0"; Task.organization_id := Some "org_1";
     Task.workflow_run_id := workflow_run; Task.url := "https://x"; Task.title := None;
     Task.navigation_goal := Some "click login"; Task.data_extraction_goal := None;
     Task.navigation_payload := []; Task.extracted_information_schema := None;
     Task.error_code_mapping := None; Task.proxy_location := None;
     Task.webhook_callback_url := webhook; Task.status := TaskStatus.running;
     Task.extracted_information := None; Task.failure_reason := None;
     Task.errors := [] |}.

Definition task0 : Task.t := task None (Some "https://hook").

Definition db (steps : list Step.t) (t : Task.t) (calls : option nat) : Mem.Db :=
  {| Mem.steps := steps; Mem.tasks := [t]; Mem.calls_left := calls |}.

Definition db0 : Mem.Db := db [step0] task0 None.

Definition org (limit : option Z) : Organization :=
  {| org_organization_id := "org_1"; max_steps_per_run := limit |}.

Definition results_of (rs : list ActionResult) : AgentStepOutput :=
  {| action_results := Some rs; actions_and_results := None; errors := [] |}.

(** Two finished steps and the step being executed. *)
Definition history : list Step.t :=
  [step "step_0" 0 0 StepStatus.failed false (Some (results_of [outcome false None]));
   step "step_1" 0 1 StepStatus.completed false (Some (results_of [outcome true None]));
   step "step_2" 1 0 StepStatus.running false None].

Definition current : Step.t := step "step_2" 1 0 StepStatus.running false None.

Definition scraped : ScrapedPage :=
  {| html := "<html></html>"; elements := []; element_tree := "[]";
     element_tree_trimmed := "[]"; id_to_xpath_dict := []; screenshots := [] |}.

Definition running : Step.t := step "step_0" 0 0 StepStatus.running false None.

(** The state of [agent_step] when the executor loop starts on [actions]. *)
Definition at_loop (actions : list Action) : Mem.Db * Locals :=
  (db [running] task0 None,
   {| l_step := running;
      l_out := {| d_scraped_page := Some scraped;
                  d_extract_action_prompt := Some "";
                  d_llm_response := Some [("actions", "[...]")];
                  d_actions := Some actions;
                  d_action_results := Some [];
                  d_actions_and_results := Some (map (fun a => (a, [])) actions) |} |}).

Definition alice : Json := JDict [("name", "Alice")].

(** A completed step whose COMPLETE action succeeded with data. *)
Definition done : Step.t :=
  step "step_1" 1 0 StepStatus.completed false
       (Some {| action_results := Some [outcome true (Some alice)];
                actions_and_results := Some [(complete, [outcome true (Some alice)])];
                errors := [] |}).

(** An earlier completed step with a click only. *)
Definition clicked : Step.t :=
  step "step_0" 0 0 StepStatus.completed false
       (Some {| action_results := Some [outcome true None];
                actions_and_results := Some [(click 1, [outcome true None])];
                errors := [] |}).

End Sample.

(** ** Specification-level definitions *)

(** The step ceiling as the specification words it: the first of the three
    that is defined. *)
Definition first_defined (override organization_limit : option Z) (default : Z) : Z :=
  match override, organization_limit with
  | Some n, _ => n
  | None, Some n => n
  | None, None => default
  end.

(** [update_step] as the specification words it: every field handed to
    persistence differs from the step's current value. *)
Definition writes_only_changes (step : Step.t) (t : list Event) : Prop :=
  forall task_id step_id org updates r key value,
    In (DbUpdateStep task_id step_id org updates r) t ->
    In (key, value) updates ->
    Step_getattr step key <> value.

(** The results a step contributes to the action history. *)
Definition step_results (s : Step.t) : list ActionResult :=
  match Step.output s with
  | Some o =>
      match action_results o with
      | Some rs => rs
      | None => []
      end
  | None => []
  end.

(** The last [n] elements of a list. *)
Definition lastn {A : Type} (n : nat) (l : list A) : list A :=
  skipn (List.length l - n) l.

(** The steps of the task other than the one being executed. *)
Definition prior_steps (current : Step.t) (steps : list Step.t) : list Step.t :=
  filter (fun s => negb (Step.step_id s =? Step.step_id current)%string) steps.

(** The action history as the specification words it: the results of the
    last [window] steps executed before the current one, in step order. *)
Definition prior_action_history (window : Z) (current : Step.t) (steps : list Step.t)
  : list ActionResult :=
  List.concat (map step_results (lastn (Z.to_nat window) (prior_steps current steps))).

(** A step the scan for extracted information does not skip: completed,
    with a non-empty [actions_and_results]. *)
Definition scanned (s : Step.t) : bool :=
  is_completed s &&
  match Step.output s with
  | Some o => truthy_list (actions_and_results o)
  | None => false
  end.

(** The data of the successful results of the COMPLETE actions of a step,
    in the order of the actions and of their results. *)
Definition successful_complete_data (s : Step.t) : list (option Json) :=
  match Step.output s with
  | Some o =>
      match actions_and_results o with
      | Some ars =>
          flat_map
            (fun ar =>
               if ActionType.eqb (action_type (fst ar)) ActionType.COMPLETE
               then map data (filter success (snd ar))
               else [])
            ars
      | None => []
      end
  | None => []
  end.

(** The extracted information as the specification words it: over the
    steps in reverse order, skipping those not completed or without
    [actions_and_results], the data of the first successful result of a
    COMPLETE action; [None] when there is none in any step. *)
Definition most_recent_complete_data (steps : list Step.t) : option Json :=
  match flat_map successful_complete_data (filter scanned (List.rev steps)) with
  | d :: _ => d
  | [] => None
  end.

(** The events of the responder up to the final screenshot. *)
Definition before_cleanup (ev : Event) : bool :=
  match ev with
  | Log _ _ | DbGetTask _ _ _ | AnalyticsCapture _ _ _ | GetOrCreateForTask _ _
  | GetOrCreatePage _ _ | TakeScreenshot _ _
  | CreateArtifact _ ArtifactType.SCREENSHOT_FINAL _ _ => true
  | _ => false
  end.

Definition is_post (ev : Event) : bool :=
  match ev with
  | RequestsPost _ _ _ _ => true
  | _ => false
  end.

Definition is_dispatch (ev : Event) : bool :=
  match ev with
  | HandleAction _ _ => true
  | _ => false
  end.

(** What a computation can emit: every event of every transcript of [m]
    satisfies [P]. *)
Definition emits {S A : Type} (P : Event -> Prop) (m : M S A) : Prop :=
  forall s, Forall P (transcript (m s)).


(** The [create_task] calls of a workflow run: no webhook, and the id of
    the run. *)
Definition creates_workflow_task (workflow_run : WorkflowRun) (ev : Event) : Prop :=
  forall req r, ev = DbCreateTask req r ->
                c_webhook_callback_url req = None
                /\ c_workflow_run_id req = Some (wr_workflow_run_id workflow_run).


(** A handler returned an empty result list. *)
Definition is_empty_reply (ev : Event) : bool :=
  match ev with
  | HandleAction _ (Ok []) => true
  | _ => false
  end.

(** Some handler of the transcript returned an empty result list. *)
Definition has_empty_reply (t : list Event) : Prop :=
  Exists (fun ev => is_empty_reply ev = true) t.

(** After the first empty reply of a handler, no action is dispatched. *)
Fixpoint quiet_after_empty_reply (t : list Event) : Prop :=
  match t with
  | [] => True
  | ev :: t' =>
      if is_empty_reply ev
      then Forall (fun ev' => is_dispatch ev' = false) t'
      else quiet_after_empty_reply t'
  end.

(** A write of the status [completed] to a step. *)
Definition marks_completed (ev : Event) : bool :=
  match ev with
  | DbUpdateStep _ _ _ updates _ =>
      match assoc updates "status" with
      | Some (VStepStatus StepStatus.completed) => true
      | _ => false
      end
  | _ => false
  end.

(** Neither a dispatch nor a step marked completed. *)
Definition inert (ev : Event) : bool :=
  negb (is_dispatch ev) && negb (marks_completed ev).

(** Not an empty reply of a handler, nor a step marked completed. *)
Definition harmless (ev : Event) : bool :=
  negb (is_empty_reply ev) && negb (marks_completed ev).

(** The transcript ends with the write that marks the step failed, with
    the output [d], and the reply [failed_step]. *)
Definition marked_failed {W : Type} (E : Env W) (failed_step : Step.t)
           (d : DetailedAgentStepOutput) (t : list Event) : Prop :=
  exists t' diff task_id step_id org,
    t = t' ++ [LogDiff "Updating step in db" diff;
               DbUpdateStep task_id step_id org
                            (step_updates (Some StepStatus.failed)
                                          (Some (to_agent_step_output E d)) None None)
                            (Ok failed_step)].

(** The outcome of a run in which a handler returned no result: nothing
    is dispatched afterwards, no step is marked completed, and a normal
    return carries the step marked failed. *)
Definition fails_after_empty_reply {W A : Type} (E : Env W)
           (returned : A -> option (Step.t * DetailedAgentStepOutput))
           (r : Res A) (t : list Event) : Prop :=
  quiet_after_empty_reply t
  /\ (has_empty_reply t ->
      Forall (fun ev => marks_completed ev = false) t
      /\ forall v, r = Ok v ->
                   exists failed_step d,
                     returned v = Some (failed_step, d) /\ marked_failed E failed_step d t).

(** Every run of [m] has this outcome. *)
Definition fails_when_empty {W S A : Type} (E : Env W)
           (returned : A -> option (Step.t * DetailedAgentStepOutput)) (m : M S A) : Prop :=
  forall s, fails_after_empty_reply E returned (result (m s)) (transcript (m s)).


(** ** Definitions for the further properties *)

(** The dispatched actions of a transcript, with the replies. *)
Fixpoint dispatched (t : list Event) : list (Action * Res (list ActionResult)) :=
  match t with
  | [] => []
  | HandleAction a r :: t' => (a, r) :: dispatched t'
  | _ :: t' => dispatched t'
  end.

(** The last result of the reply of a handler reports success. *)
Definition succeeded (r : Res (list ActionResult)) : bool :=
  match r with
  | Ok results => results_succeeded results
  | Raise _ => false
  end.

(** The reply of a handler succeeded and triggered javascript. *)
Definition triggered_javascript (r : Res (list ActionResult)) : bool :=
  match r with
  | Ok results => results_succeeded results && last_javascript_triggered results
  | Raise _ => false
  end.

(** The element ids the web actions of a list target. *)
Definition web_ids (actions : list Action) : list Z :=
  flat_map (fun a => match element_id a with Some id => [id] | None => [] end) actions.

(** What the executor loop dispatched: a prefix of [actions] of distinct
    elements, none of them in [ids], each but the last a success that
    triggered no javascript. *)
Definition orderly_dispatches (actions : list Action) (ids : list Z)
           (ds : list (Action * Res (list ActionResult))) : Prop :=
  (exists k, map fst ds = firstn k actions)
  /\ (forall id, In id (web_ids (map fst ds)) -> ~ In id ids)
  /\ NoDup (web_ids (map fst ds))
  /\ (forall pre d post,
        ds = pre ++ d :: post -> post <> [] ->
        succeeded (snd d) = true /\ triggered_javascript (snd d) = false).

(** The actions [agent_step] works on in a run with transcript [t]: when
    the task has a navigation goal, what [parse_actions] made of the
    "actions" entry of a reply the LLM gave in that run; the one COMPLETE
    action otherwise. *)
Definition parsed_for {W : Type} (E : Env W) (task : Task.t) (t : list Event)
           (actions : list Action) : Prop :=
  if truthy_str (Task.navigation_goal task)
  then exists prompt step_id shots json raw,
      In (LlmCall prompt step_id shots (Ok json)) t
      /\ assoc json "actions" = Some raw
      /\ parse_actions E task raw = Ok actions
  else actions = [CompleteAction "Task has no navigation goal."
                                 (Task.data_extraction_goal task)].

(** The dispatches of a transcript, for an action list that satisfies
    [P]: none, and then no step is marked completed; or an orderly prefix
    of the filtered actions, all of them successes when a step is marked
    completed. *)
Definition dispatches_of (P : list Action -> Prop) (t : list Event) : Prop :=
  (dispatched t = [] /\ Forall (fun ev => marks_completed ev = false) t)
  \/ (exists actions,
        P actions
        /\ actions <> []
        /\ dispatched t <> []
        /\ orderly_dispatches (filter_wait_actions actions) [] (dispatched t)
        /\ (Exists (fun ev => marks_completed ev = true) t ->
            Forall (fun d => succeeded (snd d) = true) (dispatched t))).

(** The dispatches of one run of [agent_step]. *)
Definition step_dispatches {W : Type} (E : Env W) (task : Task.t) (t : list Event) : Prop :=
  dispatches_of (parsed_for E task t) t.

(** The calls one run of [agent_step] can make; the LLM only when [llm]. *)
Definition step_event (llm : bool) (ev : Event) : bool :=
  match ev with
  | Log _ _ | LogDiff _ _ | DbUpdateStep _ _ _ _ _ | DbGetTaskSteps _ _ _
  | ScrapeWebsite _ _ _ | CreateArtifact _ _ _ _ | UtcNow _ | LoadPrompt _ _ _
  | HandleAction _ _ | Sleep _ | TakeScreenshot _ _ | PageContent _ _
  | GetVideoData _ _ | UpdateArtifactData _ _ _ _ => true
  | LlmCall _ _ _ _ => llm
  | _ => false
  end.

Definition is_llm_call (ev : Event) : bool :=
  match ev with LlmCall _ _ _ _ => true | _ => false end.

(** The calls that leave the step: writes to tasks, new tasks and steps,
    webhook posts, analytics, browser sessions. *)
Definition leaves_step (ev : Event) : bool :=
  match ev with
  | DbCreateTask _ _ | DbUpdateTask _ _ _ _ | DbCreateStep _ _ _ _ _
  | RequestsPost _ _ _ _ | AnalyticsCapture _ _ _ | CleanupForTask _ _ _
  | GetOrCreateForTask _ _ | GetOrCreateForWorkflowRun _ _ _ => true
  | _ => false
  end.

Module Runs.

(** The collaborators when the LLM's reply parses to [actions]. *)
Definition E (actions : list Action) : Env Mem.Db :=
  Mem.env (Sample.script actions (Ok Sample.accepted)).

(** A task without navigation goal. *)
Definition extraction_only : Task.t :=
  {| Task.task_id := "task_0"; Task.organization_id := Some "org_1";
     Task.workflow_run_id := None; Task.url := "https://x"; Task.title := None;
     Task.navigation_goal := None; Task.data_extraction_goal := Some "the price";
     Task.navigation_payload := []; Task.extracted_information_schema := None;
     Task.error_code_mapping := None; Task.proxy_location := None;
     Task.webhook_callback_url := None; Task.status := TaskStatus.running;
     Task.extracted_information := None; Task.failure_reason := None;
     Task.errors := [] |}.

(** One run of [agent_step] on the first step of the sample task. *)
Definition agent_step_on (actions : list Action) : Res (Step.t * DetailedAgentStepOutput) * Mem.Db * list Event :=
  agent_step (E actions) Sample.task0 Sample.step0 Sample.browser None Sample.db0.

(** The collaborators [E] with a browser whose replies are given. *)
Definition with_browser (shot content video har : Res string)
           (cleaned : Res (option BrowserState)) (E : Env Mem.Db) : Env Mem.Db :=
  {| settings := settings E;
     db_get_task_steps := db_get_task_steps E;
     db_create_task := db_create_task E;
     db_update_task := db_update_task E;
     db_get_task := db_get_task E;
     db_create_step := db_create_step E;
     db_update_step := db_update_step E;
     db_get_artifact := db_get_artifact E;
     create_artifact := create_artifact E;
     update_artifact_data := update_artifact_data E;
     wait_for_upload_aiotasks_for_task := wait_for_upload_aiotasks_for_task E;
     get_share_link := get_share_link E;
     scrape_website := scrape_website E;
     LLM_API_HANDLER := LLM_API_HANDLER E;
     load_prompt := load_prompt E;
     handle_action := handle_action E;
     sleep := sleep E;
     take_screenshot := fun _ db => (shot, db);
     page_content := fun _ db => (content, db);
     get_or_create_page := get_or_create_page E;
     get_or_create_for_task := get_or_create_for_task E;
     get_or_create_for_workflow_run := get_or_create_for_workflow_run E;
     get_video_data := fun _ _ db => (video, db);
     get_har_data := fun _ _ db => (har, db);
     cleanup_for_task := fun _ _ db => (cleaned, db);
     ensure_context := ensure_context E;
     get_value := get_value E;
     utcnow := utcnow E;
     analytics_capture := analytics_capture E;
     requests_post := requests_post E;
     step_validate_update := step_validate_update E;
     task_validate_update := task_validate_update E;
     to_agent_step_output := to_agent_step_output E;
     is_goal_achieved := is_goal_achieved E;
     is_terminated := is_terminated E;
     parse_actions := parse_actions E;
     dumps_action_results := dumps_action_results E;
     dumps_payload := dumps_payload E;
     dumps_mapping := dumps_mapping E;
     dumps_xpaths := dumps_xpaths E;
     dumps_tree := dumps_tree E;
     task_response_json := task_response_json E;
     generate_skyvern_signature := generate_skyvern_signature E;
     long_running_warning_due := long_running_warning_due E |}.

(** A browser that fails to take screenshots with [e] and is fine otherwise. *)
Definition no_screenshot (e : Exn) : Env Mem.Db :=
  with_browser (Raise e) (Ok "<html></html>") (Ok "video") (Ok "har")
               (Ok (Some Sample.browser)) Sample.E.

(** A browser state with a traces directory. *)
Definition traced : BrowserState :=
  {| page := Some {| page_url := "https://x" |};
     browser_context := true;
     browser_artifacts := {| video_artifact_id := Some "video_1";
                             traces_dir := Some "/tmp/traces" |} |}.

(** A browser manager that hands out video and HAR data and the state
    [traced] at cleanup. *)
Definition recording : Env Mem.Db :=
  with_browser (Ok "png") (Ok "<html></html>") (Ok "video") (Ok "har")
               (Ok (Some traced)) Sample.E.

(** A completed step in which the agent terminated the task. *)
Definition gave_up : Step.t :=
  Sample.step "step_0" 0 0 StepStatus.completed false
    (Some {| action_results := Some [Sample.outcome true None];
             actions_and_results :=
               Some [(Sample.click 1, [Sample.outcome true None]);
                     ({| action_type := ActionType.TERMINATE; element_id := None;
                         reasoning := Some "login is blocked";
                         data_extraction_goal := None; action_errors := [] |},
                      [Sample.outcome true None])];
             errors := [] |}).

(** A task block without URL, with three parameters of two keys. *)
Definition block : TaskBlock :=
  {| tb_parameters := ["user"; "password"; "user"];
     tb_url := None;
     tb_title := Some "Log in";
     tb_navigation_goal := Some "log in";
     tb_data_extraction_goal := None;
     tb_data_schema := None;
     tb_error_code_mapping := None |}.

Definition workflow : Workflow :=
  {| workflow_id := "wf_1"; wf_organization_id := Some "org_1" |}.

Definition workflow_run : WorkflowRun :=
  {| wr_workflow_run_id := "wr_1"; wr_proxy_location := None |}.

(** The browser of the workflow run shows a blank page. *)
Definition blank : BrowserState :=
  {| page := Some {| page_url := "about:blank" |};
     browser_context := true;
     browser_artifacts := {| video_artifact_id := None; traces_dir := None |} |}.

Definition E_blank : Env Mem.Db :=
  Mem.env {| Mem.cfg := Sample.cfg;
             Mem.handler := fun _ => Ok [];
             Mem.llm := Ok [];
             Mem.parsed := Ok [];
             Mem.post := Ok Sample.accepted;
             Mem.context := {| max_steps_override := None |};
             Mem.browser := blank |}.

End Runs.

(** ** The response *)

(** Neither a cleanup, nor a wait for the uploads, nor a POST. *)
Definition off_stage (ev : Event) : bool :=
  match ev with
  | CleanupForTask _ _ _ | WaitForUpload _ _ | RequestsPost _ _ _ _ => false
  | _ => true
  end.

(** The transcript [t] comes to [rest] after events that are neither a
    cleanup, nor a wait for the uploads, nor a POST. *)
Definition reaches (t rest : list Event) : Prop :=
  exists a, Forall (fun ev => off_stage ev = true) a /\ t = a ++ rest.

Definition is_screenshot (ev : Event) : bool :=
  match ev with
  | TakeScreenshot _ _ => true
  | _ => false
  end.

(** ** The policy after a completed step *)

(** A write to a step or to a task. *)
Definition is_row_update (ev : Event) : bool :=
  match ev with
  | DbUpdateStep _ _ _ _ _ | DbUpdateTask _ _ _ _ => true
  | _ => false
  end.

(** The status [handle_completed_step] gives a task it concludes. *)
Definition concluded_status {W : Type} (E : Env W) (step : Step.t) : TaskStatus.t :=
  if is_goal_achieved E step then TaskStatus.completed
  else if is_terminated E step then TaskStatus.terminated
       else TaskStatus.failed.

(** ** The failure reason *)

(** The reasonings of the TERMINATE actions of a step, in the order of
    the actions. *)
Definition terminate_reasonings (s : Step.t) : list (option string) :=
  match Step.output s with
  | Some o =>
      match actions_and_results o with
      | Some ars =>
          flat_map
            (fun ar =>
               if ActionType.eqb (action_type (fst ar)) ActionType.TERMINATE
               then [reasoning (fst ar)]
               else [])
            ars
      | None => []
      end
  | None => []
  end.

(** The reasonings of the TERMINATE actions of the completed steps, the
    most recent step first. *)
Definition recent_terminate_reasonings (steps : list Step.t) : list (option string) :=
  flat_map terminate_reasonings (filter scanned (List.rev steps)).

(** ** Tasks of a workflow run *)

(** The value the workflow run context returned last for [key] in a
    transcript, [default] when it was never asked for it. *)
Fixpoint last_value (key : string) (t : list Event) (default : option Json) : option Json :=
  match t with
  | [] => default
  | GetValue k (Ok v) :: t' =>
      last_value key t' (if (k =? key)%string then Some v else default)
  | _ :: t' => last_value key t' default
  end.

Definition is_get_value (ev : Event) : bool :=
  match ev with
  | GetValue _ _ => true
  | _ => false
  end.

(** A call to persistence that creates or changes a row. *)
Definition is_db_write (ev : Event) : bool :=
  match ev with
  | DbCreateTask _ _ | DbUpdateTask _ _ _ _ | DbCreateStep _ _ _ _ _
  | DbUpdateStep _ _ _ _ _ => true
  | _ => false
  end.

(** ** The driver: [execute_step] and what it calls *)

Module Driver.

(** Why [validate_step_execution] refuses a step. *)
Inductive Reason :=
| invalid_task_status (status : TaskStatus.t)
| invalid_step_status (status : StepStatus.t)
| another_step_is_running_for_task (task_id : string).

(** The calls of the driver: those of the engine, and two of its own. *)
Inductive Call :=
| Engine (ev : Event)
| SetVideoArtifactForTask (task_id artifact_id : string) (r : Res BrowserState)
| DbUpdateTaskErrors (task_id : string) (org : option string)
                     (errors : list UserDefinedError) (r : Res Task.t).

(** The collaborators of the driver: those of the engine, and
    - [SettingsManager.get_settings().execute_all_steps()];
    - [app.BROWSER_MANAGER.set_video_artifact_for_task], which may change
      the browser state object it was created from: the oracle returns
      the state as the caller sees it after the call;
    - [app.DATABASE.update_task] called with [errors];
    - [DetailedAgentStepOutput.extract_errors];
    - the text of the exception of [validate_step_execution]. *)
Record Deps (W : Type) := {
  base : Env W;
  execute_all_steps : bool;
  set_video_artifact_for_task :
    Task.t -> string -> BrowserState -> W -> Res BrowserState * W;
  db_update_task_errors :
    string -> option string -> list UserDefinedError -> W -> Res Task.t * W;
  extract_errors : DetailedAgentStepOutput -> option (list UserDefinedError);
  cannot_execute_step : list Reason -> Step.t -> string
}.
Arguments base {W}.
Arguments execute_all_steps {W}.
Arguments set_video_artifact_for_task {W}.
Arguments db_update_task_errors {W}.
Arguments extract_errors {W}.
Arguments cannot_execute_step {W}.

(** The monad of the driver: that of the engine over [Call]. *)
Definition D (S A : Type) : Type := S -> Res A * S * list Call.

Definition dret {S A : Type} (a : A) : D S A := fun s => (Ok a, s, []).

Definition dbind {S A B : Type} (m : D S A) (f : A -> D S B) : D S B :=
  fun s =>
    match m s with
    | (Ok a, s1, t1) =>
        match f a s1 with
        | (r, s2, t2) => (r, s2, t1 ++ t2)
        end
    | (Raise e, s1, t1) => (Raise e, s1, t1)
    end.

Definition dtry_except {S A : Type}
           (m : D S A) (catches : Exn -> bool) (h : Exn -> D S A) : D S A :=
  fun s =>
    match m s with
    | (Ok a, s1, t1) => (Ok a, s1, t1)
    | (Raise e, s1, t1) =>
        if catches e
        then match h e s1 with
             | (r, s2, t2) => (r, s2, t1 ++ t2)
             end
        else (Raise e, s1, t1)
    end.

Definition dcall {S A : Type} (oracle : S -> Res A * S) (c : Res A -> Call) : D S A :=
  fun s => match oracle s with (r, s1) => (r, s1, [c r]) end.

(** A computation of the engine, run by the driver. *)
Definition engine {S A : Type} (m : M S A) : D S A :=
  fun s => match m s with (r, s1, t) => (r, s1, map Engine t) end.

Declare Scope driver_scope.
Delimit Scope driver_scope with driver.
Notation "x <- m ;; k" := (dbind m (fun x => k))
  (at level 61, m at next level, right associativity) : driver_scope.
Notation "m ;; k" := (dbind m (fun _ => k))
  (at level 61, right associativity) : driver_scope.

Definition outcome {S A : Type} (x : Res A * S * list Call) : Res A := fst (fst x).
Definition world {S A : Type} (x : Res A * S * list Call) : S := snd (fst x).
Definition calls {S A : Type} (x : Res A * S * list Call) : list Call := snd x.

(** [except FailedToSendWebhook]. *)
Fixpoint isinstance_FailedToSendWebhook (e : Exn) : bool :=
  match e with
  | FailedToSendWebhook _ => true
  | RaiseFrom e _ => isinstance_FailedToSendWebhook e
  | _ => false
  end.

Definition is_running (step : Step.t) : bool :=
  match Step.status step with
  | StepStatus.running => true
  | _ => false
  end.

Definition has_valid_task_status (task : Task.t) : bool :=
  match Task.status task with
  | TaskStatus.running => true
  | _ => false
  end.

Definition has_valid_step_status (step : Step.t) : bool :=
  match Step.status step with
  | StepStatus.created | StepStatus.failed => true
  | _ => false
  end.

(** [reasons.append(reason)] unless [valid]. *)
Definition append_unless (valid : bool) (reasons : list Reason) (reason : Reason)
  : list Reason :=
  if valid then reasons else reasons ++ [reason].

(** The loop of [get_task_errors]; [acc] is the list [errors]. *)
Fixpoint extend_errors (acc : list UserDefinedError) (steps : list Step.t)
  : list UserDefinedError :=
  match steps with
  | [] => acc
  | step :: rest =>
      match Step.output step with
      | Some output =>
          match errors output with
          | e :: es => extend_errors (acc ++ e :: es) rest
          | [] => extend_errors acc rest
          end
      | None => extend_errors acc rest
      end
  end.

(** The variables of [execute_step] its [except] clause returns. *)
Record Locals := {
  x_step : Step.t;
  x_detailed_output : option DetailedAgentStepOutput;
  x_next_step : option Step.t
}.

(** What [execute_step] returns. *)
Definition Returned : Type :=
  (Step.t * option DetailedAgentStepOutput * option Step.t)%type.

Section Steps.

Context {W : Type} (X : Deps W).

Local Open Scope driver_scope.

Definition DLOG {S : Type} (level : LogLevel) (msg : string) : D S unit :=
  engine (LOG level msg).

Definition dlift {A : Type} (m : D W A) : D (W * Locals) A :=
  fun s =>
    match m (fst s) with
    | (r, w, t) => (r, (w, snd s), t)
    end.

Definition get_locals : D (W * Locals) Locals := fun s => (Ok (snd s), s, []).

Definition set_locals (f : Locals -> Locals) : D (W * Locals) unit :=
  fun s => (Ok tt, (fst s, f (snd s)), []).

Definition with_step (step : Step.t) (detailed_output : DetailedAgentStepOutput)
           (l : Locals) : Locals :=
  {| x_step := step;
     x_detailed_output := Some detailed_output;
     x_next_step := x_next_step l |}.

Definition with_next_step (next_step : Step.t) (l : Locals) : Locals :=
  {| x_step := x_step l;
     x_detailed_output := x_detailed_output l;
     x_next_step := Some next_step |}.

Definition validate_step_execution (task : Task.t) (step : Step.t) : M W unit :=
  let reasons := [] in
  let reasons :=
    append_unless (has_valid_task_status task) reasons
                  (invalid_task_status (Task.status task)) in
  let reasons :=
    append_unless (has_valid_step_status step) reasons
                  (invalid_step_status (Step.status step)) in
  (steps <- call (db_get_task_steps (base X) (Task.task_id task) (Task.organization_id task))
                (DbGetTaskSteps (Task.task_id task) (Task.organization_id task)) ;;
  let has_no_running_steps := negb (existsb is_running steps) in
  let reasons :=
    append_unless has_no_running_steps reasons
                  (another_step_is_running_for_task (Task.task_id task)) in
  let can_execute :=
    has_valid_task_status task && has_valid_step_status step && has_no_running_steps in
  if can_execute
  then ret tt
  else raise (OtherException (cannot_execute_step X reasons step)))%monad.

Definition get_task_errors (task : Task.t) : M W (list UserDefinedError) :=
  (steps <- call (db_get_task_steps (base X) (Task.task_id task) (Task.organization_id task))
                (DbGetTaskSteps (Task.task_id task) (Task.organization_id task)) ;;
  ret (extend_errors [] steps))%monad.

(** [detailed_step_output.extract_errors() or []]. *)
Definition step_errors_of (detailed_step_output : DetailedAgentStepOutput)
  : list UserDefinedError :=
  match extract_errors X detailed_step_output with
  | Some (e :: es) => e :: es
  | _ => []
  end.

(** The list [task.errors] is extended in place and handed to
    persistence; the task returned is the one persistence returns. *)
Definition update_task_errors_from_detailed_output
           (task : Task.t) (detailed_step_output : DetailedAgentStepOutput) : D W Task.t :=
  let task_errors := Task.errors task in
  let step_errors := step_errors_of detailed_step_output in
  let task_errors := task_errors ++ step_errors in
  dcall (db_update_task_errors X (Task.task_id task) (Task.organization_id task) task_errors)
        (DbUpdateTaskErrors (Task.task_id task) (Task.organization_id task) task_errors).

Definition _initialize_execution_state (task : Task.t) (step : Step.t)
           (workflow_run : option WorkflowRun)
  : D W (Step.t * BrowserState * DetailedAgentStepOutput) :=
  browser_state <-
    match workflow_run with
    | Some workflow_run =>
        engine (call (get_or_create_for_workflow_run (base X) workflow_run
                                                     (Some (Task.url task)))
                     (GetOrCreateForWorkflowRun (wr_workflow_run_id workflow_run)
                                                (Some (Task.url task))))
    | None =>
        engine (call (get_or_create_for_task (base X) task)
                     (GetOrCreateForTask (Task.task_id task)))
    end ;;
  browser_state <-
    match nonempty (video_artifact_id (browser_artifacts browser_state)) with
    | None =>
        video_data <-
          engine (call (get_video_data (base X) (Task.task_id task) browser_state)
                       (GetVideoData (Task.task_id task))) ;;
        video_artifact_id <-
          engine (new_artifact (base X) step ArtifactType.RECORDING (Data video_data)) ;;
        dcall (set_video_artifact_for_task X task video_artifact_id browser_state)
              (SetVideoArtifactForTask (Task.task_id task) video_artifact_id)
    | Some _ => dret browser_state
    end ;;
  dret (step, browser_state, empty_output).

(** [a and b] where [b] is an object or [None]. *)
Definition py_and {A : Type} (a : bool) (b : option A) : option A :=
  if a then b else None.

(** The statements after the [if] on the status of the step: [retry] and
    [next_step] are the variables of that name. *)
Definition chain (recurse : Task.t -> Step.t -> D W (option Returned))
           (task : Task.t) (step : Step.t) (detailed_output : DetailedAgentStepOutput)
           (retry : bool) (next_step : option Step.t)
  : D (W * Locals) (option Returned) :=
  match py_and retry next_step with
  | Some next_step => dlift (recurse task next_step)
  | None =>
      match py_and (execute_all_steps X) next_step with
      | Some next_step => dlift (recurse task next_step)
      | None =>
          DLOG INFO "Step executed but continuous execution is disabled." ;;
          dret (Some (step, Some detailed_output, next_step))
      end
  end.

(** The body of the [try] of [execute_step]; [recurse task next_step] is
    [self.execute_step(organization, task, next_step, api_key=api_key)]. *)
Definition execute_step_try (recurse : Task.t -> Step.t -> D W (option Returned))
           (organization : Organization) (task : Task.t) (step : Step.t)
           (api_key : option string) (workflow_run : option WorkflowRun)
           (close_browser_on_completion : bool)
  : D (W * Locals) (option Returned) :=
  dlift (engine (validate_step_execution task step)) ;;
  initial <- dlift (_initialize_execution_state task step workflow_run) ;;
  let step := fst (fst initial) in
  let browser_state := snd (fst initial) in
  set_locals (with_step step (snd initial)) ;;
  stepped <- dlift (engine (agent_step (base X) task step browser_state
                                       (Some organization))) ;;
  let step := fst stepped in
  let detailed_output := snd stepped in
  set_locals (with_step step detailed_output) ;;
  task <- dlift (update_task_errors_from_detailed_output task detailed_output) ;;
  match Step.status step with
  | StepStatus.failed =>
      maybe_next_step <- dlift (engine (handle_failed_step (base X) task step)) ;;
      match maybe_next_step with
      | Some next_step =>
          set_locals (with_next_step next_step) ;;
          chain recurse task step detailed_output true (Some next_step)
      | None =>
          dlift (engine (send_task_response (base X) task step api_key
                                            close_browser_on_completion)) ;;
          dret (Some (step, Some detailed_output, None))
      end
  | StepStatus.completed =>
      handled <- dlift (engine (handle_completed_step (base X) organization task step)) ;;
      let is_task_completed := fst (fst handled) in
      let maybe_last_step := snd (fst handled) in
      let maybe_next_step := snd handled in
      match is_task_completed, maybe_last_step with
      | Some _, Some last_step =>
          dlift (engine (send_task_response (base X) task last_step api_key
                                            close_browser_on_completion)) ;;
          dret (Some (last_step, Some detailed_output, None))
      | _, _ =>
          match maybe_next_step with
          | Some next_step =>
              set_locals (with_next_step next_step) ;;
              chain recurse task step detailed_output false (Some next_step)
          | None =>
              DLOG ERROR
                   "Step completed but task is not completed and next step is not created." ;;
              chain recurse task step detailed_output false None
          end
      end
  | _ =>
      DLOG ERROR "Unexpected step status after agent_step" ;;
      chain recurse task step detailed_output false None
  end.

(** The [except FailedToSendWebhook] clause of [execute_step]. *)
Definition execute_step_except (_ : Exn) : D (W * Locals) (option Returned) :=
  DLOG EXCEPTION "Failed to send webhook" ;;
  l <- get_locals ;;
  dret (Some (x_step l, x_detailed_output l, x_next_step l)).

(** [execute_step], its recursive calls nested at most [depth] deep: a
    call beyond that is cut off and returns [None]. *)
Fixpoint execute_step (depth : nat) (organization : Organization) (task : Task.t)
         (step : Step.t) (api_key : option string) (workflow_run : option WorkflowRun)
         (close_browser_on_completion : bool) : D W (option Returned) :=
  match depth with
  | O => dret None
  | S depth' =>
      fun w =>
        match dtry_except
                (execute_step_try
                   (fun task next_step =>
                      execute_step depth' organization task next_step api_key None true)
                   organization task step api_key workflow_run
                   close_browser_on_completion)
                isinstance_FailedToSendWebhook execute_step_except
                (w, {| x_step := step; x_detailed_output := None;
                       x_next_step := None |}) with
        | (r, s, t) => (r, fst s, t)
        end
  end.

End Steps.

End Driver.

(** ** Concrete collaborators of the driver *)

Module Trial.

Definition set_errors (errs : list UserDefinedError) (t : Task.t) : Task.t :=
  {| Task.task_id := Task.task_id t; Task.organization_id := Task.organization_id t;
     Task.workflow_run_id := Task.workflow_run_id t; Task.url := Task.url t;
     Task.title := Task.title t; Task.navigation_goal := Task.navigation_goal t;
     Task.data_extraction_goal := Task.data_extraction_goal t;
     Task.navigation_payload := Task.navigation_payload t;
     Task.extracted_information_schema := Task.extracted_information_schema t;
     Task.error_code_mapping := Task.error_code_mapping t;
     Task.proxy_location := Task.proxy_location t;
     Task.webhook_callback_url := Task.webhook_callback_url t;
     Task.status := Task.status t;
     Task.extracted_information := Task.extracted_information t;
     Task.failure_reason := Task.failure_reason t; Task.errors := errs |}.

Definition write_errors (task_id : string) (_ : option string)
           (errs : list UserDefinedError) : Mem.Db -> Res Task.t * Mem.Db :=
  Mem.db_call (fun db =>
    match Mem.update_where (fun t => (Task.task_id t =? task_id)%string)
                           (set_errors errs) (Mem.tasks db) with
    | Some (t, l) =>
        (Ok t, {| Mem.steps := Mem.steps db; Mem.tasks := l;
                  Mem.calls_left := Mem.calls_left db |})
    | None => (Raise (OtherException "task not found"), db)
    end).

Definition set_video (id : string) (bs : BrowserState) : BrowserState :=
  {| page := page bs;
     browser_context := browser_context bs;
     browser_artifacts := {| video_artifact_id := Some id;
                             traces_dir := traces_dir (browser_artifacts bs) |} |}.

(** A failed step whose output reports an error. *)
Definition blamed : Step.t :=
  Sample.step "step_0" 0 0 StepStatus.failed false
    (Some {| action_results := Some [];
             actions_and_results := Some [];
             errors := [{| error_code := "LOGIN_BLOCKED";
                           error_reasoning := "the account is locked" |}] |}).

(** The driver over the collaborators [E]; the browser manager updates
    the browser state in place. *)
Definition deps (all_steps : bool) (E : Env Mem.Db) : Driver.Deps Mem.Db :=
  {| Driver.base := E;
     Driver.execute_all_steps := all_steps;
     Driver.set_video_artifact_for_task := fun _ id bs db => (Ok (set_video id bs), db);
     Driver.db_update_task_errors := write_errors;
     Driver.extract_errors := fun d => Some (errors (Mem.to_output d));
     Driver.cannot_execute_step :=
       fun reasons step => ("Cannot execute step " ++ Step.step_id step)%string |}.

End Trial.

(** ** Validation of a step *)

(** The reasons to refuse a step, as [validate_step_execution] lists
    them. *)
Definition refusals (task : Task.t) (step : Step.t) (steps : list Step.t)
  : list Driver.Reason :=
  (if Driver.has_valid_task_status task then []
   else [Driver.invalid_task_status (Task.status task)])
  ++ (if Driver.has_valid_step_status step then []
      else [Driver.invalid_step_status (Step.status step)])
  ++ (if existsb Driver.is_running steps
      then [Driver.another_step_is_running_for_task (Task.task_id task)]
      else []).

(** ** The driver: transcripts *)

(** What a computation of the driver can call. *)
Definition demits {S A : Type} (P : Driver.Call -> Prop) (m : Driver.D S A) : Prop :=
  forall s, Forall P (Driver.calls (m s)).

(** The errors of the steps that have an output, in the order of the
    steps. *)
Definition errors_of_steps (steps : list Step.t) : list UserDefinedError :=
  flat_map (fun step => match Step.output step with
                        | Some output => errors output
                        | None => []
                        end) steps.

(** A browser obtained for a workflow run. *)
Definition is_workflow_browser (c : Driver.Call) : bool :=
  match c with
  | Driver.Engine (GetOrCreateForWorkflowRun _ _ _) => true
  | _ => false
  end.

(** A property of every list of calls of a computation of the driver. *)
Definition dpost {S A : Type} (Phi : list Driver.Call -> Prop) (m : Driver.D S A) : Prop :=
  forall s, Phi (Driver.calls (m s)).

(** The calls for the browser of a workflow run: none, or one for
    [workflow_run] and [url]. *)
Definition workflow_browser_once (workflow_run : option WorkflowRun) (url : string)
           (t : list Driver.Call) : Prop :=
  filter is_workflow_browser t = []
  \/ exists run r,
      workflow_run = Some run
      /\ filter is_workflow_browser t
         = [Driver.Engine (GetOrCreateForWorkflowRun (wr_workflow_run_id run)
                                                     (Some url) r)].

(** An event of the engine that is not such a call. *)
Definition clean (ev : Event) : Prop := is_workflow_browser (Driver.Engine ev) = false.

(** ** Webhook failures *)

(** A webhook POST among the calls of the driver. *)
Definition is_webhook_post (c : Driver.Call) : bool :=
  match c with
  | Driver.Engine ev => is_post ev
  | _ => false
  end.

(** A run of the driver that made the POST [post] returned a step, an
    output and no next step. *)
Definition returned_after_post {S : Type}
           (x : Res (option Driver.Returned) * S * list Driver.Call) (post : Event) : Prop :=
  In (Driver.Engine post) (Driver.calls x) ->
  exists step detailed_output,
    Driver.outcome x = Ok (Some (step, detailed_output, None)).

(** ** The state a step starts from *)

(** The request for the browser of a step, with its reply. *)
Definition browser_request (workflow_run : option WorkflowRun) (task : Task.t)
           (r : Res BrowserState) : Driver.Call :=
  match workflow_run with
  | Some run =>
      Driver.Engine (GetOrCreateForWorkflowRun (wr_workflow_run_id run)
                                               (Some (Task.url task)) r)
  | None => Driver.Engine (GetOrCreateForTask (Task.task_id task) r)
  end.

(** ** The errors of a task *)

Definition is_errors_write (c : Driver.Call) : bool :=
  match c with
  | Driver.DbUpdateTaskErrors _ _ _ _ => true
  | _ => false
  end.

(** Every write of the errors of the task extends the list [held]: the
    errors of the task the driver holds, which after a write that
    returned is the task that write returned. *)
Fixpoint errors_only_grow (held : list UserDefinedError) (t : list Driver.Call) : Prop :=
  match t with
  | [] => True
  | Driver.DbUpdateTaskErrors _ _ written r :: t' =>
      (exists added, written = held ++ added)
      /\ errors_only_grow match r with
                          | Ok task => Task.errors task
                          | Raise _ => held
                          end t'
  | _ :: t' => errors_only_grow held t'
  end.

(** ** One response *)

(** At most one webhook POST among the calls. *)
Definition posts_at_most_once (t : list Driver.Call) : Prop :=
  (List.length (filter is_webhook_post t) <= 1)%nat.

(** ** Basic facts *)

Lemma update_comparison_spec (getattr : string -> FieldVal) (updates : Dict) :
  forall key old new,
    In (key, (old, new)) (update_comparison getattr updates) <->
    In (key, new) updates /\ old = getattr key /\ old <> new.
Proof.
  induction updates as [|[k v] rest IH]; intros key old new; simpl.
  - tauto.
  - unfold py_ne. destruct (FieldVal_eq_dec (getattr k) v) as [Heq|Hne].
    + rewrite IH. split.
      * tauto.
      * intros [[H|H] [Hold Hdiff]]; [|tauto].
        inversion H; subst. contradiction.
    + simpl. rewrite IH. split.
      * intros [H|H]; [inversion H; subst; tauto | tauto].
      * intros [[H|H] [Hold Hdiff]]; [left; inversion H; subst; reflexivity | tauto].
Qed.

Lemma update_comparison_unchanged (getattr : string -> FieldVal) (updates : Dict) :
  (forall key new, In (key, new) updates -> getattr key = new) ->
  update_comparison getattr updates = [].
Proof.
  intros H.
  destruct (update_comparison getattr updates) as [|[key [old new]] rest] eqn:Hd; auto.
  assert (Hin : In (key, (old, new)) (update_comparison getattr updates))
    by (rewrite Hd; left; reflexivity).
  apply update_comparison_spec in Hin as (Hin & Hold & Hdiff).
  apply H in Hin. congruence.
Qed.

Lemma py_or_truthy (a : option Z) (b z : Z) :
  a = Some z -> z <> 0 -> py_or a b = z.
Proof.
  intros -> Hz. unfold py_or. destruct (Z.eqb_spec z 0); congruence.
Qed.

Lemma py_or_falsy (a : option Z) (b : Z) :
  a = None \/ a = Some 0 -> py_or a b = b.
Proof. intros [-> | ->]; reflexivity. Qed.

Ltac in_events :=
  simpl; unfold not; intros;
  repeat match goal with
         | H : _ \/ _ |- _ => destruct H
         | H : False |- _ => contradiction
         | H : @eq Event _ _ |- _ => first [discriminate H | inversion H; subst; try clear H]
         end;
  auto.

Lemma update_step_run {W : Type} (E : Env W) step st out il ri w :
  update_step E step st out il ri w =
  match step_validate_update E step st out il with
  | Some e => (Raise e, w, [])
  | None =>
      let updates := step_updates st out il ri in
      match db_update_step E (Step.task_id step) (Step.step_id step)
                           (Step.organization_id step) updates w with
      | (r, w1) =>
          (r, w1, [LogDiff "Updating step in db" (update_comparison (Step_getattr step) updates);
                   DbUpdateStep (Step.task_id step) (Step.step_id step)
                                (Step.organization_id step) updates r])
      end
  end.
Proof.
  unfold update_step. destruct (step_validate_update E step st out il); [reflexivity|].
  unfold bind, call. cbv zeta.
  destruct (db_update_step E _ _ _ _ w) as [r w1]. reflexivity.
Qed.

Lemma update_task_run {W : Type} (E : Env W) task st ei fr w :
  update_task E task st ei fr w =
  match task_validate_update E task st ei fr with
  | Some e => (Raise e, w, [])
  | None =>
      let updates := task_updates st ei fr in
      match db_update_task E (Task.task_id task) (Task.organization_id task) updates w with
      | (r, w1) =>
          (r, w1, [LogDiff "Updating task in db" (update_comparison (Task_getattr task) updates);
                   DbUpdateTask (Task.task_id task) (Task.organization_id task) updates r])
      end
  end.
Proof.
  unfold update_task. destruct (task_validate_update E task st ei fr); [reflexivity|].
  unfold bind, call. cbv zeta.
  destruct (db_update_task E _ _ _ w) as [r w1]. reflexivity.
Qed.

Lemma handle_completed_step_ceiling {W : Type} (E : Env W) organization task step w ctx w1 :
  is_goal_achieved E step = false ->
  is_terminated E step = false ->
  ensure_context E w = (Ok ctx, w1) ->
  let max_steps := effective_max_steps E (max_steps_override ctx) organization in
  let t := transcript (handle_completed_step E organization task step w) in
  (Step.order step + 1 >= max_steps ->
   (forall task_id org updates r, In (DbUpdateTask task_id org updates r) t ->
      updates = task_updates TaskStatus.failed None (Some (max_steps_reason max_steps)))
   /\ (forall task_id org o i r, ~ In (DbCreateStep task_id org o i r) t))
  /\ (Step.order step + 1 < max_steps ->
      exists r rest,
        t = EnsureContext (Ok ctx)
            :: Log INFO "Step completed, creating next step"
            :: DbCreateStep (Task.task_id task) (Task.organization_id task)
                            (Step.order step + 1) 0 r
            :: rest).
Proof.
  intros Hg Ht Hc max_steps t. subst t.
  assert (Hrun : handle_completed_step E organization task step w =
                 match (if Step.order step + 1 >=? max_steps
                        then
                          (LOG INFO "Step completed but max steps reached, marking task as failed" ;;
                           last_step <- update_step E step None None (Some true) None ;;
                           update_task E task TaskStatus.failed None
                                       (Some (max_steps_reason max_steps)) ;;
                           ret (Some false, Some last_step, None))%monad
                        else
                          (LOG INFO "Step completed, creating next step" ;;
                           next_step <- call (db_create_step E (Task.task_id task)
                                                             (Task.organization_id task)
                                                             (Step.order step + 1) 0)
                                             (DbCreateStep (Task.task_id task)
                                                           (Task.organization_id task)
                                                           (Step.order step + 1) 0) ;;
                           (if long_running_warning_due E (Step.order step) max_steps
                            then LOG INFO "Long running task warning"
                            else ret tt) ;;
                           ret (None, None, Some next_step))%monad) w1 with
                 | (r, s2, t2) => (r, s2, EnsureContext (Ok ctx) :: t2)
                 end).
  { unfold handle_completed_step. rewrite Hg, Ht.
    unfold bind at 1. unfold call at 1. rewrite Hc. reflexivity. }
  rewrite Hrun. clear Hrun.
  split.
  - intros Hge. assert (Hb : (Step.order step + 1 >=? max_steps) = true)
      by (apply Z.geb_le; lia).
    rewrite Hb.
    unfold bind, LOG, ret. rewrite update_step_run.
    destruct (step_validate_update E step None None (Some true)).
    + simpl. split; in_events.
    + cbv zeta. destruct (db_update_step E _ _ _ _ w1) as [[s|e] w2].
      * rewrite update_task_run.
        destruct (task_validate_update E task _ _ _).
        -- simpl. split; in_events.
        -- cbv zeta. destruct (db_update_task E _ _ _ w2) as [[t'|e] w3]; simpl;
             split; in_events.
      * simpl. split; in_events.
  - intros Hlt. assert (Hb : (Step.order step + 1 >=? max_steps) = false)
      by (rewrite Z.geb_leb; apply Z.leb_gt; lia).
    rewrite Hb. unfold bind, LOG, ret, call.
    destruct (db_create_step E _ _ _ _ w1) as [[s|e] w2].
    + destruct (long_running_warning_due E _ _); simpl; eauto.
    + simpl; eauto.
Qed.

(** ** Transcripts *)

Section Emits.

Context {S : Type} (P : Event -> Prop).

Lemma emits_ret {A : Type} (a : A) : emits P (ret (S := S) a).
Proof. intros s. constructor. Qed.

Lemma emits_raise {A : Type} (e : Exn) : emits P (raise (S := S) (A := A) e).
Proof. intros s. constructor. Qed.

Lemma emits_of_res {A : Type} (r : Res A) : emits P (of_res (S := S) r).
Proof. destruct r; [apply emits_ret | apply emits_raise]. Qed.

Lemma emits_LOG (level : LogLevel) (msg : string) :
  P (Log level msg) -> emits P (LOG (S := S) level msg).
Proof. intros H s. repeat constructor. exact H. Qed.

Lemma emits_call {A : Type} (oracle : S -> Res A * S) (ev : Res A -> Event) :
  (forall r, P (ev r)) -> emits P (call oracle ev).
Proof.
  intros H s. unfold call. destruct (oracle s) as [r s1].
  repeat constructor. apply H.
Qed.

Lemma emits_bind {A B : Type} (m : M S A) (f : A -> M S B) :
  emits P m -> (forall a, emits P (f a)) -> emits P (bind m f).
Proof.
  intros Hm Hf s. unfold bind. specialize (Hm s).
  destruct (m s) as [[[a|e] s1] t1]; [|exact Hm].
  specialize (Hf a s1). destruct (f a s1) as [[r s2] t2].
  unfold transcript in *. simpl in *. apply Forall_app. split; assumption.
Qed.

Lemma emits_try_except {A : Type} (m : M S A) (catches : Exn -> bool) (h : Exn -> M S A) :
  emits P m -> (forall e, emits P (h e)) -> emits P (try_except m catches h).
Proof.
  intros Hm Hh s. unfold try_except. specialize (Hm s).
  destruct (m s) as [[[a|e] s1] t1]; [exact Hm|].
  destruct (catches e); [|exact Hm].
  specialize (Hh e s1). destruct (h e s1) as [[r s2] t2].
  unfold transcript in *. simpl in *. apply Forall_app. split; assumption.
Qed.

Lemma emits_silent {A : Type} (m : M S A) :
  (forall s, transcript (m s) = []) -> emits P m.
Proof. intros H s. rewrite H. constructor. Qed.

End Emits.

Lemma emits_weaken {S A : Type} (P Q : Event -> Prop) (m : M S A) :
  (forall ev, P ev -> Q ev) -> emits P m -> emits Q m.
Proof. intros H Hm s. eapply Forall_impl; [exact H | apply Hm]. Qed.

Section Emits_agent.

Context {W : Type} (E : Env W) (P : Event -> Prop).

Lemma emits_lift {A : Type} (m : M W A) : emits P m -> emits P (lift (W := W) m).
Proof.
  intros Hm s. unfold lift. specialize (Hm (fst s)).
  destruct (m (fst s)) as [[r w] t]. exact Hm.
Qed.

Lemma emits_update_step step st out il ri :
  (forall d, P (LogDiff "Updating step in db" d)) ->
  (forall a b c d r, P (DbUpdateStep a b c d r)) ->
  emits P (update_step E step st out il ri).
Proof.
  intros Hl Hd. unfold update_step.
  destruct (step_validate_update E step st out il); [apply emits_raise|].
  apply emits_bind; [|intros _; apply emits_call; intros; apply Hd].
  intros s. repeat constructor. apply Hl.
Qed.

Lemma emits_update_task task st ei fr :
  (forall d, P (LogDiff "Updating task in db" d)) ->
  (forall a c d r, P (DbUpdateTask a c d r)) ->
  emits P (update_task E task st ei fr).
Proof.
  intros Hl Hd. unfold update_task.
  destruct (task_validate_update E task st ei fr); [apply emits_raise|].
  apply emits_bind; [|intros _; apply emits_call; intros; apply Hd].
  intros s. repeat constructor. apply Hl.
Qed.

End Emits_agent.

(** Proves [emits P m] by following the structure of [m]. *)
Ltac emits_step :=
  match goal with
  | |- emits _ (bind _ _) => apply emits_bind; [|intros ?]
  | |- emits _ (try_except _ _ _) => apply emits_try_except; [|intros ?]
  | |- emits _ (ret _) => apply emits_ret
  | |- emits _ (raise _) => apply emits_raise
  | |- emits _ (of_res _) => apply emits_of_res
  | |- emits _ (LOG _ _) => apply emits_LOG
  | |- emits _ (call _ _) => apply emits_call; intros ?
  | |- emits _ (lift _) => apply emits_lift
  | |- emits _ (new_artifact _ _ _ _) => unfold new_artifact
  | |- emits _ get_out => apply emits_silent; reflexivity
  | |- emits _ (set_out _) => apply emits_silent; reflexivity
  | |- emits _ (set_step _) => apply emits_silent; reflexivity
  | |- emits _ (match ?x with _ => _ end) => destruct x
  | |- emits _ (if ?x then _ else _) => destruct x
  end.


Lemma store_results_silent {W : Type} idx a rs :
  forall P, emits P (@store_results W idx a rs).
Proof.
  intros P. unfold store_results. repeat emits_step.
Qed.



(** ** WAIT pruning: list facts *)









(** ** Effective step ceiling *)

(** C3, counterexample: with [max_steps_override = 0] and an organization
    limit of 5, the ceiling [handle_completed_step] uses is 5, while the
    first defined of the three is 0. *)
Lemma effective_max_steps_skips_zero :
  effective_max_steps Sample.E (Some 0) (Sample.org (Some 5)) = 5
  /\ first_defined (Some 0) (Some 5) (MAX_STEPS_PER_RUN (settings Sample.E)) = 0
  /\ effective_max_steps Sample.E (Some 0) (Sample.org (Some 5))
     <> first_defined (Some 0) (Some 5) (MAX_STEPS_PER_RUN (settings Sample.E)).
Proof. repeat split; vm_compute; congruence. Qed.

(** C3, amended: the ceiling is the first of [context.max_steps_override]
    and [organization.max_steps_per_run] that is defined and not 0, and
    [settings.MAX_STEPS_PER_RUN] when neither is; where none of the first
    two is 0 it is the first defined.  [handle_completed_step] compares
    [step.order + 1] with this ceiling and reports it in the failure
    reason. *)
Theorem effective_max_steps_first_nonzero
        (W : Type) (E : Env W) (override : option Z) (organization : Organization) :
  (forall n, override = Some n -> n <> 0 ->
             effective_max_steps E override organization = n)
  /\ (forall n, override = None \/ override = Some 0 ->
                max_steps_per_run organization = Some n -> n <> 0 ->
                effective_max_steps E override organization = n)
  /\ (override = None \/ override = Some 0 ->
      max_steps_per_run organization = None \/ max_steps_per_run organization = Some 0 ->
      effective_max_steps E override organization = MAX_STEPS_PER_RUN (settings E))
  /\ (override <> Some 0 -> max_steps_per_run organization <> Some 0 ->
      effective_max_steps E override organization
      = first_defined override (max_steps_per_run organization)
                      (MAX_STEPS_PER_RUN (settings E)))
  /\ (forall task step w w1,
        is_goal_achieved E step = false ->
        is_terminated E step = false ->
        ensure_context E w = (Ok {| max_steps_override := override |}, w1) ->
        let max_steps := effective_max_steps E override organization in
        let t := transcript (handle_completed_step E organization task step w) in
        (Step.order step + 1 >= max_steps ->
         (forall task_id org updates r, In (DbUpdateTask task_id org updates r) t ->
            updates = task_updates TaskStatus.failed None
                                   (Some (max_steps_reason max_steps)))
         /\ (forall task_id org o i r, ~ In (DbCreateStep task_id org o i r) t))
        /\ (Step.order step + 1 < max_steps ->
            exists r rest,
              t = EnsureContext (Ok {| max_steps_override := override |})
                  :: Log INFO "Step completed, creating next step"
                  :: DbCreateStep (Task.task_id task) (Task.organization_id task)
                                  (Step.order step + 1) 0 r
                  :: rest)).
Proof.
  split; [|split; [|split; [|split]]].
  - intros n Ho Hn. now apply py_or_truthy.
  - intros n Ho Hm Hn. unfold effective_max_steps.
    rewrite (py_or_falsy override) by assumption.
    now apply py_or_truthy.
  - intros Ho Hm. unfold effective_max_steps. now rewrite !py_or_falsy.
  - intros Ho Hm. unfold effective_max_steps. destruct override as [n|]; simpl.
    + destruct (Z.eqb_spec n 0); congruence.
    + destruct (max_steps_per_run organization) as [n|]; simpl; auto.
      destruct (Z.eqb_spec n 0); congruence.
  - intros task step w w1 Hg Ht Hc.
    exact (handle_completed_step_ceiling E organization task step w _ w1 Hg Ht Hc).
Qed.

(** C3, witness: an override of 0 and an organization limit of 5. *)
Lemma effective_max_steps_first_nonzero_witness :
  effective_max_steps Sample.E (Some 0) (Sample.org (Some 5)) = 5.
Proof.
  destruct (effective_max_steps_first_nonzero
              Mem.Db Sample.E (Some 0) (Sample.org (Some 5))) as (_ & H & _).
  apply H; [right; reflexivity | reflexivity | lia].
Defined.

(** ** WAIT pruning *)











(** ** StepRecorder *)

(** C7, counterexample: marking as last a completed step that is already
    the last one logs an empty diff, and still hands [is_last] to
    persistence with its unchanged value. *)
Lemma update_step_writes_unchanged_field :
  let step := Sample.step "step_0" 0 0 StepStatus.completed true None in
  let x := update_step Sample.E step None None (Some true) None
                       (Sample.db [step] Sample.task0 None) in
  transcript x
  = [LogDiff "Updating step in db" [];
     DbUpdateStep "task_0" "step_0" (Some "org_1") [("is_last", VBool true)] (Ok step)]
  /\ ~ writes_only_changes step (transcript x).
Proof.
  split.
  - reflexivity.
  - intros H.
    apply (H "task_0" "step_0" (Some "org_1") [("is_last", VBool true)]
             (Ok (Sample.step "step_0" 0 0 StepStatus.completed true None))
             "is_last" (VBool true)).
    + right. left. reflexivity.
    + left. reflexivity.
    + reflexivity.
Qed.

(** C7, amended: when the update is valid, [update_step] logs one diff and
    issues one [DATABASE.update_step].  The diff maps exactly the provided
    fields whose value differs from the step's current one to their old
    and new value; it is empty when no provided field changes.  The call
    to persistence carries every provided field, changed or not. *)
Theorem update_step_diff_and_write
        (W : Type) (E : Env W) (step : Step.t) (status : option StepStatus.t)
        (output : option AgentStepOutput) (is_last : option bool)
        (retry_index : option Z) (w : W) :
  step_validate_update E step status output is_last = None ->
  exists diff updates reply,
    transcript (update_step E step status output is_last retry_index w)
    = [LogDiff "Updating step in db" diff;
       DbUpdateStep (Step.task_id step) (Step.step_id step) (Step.organization_id step)
                    updates reply]
    /\ result (update_step E step status output is_last retry_index w) = reply
    /\ (forall key old new,
          In (key, (old, new)) diff <->
          In (key, new) updates /\ old = Step_getattr step key /\ old <> new)
    /\ ((forall key new, In (key, new) updates -> Step_getattr step key = new) ->
        diff = [])
    /\ assoc updates "status" = option_map VStepStatus status
    /\ assoc updates "output" = option_map (fun o => VOutput (Some o)) output
    /\ assoc updates "is_last" = option_map VBool is_last
    /\ assoc updates "retry_index" = option_map VInt retry_index
    /\ (forall key, In key (dict_keys updates) ->
                    In key ["status"; "output"; "is_last"; "retry_index"]).
Proof.
  intros Hvalid.
  rewrite update_step_run, Hvalid. cbv zeta.
  destruct (db_update_step E _ _ _ _ w) as [r w1].
  exists (update_comparison (Step_getattr step)
                            (step_updates status output is_last retry_index)),
         (step_updates status output is_last retry_index), r.
  split; [reflexivity|]. split; [reflexivity|].
  split; [apply update_comparison_spec|].
  split; [apply update_comparison_unchanged|].
  destruct status, output, is_last, retry_index; cbn;
    repeat split; intros key Hk; tauto.
Qed.

(** C7, witness: marking a created step running. *)
Lemma update_step_diff_and_write_witness :
  exists diff updates reply,
    transcript (update_step Sample.E Sample.step0 (Some StepStatus.running) None None None
                            Sample.db0)
    = [LogDiff "Updating step in db" diff;
       DbUpdateStep "task_0" "step_0" (Some "org_1") updates reply]
    /\ diff = [("status", (VStepStatus StepStatus.created, VStepStatus StepStatus.running))]
    /\ updates = [("status", VStepStatus StepStatus.running)].
Proof.
  destruct (update_step_diff_and_write
              Mem.Db Sample.E Sample.step0 (Some StepStatus.running) None None None
              Sample.db0 eq_refl)
    as (diff & updates & reply & Ht & _).
  exists diff, updates, reply. split; [exact Ht|].
  vm_compute in Ht. inversion Ht. split; reflexivity.
Defined.

(** ** Retry policy *)

(** C5: below [MAX_RETRIES_PER_STEP], [handle_failed_step] asks persistence
    for a step of the same order and [retry_index + 1] and returns it;
    otherwise it updates the task to [failed] with the failure reason
    "Max retries per step (N) exceeded", N being [MAX_RETRIES_PER_STEP]
    in decimal, creates no step, and returns [None]. *)
Theorem handle_failed_step_retries_or_fails
        (W : Type) (E : Env W) (task : Task.t) (step : Step.t) (w : W) :
  let x := handle_failed_step E task step w in
  (Step.retry_index step < MAX_RETRIES_PER_STEP (settings E) ->
   exists reply,
     transcript x
     = [Log WARNING "Step failed, retrying";
        DbCreateStep (Task.task_id task) (Task.organization_id task)
                     (Step.order step) (Step.retry_index step + 1) reply]
     /\ result x = match reply with
                   | Ok next_step => Ok (Some next_step)
                   | Raise e => Raise e
                   end
     /\ ((forall task_id org o i w0 s w1,
            db_create_step E task_id org o i w0 = (Ok s, w1) ->
            Step.order s = o /\ Step.retry_index s = i) ->
         forall v, result x = Ok v ->
                   exists next_step,
                     v = Some next_step
                     /\ Step.order next_step = Step.order step
                     /\ Step.retry_index next_step = Step.retry_index step + 1))
  /\ (Step.retry_index step >= MAX_RETRIES_PER_STEP (settings E) ->
      let updates :=
        [("status", VTaskStatus TaskStatus.failed);
         ("failure_reason",
          VStr (Some ("Max retries per step ("
                        ++ str_of_int (MAX_RETRIES_PER_STEP (settings E))
                        ++ ") exceeded")%string))] in
      (forall task_id org u r, In (DbUpdateTask task_id org u r) (transcript x) ->
                               u = updates)
      /\ (forall task_id org o i r, ~ In (DbCreateStep task_id org o i r) (transcript x))
      /\ (forall v, result x = Ok v ->
                    v = None
                    /\ exists diff updated,
                        transcript x
                        = [Log WARNING "Step failed after max retries, marking task as failed";
                           LogDiff "Updating task in db" diff;
                           DbUpdateTask (Task.task_id task) (Task.organization_id task)
                                        updates (Ok updated)])).
Proof.
  intros x. subst x. unfold handle_failed_step. split.
  - intros Hlt.
    assert (Hb : (Step.retry_index step >=? MAX_RETRIES_PER_STEP (settings E)) = false)
      by (rewrite Z.geb_leb; apply Z.leb_gt; lia).
    rewrite Hb. unfold bind, LOG, call, ret.
    destruct (db_create_step E (Task.task_id task) (Task.organization_id task)
                             (Step.order step) (Step.retry_index step + 1) w)
      as [[s|e] w1] eqn:Hdb; simpl.
    + exists (Ok s). repeat split. intros Hcontract v Hv.
      inversion Hv; subst. exists s. split; [reflexivity|].
      exact (Hcontract _ _ _ _ _ _ _ Hdb).
    + exists (Raise e). repeat split. intros _ v Hv. discriminate.
  - intros Hge.
    assert (Hb : (Step.retry_index step >=? MAX_RETRIES_PER_STEP (settings E)) = true)
      by (apply Z.geb_le; lia).
    rewrite Hb. unfold bind, LOG, ret. rewrite update_task_run.
    destruct (task_validate_update E task TaskStatus.failed None
                                   (Some (max_retries_reason E))).
    + cbn. repeat split; in_events; discriminate.
    + cbv zeta.
      destruct (db_update_task E (Task.task_id task) (Task.organization_id task)
                               (task_updates TaskStatus.failed None
                                             (Some (max_retries_reason E))) w)
        as [[t'|e] w1]; cbn; repeat split; in_events; try discriminate; eauto;
        congruence.
Qed.

(** C5, witness: a first failure is retried, a failure at retry 2 with
    [MAX_RETRIES_PER_STEP = 2] is not. *)
Lemma handle_failed_step_retries_or_fails_witness :
  (exists next_step,
     result (handle_failed_step Sample.E Sample.task0 Sample.step0 Sample.db0)
     = Ok (Some next_step)
     /\ Step.order next_step = 0 /\ Step.retry_index next_step = 1)
  /\ result (handle_failed_step
               Sample.E Sample.task0
               (Sample.step "step_2" 0 2 StepStatus.failed false None) Sample.db0)
     = Ok None.
Proof.
  split.
  - destruct (handle_failed_step_retries_or_fails
                Mem.Db Sample.E Sample.task0 Sample.step0 Sample.db0) as [H _].
    destruct H as (reply & _ & _ & H); [vm_compute; reflexivity|].
    destruct (H (fun task_id org o i w0 s w1 Hc =>
                   ltac:(unfold Sample.E, Mem.env, db_create_step, Mem.create_step,
                           Mem.db_call in Hc;
                         destruct (Mem.calls_left w0) as [[|n]|];
                         inversion Hc; split; reflexivity))
                (Some (Sample.step "step_1" 0 1 StepStatus.created false None))
                eq_refl)
      as (next_step & Hv & Ho & Hr).
    exists next_step. inversion Hv; subst. repeat split.
  - destruct (handle_failed_step_retries_or_fails
                Mem.Db Sample.E Sample.task0
                (Sample.step "step_2" 0 2 StepStatus.failed false None) Sample.db0)
      as [_ H].
    destruct H as (_ & _ & H); [vm_compute; discriminate|].
    destruct (H None eq_refl) as [_ _]. reflexivity.
Defined.

(** ** Action history of the prompt *)

Lemma extend_action_results_concat (ws : list Step.t) :
  forall acc, extend_action_results acc ws = acc ++ List.concat (map step_results ws).
Proof.
  induction ws as [|s ws IH]; intros acc; simpl.
  - now rewrite app_nil_r.
  - unfold step_results at 1.
    destruct (Step.output s) as [o|]; [|apply IH].
    destruct (action_results o) as [[|r rs]|]; rewrite IH; simpl; auto.
    now rewrite <- app_assoc.
Qed.

Lemma py_slice_from_last {A : Type} (n : Z) (l : list A) :
  0 < n -> py_slice_from (- n) l = lastn (Z.to_nat n) l.
Proof.
  intros Hn. unfold py_slice_from, lastn.
  assert (H : (- n <? 0) = true) by (apply Z.ltb_lt; lia).
  rewrite H. f_equal. lia.
Qed.

Lemma py_slice_from_zero {A : Type} (l : list A) : py_slice_from 0 l = l.
Proof.
  unfold py_slice_from. simpl.
  replace (Z.to_nat (Z.min 0 (Z.of_nat (List.length l)))) with 0%nat by lia.
  reflexivity.
Qed.

Lemma action_history_window {W : Type} (E : Env W) (steps : list Step.t) :
  0 < PROMPT_ACTION_HISTORY_WINDOW (settings E) ->
  action_history E steps
  = List.concat (map step_results
                     (lastn (Z.to_nat (PROMPT_ACTION_HISTORY_WINDOW (settings E))) steps)).
Proof.
  intros Hw. unfold action_history.
  replace (-1 * PROMPT_ACTION_HISTORY_WINDOW (settings E))
    with (- PROMPT_ACTION_HISTORY_WINDOW (settings E)) by lia.
  rewrite py_slice_from_last by assumption.
  now rewrite extend_action_results_concat.
Qed.

Lemma action_history_window_zero {W : Type} (E : Env W) (steps : list Step.t) :
  PROMPT_ACTION_HISTORY_WINDOW (settings E) = 0 ->
  action_history E steps = List.concat (map step_results steps).
Proof.
  intros Hw. unfold action_history. rewrite Hw. simpl.
  now rewrite py_slice_from_zero, extend_action_results_concat.
Qed.

Ltac run_calls :=
  repeat match goal with
         | |- context [let (_, _) := ?x in _] =>
             match type of x with
             | (Res _ * _)%type => destruct x as [[?|?] ?]
             end
         end.

Lemma build_prompt_history {W : Type} (E : Env W) task step bs w :
  forall template vars r,
    In (LoadPrompt template vars r)
       (transcript (_build_and_record_step_prompt E task step bs w)) ->
    exists steps,
      In (DbGetTaskSteps (Task.task_id task) (Task.organization_id task) (Ok steps))
         (transcript (_build_and_record_step_prompt E task step bs w))
      /\ p_action_history vars = dumps_action_results E (action_history E steps).
Proof.
  intros template vars r.
  unfold _build_and_record_step_prompt, new_artifact, bind, call, LOG, ret.
  run_calls; in_events.
  all: eexists; split; [simpl; eauto 12 | reflexivity].
Qed.

(** C9, counterexample: with a window of 2 and two finished steps before
    the running one, the history inlined into the prompt holds the results
    of the last finished step only, the running step taking the other
    place of the window; the last two prior steps have two results. *)
Lemma action_history_counts_current_step :
  action_history Sample.E Sample.history = [Sample.outcome true None]
  /\ prior_action_history (PROMPT_ACTION_HISTORY_WINDOW (settings Sample.E))
                          Sample.current Sample.history
     = [Sample.outcome false None; Sample.outcome true None]
  /\ (forall template vars r,
        In (LoadPrompt template vars r)
           (transcript (_build_and_record_step_prompt
                          Sample.E Sample.task0 Sample.current Sample.browser
                          (Sample.db Sample.history Sample.task0 None))) ->
        p_action_history vars
        <> dumps_action_results
             Sample.E
             (prior_action_history (PROMPT_ACTION_HISTORY_WINDOW (settings Sample.E))
                                   Sample.current Sample.history)).
Proof.
  split; [reflexivity|]. split; [reflexivity|].
  intros template vars r H. vm_compute in H.
  in_events. vm_compute. discriminate.
Qed.

(** C9, amended: with a window greater than 0, the action history inlined
    into a prompt is the serialization of the results, flattened in step
    order, of the last [PROMPT_ACTION_HISTORY_WINDOW] steps that
    [DATABASE.get_task_steps] returns for the task; the step being
    executed is one of them when persistence lists it. *)
Theorem prompt_history_is_window
        (W : Type) (E : Env W) (task : Task.t) (step : Step.t) (bs : BrowserState) (w : W) :
  0 < PROMPT_ACTION_HISTORY_WINDOW (settings E) ->
  forall template vars r,
    In (LoadPrompt template vars r)
       (transcript (_build_and_record_step_prompt E task step bs w)) ->
    exists steps,
      In (DbGetTaskSteps (Task.task_id task) (Task.organization_id task) (Ok steps))
         (transcript (_build_and_record_step_prompt E task step bs w))
      /\ p_action_history vars
         = dumps_action_results
             E (List.concat
                  (map step_results
                       (lastn (Z.to_nat (PROMPT_ACTION_HISTORY_WINDOW (settings E)))
                              steps))).
Proof.
  intros Hw template vars r Hin.
  destruct (build_prompt_history E task step bs w template vars r Hin)
    as (steps & Hsteps & Hvars).
  exists steps. split; [exact Hsteps|].
  rewrite Hvars. now rewrite action_history_window.
Qed.

(** C9, witness: the prompt built for the third step of a task. *)
Lemma prompt_history_is_window_witness :
  exists vars r,
    In (LoadPrompt "extract-action" vars r)
       (transcript (_build_and_record_step_prompt
                      Sample.E Sample.task0 Sample.current Sample.browser
                      (Sample.db Sample.history Sample.task0 None)))
    /\ p_action_history vars = "ok".
Proof.
  pose (vars := {| p_navigation_goal := Some "click login";
                   p_navigation_payload_str := "{}";
                   p_url := "https://x";
                   p_elements := "[]";
                   p_data_extraction_goal := None;
                   p_action_history := "ok";
                   p_error_code_mapping_str := None;
                   p_utc_datetime := 1700000000 |}).
  exists vars, (Ok "ok").
  assert (Hin : In (LoadPrompt "extract-action" vars (Ok "ok"))
                   (transcript (_build_and_record_step_prompt
                                  Sample.E Sample.task0 Sample.current Sample.browser
                                  (Sample.db Sample.history Sample.task0 None)))).
  { vm_compute. do 5 right. left. reflexivity. }
  split; [exact Hin|].
  destruct (prompt_history_is_window
              Mem.Db Sample.E Sample.task0 Sample.current Sample.browser
              (Sample.db Sample.history Sample.task0 None)
              ltac:(vm_compute; reflexivity) "extract-action" vars (Ok "ok") Hin)
    as (steps & _ & Hvars).
  reflexivity.
Defined.

(** ** Extracted information *)

Lemma hd_error_app {A : Type} (l1 l2 : list A) :
  hd_error (l1 ++ l2) = match hd_error l1 with
                        | Some x => Some x
                        | None => hd_error l2
                        end.
Proof. destruct l1; reflexivity. Qed.

Lemma first_successful_data_hd (rs : list ActionResult) :
  first_successful_data rs = hd_error (map data (filter success rs)).
Proof.
  induction rs as [|r rs IH]; simpl; auto.
  destruct (success r); simpl; auto.
Qed.

Lemma complete_data_in_hd (ars : list (Action * list ActionResult)) :
  complete_data_in ars
  = hd_error (flat_map
                (fun ar =>
                   if ActionType.eqb (action_type (fst ar)) ActionType.COMPLETE
                   then map data (filter success (snd ar))
                   else [])
                ars).
Proof.
  induction ars as [|[a rs] ars IH]; simpl; auto.
  destruct (ActionType.eqb (action_type a) ActionType.COMPLETE); simpl; auto.
  rewrite hd_error_app, <- first_successful_data_hd.
  destruct (first_successful_data rs); auto.
Qed.

Lemma extracted_information_in_hd (l : list Step.t) :
  extracted_information_in l
  = hd_error (flat_map successful_complete_data (filter scanned l)).
Proof.
  induction l as [|s l IH]; simpl; auto.
  unfold scanned at 1.
  destruct (is_completed s); simpl; auto.
  destruct (Step.output s) as [o|] eqn:Ho; simpl; auto.
  destruct (actions_and_results o) as [[|ar ars]|] eqn:Hars;
    [simpl; auto | | simpl; auto].
  cbn [truthy_list flat_map].
  match goal with
  | |- match ?c with Some _ => _ | None => _ end = _ =>
      change c with (complete_data_in (ar :: ars))
  end.
  rewrite hd_error_app. unfold successful_complete_data at 1.
  rewrite Ho, Hars, <- complete_data_in_hd, <- IH.
  destruct (complete_data_in (ar :: ars)); auto.
Qed.

Lemma get_extracted_information_result {W : Type} (E : Env W) task w steps w1 :
  db_get_task_steps E (Task.task_id task) (Task.organization_id task) w = (Ok steps, w1) ->
  exists level msg,
    get_extracted_information_for_task E task w
    = (Ok (most_recent_complete_data steps), w1,
       [DbGetTaskSteps (Task.task_id task) (Task.organization_id task) (Ok steps);
        Log level msg]).
Proof.
  intros Hdb. unfold get_extracted_information_for_task, bind, call. rewrite Hdb.
  rewrite extracted_information_in_hd. unfold most_recent_complete_data.
  destruct (flat_map successful_complete_data (filter scanned (List.rev steps)));
    simpl; eauto.
Qed.

Lemma most_recent_complete_data_found (pre post : list Step.t) (s : Step.t) d ds :
  scanned s = true ->
  successful_complete_data s = d :: ds ->
  (forall s', In s' post -> scanned s' = false \/ successful_complete_data s' = []) ->
  most_recent_complete_data (pre ++ s :: post) = d.
Proof.
  intros Hs Hd Hpost. unfold most_recent_complete_data.
  rewrite rev_app_distr. simpl. rewrite <- app_assoc. simpl.
  rewrite filter_app, flat_map_app.
  assert (Hnil : flat_map successful_complete_data (filter scanned (List.rev post)) = []).
  { assert (H : forall s', In s' (List.rev post) ->
                           scanned s' = false \/ successful_complete_data s' = [])
      by (intros s' Hin; apply Hpost; now apply in_rev).
    induction (List.rev post) as [|x l IH]; simpl; auto.
    destruct (H x (or_introl eq_refl)) as [Hx|Hx].
    - rewrite Hx. apply IH. intros; apply H; now right.
    - destruct (scanned x); simpl.
      + rewrite Hx. apply IH. intros; apply H; now right.
      + apply IH. intros; apply H; now right. }
  rewrite Hnil. simpl. rewrite Hs. simpl. rewrite Hd. reflexivity.
Qed.

Lemma most_recent_complete_data_none (steps : list Step.t) :
  (forall s, In s steps -> scanned s = false \/ successful_complete_data s = []) ->
  most_recent_complete_data steps = None.
Proof.
  intros Hall. unfold most_recent_complete_data.
  assert (H : forall s, In s (List.rev steps) ->
                        scanned s = false \/ successful_complete_data s = [])
    by (intros s Hin; apply Hall; now apply in_rev).
  induction (List.rev steps) as [|x l IH]; simpl; auto.
  destruct (H x (or_introl eq_refl)) as [Hx|Hx].
  - rewrite Hx. apply IH. intros; apply H; now right.
  - destruct (scanned x); simpl.
    + rewrite Hx. apply IH. intros; apply H; now right.
    + apply IH. intros; apply H; now right.
Qed.

Lemma handle_completed_step_goal {W : Type} (E : Env W) organization task step w :
  is_goal_achieved E step = true ->
  forall task_id org updates r,
    In (DbUpdateTask task_id org updates r)
       (transcript (handle_completed_step E organization task step w)) ->
    exists steps,
      In (DbGetTaskSteps (Task.task_id task) (Task.organization_id task) (Ok steps))
         (transcript (handle_completed_step E organization task step w))
      /\ updates = task_updates TaskStatus.completed (most_recent_complete_data steps) None.
Proof.
  intros Hg task_id org updates r.
  remember (handle_completed_step E organization task step w) as x eqn:Hx.
  unfold handle_completed_step in Hx. rewrite Hg in Hx.
  unfold bind at 1 2 in Hx. unfold LOG at 1 in Hx. rewrite update_step_run in Hx.
  destruct (step_validate_update E step None None (Some true)); [subst x; in_events|].
  cbv zeta in Hx.
  destruct (db_update_step E _ _ _ _ w) as [[last_step|e] w1]; [|subst x; in_events].
  unfold bind at 1 in Hx.
  destruct (db_get_task_steps E (Task.task_id task) (Task.organization_id task) w1)
    as [[steps|e] w2] eqn:Hdb.
  - destruct (get_extracted_information_result E task w1 steps w2 Hdb)
      as (level & msg & Hget).
    rewrite Hget in Hx. unfold bind in Hx. rewrite update_task_run in Hx.
    destruct (task_validate_update E task _ _ _); [subst x; in_events|].
    cbv zeta in Hx. destruct (db_update_task E _ _ _ w2) as [[t'|e] w3];
      subst x; in_events; exists steps; split; simpl; auto 10.
  - unfold get_extracted_information_for_task, bind, call in Hx. rewrite Hdb in Hx.
    subst x. in_events.
Qed.

Lemma handle_completed_step_goal_run {W : Type} (E : Env W) organization task step w r :
  is_goal_achieved E step = true ->
  result (handle_completed_step E organization task step w) = Ok r ->
  exists last_step steps found diff1 diff2 stored,
    r = (Some true, Some last_step, None)
    /\ transcript (handle_completed_step E organization task step w)
       = [Log INFO "Step completed and goal achieved, marking task as completed";
          LogDiff "Updating step in db" diff1;
          DbUpdateStep (Step.task_id step) (Step.step_id step) (Step.organization_id step)
                       (step_updates None None (Some true) None) (Ok last_step);
          DbGetTaskSteps (Task.task_id task) (Task.organization_id task) (Ok steps);
          found;
          LogDiff "Updating task in db" diff2;
          DbUpdateTask (Task.task_id task) (Task.organization_id task)
                       (task_updates TaskStatus.completed (most_recent_complete_data steps)
                                     None)
                       (Ok stored)].
Proof.
  intros Hg.
  remember (handle_completed_step E organization task step w) as x eqn:Hx.
  unfold handle_completed_step in Hx. rewrite Hg in Hx.
  unfold bind at 1 2 in Hx. unfold LOG at 1 in Hx. rewrite update_step_run in Hx.
  destruct (step_validate_update E step None None (Some true)); [subst x; discriminate|].
  cbv zeta in Hx.
  destruct (db_update_step E _ _ _ _ w) as [[last_step|e] w1]; [|subst x; discriminate].
  unfold bind at 1 in Hx.
  destruct (db_get_task_steps E (Task.task_id task) (Task.organization_id task) w1)
    as [[steps|e] w2] eqn:Hdb.
  - destruct (get_extracted_information_result E task w1 steps w2 Hdb)
      as (level & msg & Hget).
    rewrite Hget in Hx. unfold bind in Hx. rewrite update_task_run in Hx.
    destruct (task_validate_update E task _ _ _); [subst x; discriminate|].
    cbv zeta in Hx. destruct (db_update_task E _ _ _ w2) as [[stored|e] w3];
      subst x; [|discriminate].
    intros Hr. cbn in Hr. inversion Hr; subst r.
    exists last_step, steps, (Log level msg). do 3 eexists. split; reflexivity.
  - unfold get_extracted_information_for_task, bind, call in Hx. rewrite Hdb in Hx.
    subst x. discriminate.
Qed.

(** C8: a goal-achieved step that [handle_completed_step] handles to the
    end completes the task: the run is the log, the step update, the read
    of the task's steps, the log of the scan and one write to the task,
    replied to normally, whose fields are the status completed and the
    extracted information.  That information is the data of the most
    recent successful COMPLETE action: over the steps in reverse order,
    skipping those not completed or without [actions_and_results], the
    data of the first successful result of a COMPLETE action of the first
    step that has one, and [None] when no step has one (a [None] is not
    written).  On every path a write to the task carries exactly these
    fields. *)
Theorem extracted_information_is_most_recent_complete
        (W : Type) (E : Env W) (organization : Organization) (task : Task.t)
        (step : Step.t) (w : W) :
  is_goal_achieved E step = true ->
  (forall r,
     result (handle_completed_step E organization task step w) = Ok r ->
     exists last_step steps found diff1 diff2 stored,
       r = (Some true, Some last_step, None)
       /\ transcript (handle_completed_step E organization task step w)
          = [Log INFO "Step completed and goal achieved, marking task as completed";
             LogDiff "Updating step in db" diff1;
             DbUpdateStep (Step.task_id step) (Step.step_id step)
                          (Step.organization_id step)
                          (step_updates None None (Some true) None) (Ok last_step);
             DbGetTaskSteps (Task.task_id task) (Task.organization_id task) (Ok steps);
             found;
             LogDiff "Updating task in db" diff2;
             DbUpdateTask (Task.task_id task) (Task.organization_id task)
                          (task_updates TaskStatus.completed
                                        (most_recent_complete_data steps) None)
                          (Ok stored)])
  /\ (forall task_id org updates r,
     In (DbUpdateTask task_id org updates r)
        (transcript (handle_completed_step E organization task step w)) ->
     exists steps,
       In (DbGetTaskSteps (Task.task_id task) (Task.organization_id task) (Ok steps))
          (transcript (handle_completed_step E organization task step w))
       /\ updates = task_updates TaskStatus.completed (most_recent_complete_data steps) None
       /\ assoc updates "status" = Some (VTaskStatus TaskStatus.completed)
       /\ assoc updates "extracted_information"
          = option_map (fun d => VJson (Some d)) (most_recent_complete_data steps))
  /\ (forall w0 steps w1,
        db_get_task_steps E (Task.task_id task) (Task.organization_id task) w0
        = (Ok steps, w1) ->
        result (get_extracted_information_for_task E task w0)
        = Ok (most_recent_complete_data steps))
  /\ (forall pre s post d ds,
        scanned s = true ->
        successful_complete_data s = d :: ds ->
        (forall s', In s' post -> scanned s' = false \/ successful_complete_data s' = []) ->
        most_recent_complete_data (pre ++ s :: post) = d)
  /\ (forall steps,
        (forall s, In s steps -> scanned s = false \/ successful_complete_data s = []) ->
        most_recent_complete_data steps = None).
Proof.
  intros Hg. split; [|split; [|split; [|split]]].
  - intros r Hr. exact (handle_completed_step_goal_run E organization task step w r Hg Hr).
  - intros task_id org updates r Hin.
    destruct (handle_completed_step_goal E organization task step w Hg
                                         task_id org updates r Hin)
      as (steps & Hsteps & ->).
    exists steps. split; [exact Hsteps|]. split; [reflexivity|].
    destruct (most_recent_complete_data steps); split; reflexivity.
  - intros w0 steps w1 Hdb.
    destruct (get_extracted_information_result E task w0 steps w1 Hdb)
      as (level & msg & ->).
    reflexivity.
  - intros pre s post d ds. apply most_recent_complete_data_found.
  - apply most_recent_complete_data_none.
Qed.

(** C8, witness: after a click step, a step whose COMPLETE action succeeded
    with data is handled: the task is written with that data. *)
Lemma extracted_information_is_most_recent_complete_witness :
  exists stored,
    In (DbUpdateTask "task_0" (Some "org_1")
                     [("status", VTaskStatus TaskStatus.completed);
                      ("extracted_information", VJson (Some Sample.alice))]
                     (Ok stored))
       (transcript (handle_completed_step
                      Sample.E (Sample.org None) Sample.task0 Sample.done
                      (Sample.db [Sample.clicked; Sample.done] Sample.task0 None))).
Proof.
  destruct (extracted_information_is_most_recent_complete
              Mem.Db Sample.E (Sample.org None) Sample.task0 Sample.done
              (Sample.db [Sample.clicked; Sample.done] Sample.task0 None) eq_refl)
    as (Hrun & _).
  destruct (Hrun _ eq_refl)
    as (last_step & steps & found & diff1 & diff2 & stored & _ & Ht).
  pose proof Ht as Hrun'. vm_compute in Hrun'. inversion Hrun'; subst.
  rewrite Ht. eexists. do 6 right. left. reflexivity.
Defined.

(** ** Responder *)

(** Case analysis on the replies met along a run stated in [H]. *)
Ltac run_in H :=
  repeat (cbn beta iota zeta in H;
          match type of H with
          | context [let (_, _) := ?x in _] =>
              match type of x with
              | (Res _ * _)%type => destruct x as [[?|?] ?]
              end
          | context [match ?x with Some _ => _ | None => _ end] => destruct x eqn:?
          | context [if ?x then _ else _] => destruct x eqn:?
          end).

Lemma webhook_post_outcome {W : Type} (E : Env W) task last_step api_key w :
  forall url payload headers reply,
    In (RequestsPost url payload headers reply)
       (transcript (execute_task_webhook E task last_step api_key w)) ->
    match reply with
    | Ok resp =>
        if ok resp
        then result (execute_task_webhook E task last_step api_key w) = Ok tt
        else
          match json resp with
          | Some _ => result (execute_task_webhook E task last_step api_key w) = Ok tt
          | None =>
              exists task_id,
                result (execute_task_webhook E task last_step api_key w)
                = Raise (RaiseFrom (FailedToSendWebhook task_id) JSONDecodeError)
          end
    | Raise e =>
        if isinstance_Exception e
        then exists task_id,
            result (execute_task_webhook E task last_step api_key w)
            = Raise (RaiseFrom (FailedToSendWebhook task_id) e)
        else result (execute_task_webhook E task last_step api_key w) = Raise e
    end.
Proof.
  intros url payload headers reply.
  remember (execute_task_webhook E task last_step api_key w) as x eqn:Hx.
  unfold execute_task_webhook, bind, call, LOG, ret, raise, try_except in Hx.
  run_in Hx; subst x; in_events;
    repeat match goal with
           | H : ?a = _ |- context [?a] => rewrite H
           end; cbn; eauto; try (cbn in *; discriminate).
Qed.

Lemma send_task_response_workflow {W : Type} (E : Env W) task last_step api_key close w :
  (forall refreshed w1,
     db_get_task E (Task.task_id task) (Task.organization_id task) w
     = (Ok (Some refreshed), w1) ->
     truthy_str (Task.workflow_run_id refreshed) = true) ->
  Forall (fun ev => before_cleanup ev = true)
         (transcript (send_task_response E task last_step api_key close w)).
Proof.
  intros Hwr.
  remember (send_task_response E task last_step api_key close w) as x eqn:Hx.
  unfold send_task_response, new_artifact, bind, call, LOG, ret, raise, try_except in Hx.
  destruct (db_get_task E (Task.task_id task) (Task.organization_id task) w)
    as [[[refreshed|]|e] w1] eqn:Hdb.
  - specialize (Hwr refreshed w1 eq_refl).
    cbn beta iota zeta in Hx. rewrite Hwr in Hx.
    run_in Hx; subst x; repeat constructor.
  - run_in Hx; subst x; repeat constructor.
  - run_in Hx; subst x; repeat constructor.
Qed.

Lemma resolve_parameters_emits {W : Type} (E : Env W) (P : Event -> Prop) :
  (forall key r, P (GetValue key r)) ->
  forall keys payload, emits P (resolve_parameters E payload keys).
Proof.
  intros HP. induction keys as [|key rest IH]; intros payload; simpl.
  - apply emits_ret.
  - apply emits_bind; [apply emits_call; intros; apply HP | intros v; apply IH].
Qed.

Lemma create_task_from_block_emits {W : Type} (E : Env W) task_block workflow workflow_run
      task_order task_retry :
  emits (creates_workflow_task workflow_run)
        (create_task_and_step_from_block E task_block workflow workflow_run
                                         task_order task_retry).
Proof.
  unfold create_task_and_step_from_block.
  apply emits_bind.
  { apply resolve_parameters_emits. intros key r req r' H. discriminate. }
  intros payload.
  repeat emits_step; intros req r' H; try discriminate.
  all: inversion H; subst; split; reflexivity.
Qed.

Lemma truthy_nonempty (id : string) : id <> "" -> truthy_str (Some id) = true.
Proof.
  intros H. simpl. destruct (String.eqb_spec id ""); [contradiction | reflexivity].
Qed.

(** C6, failing input: the webhook endpoint answers 500 with the body
    "Internal Server Error".  The POST is made, [resp.json()] raises while
    the arguments of the log call are evaluated, nothing is logged, and
    [execute_task_webhook] raises [FailedToSendWebhook]. *)
Lemma webhook_non_ok_response_raises :
  let x := execute_task_webhook Sample.E Sample.task0 Sample.step0 (Some "key") Sample.db0 in
  result x = Raise (RaiseFrom (FailedToSendWebhook "task_0") JSONDecodeError)
  /\ In (RequestsPost "https://hook" "task_0"
                      (webhook_headers "1700000000" "task_0key") (Ok Sample.server_error))
        (transcript x)
  /\ ~ In (Log INFO "Webhook failed") (transcript x).
Proof.
  split; [reflexivity|]. split.
  - vm_compute. do 5 right. left. reflexivity.
  - vm_compute. intros H.
    repeat match goal with
           | H : _ \/ _ |- _ => destruct H
           | H : False |- _ => contradiction
           | H : @eq Event _ _ |- _ => discriminate H
           end.
Qed.

(** ** Tasks of a workflow run never call the webhook *)

(** C2: when the task, as [send_task_response] reads it again from
    persistence, has the id of a workflow run (a non-empty
    [workflow_run_id]), nothing is done after the final screenshot: no
    browser cleanup, no wait for uploads, no webhook POST.  The tasks
    [create_task_and_step_from_block] creates have
    [webhook_callback_url = None] and the id of the workflow run. *)
Theorem workflow_task_never_posts
        (W : Type) (E : Env W) (task : Task.t) (last_step : Step.t)
        (api_key : option string) (close_browser_on_completion : bool) (w : W) :
  (forall refreshed w1,
     db_get_task E (Task.task_id task) (Task.organization_id task) w
     = (Ok (Some refreshed), w1) ->
     exists id, Task.workflow_run_id refreshed = Some id /\ id <> "") ->
  let t := transcript (send_task_response E task last_step api_key
                                          close_browser_on_completion w) in
  Forall (fun ev => before_cleanup ev = true) t
  /\ (forall url payload headers r, ~ In (RequestsPost url payload headers r) t)
  /\ (forall task_block workflow workflow_run task_order task_retry w0 req r,
        In (DbCreateTask req r)
           (transcript (create_task_and_step_from_block
                          E task_block workflow workflow_run task_order task_retry w0)) ->
        c_webhook_callback_url req = None
        /\ c_workflow_run_id req = Some (wr_workflow_run_id workflow_run)).
Proof.
  intros Hwr t.
  assert (Ht : Forall (fun ev => before_cleanup ev = true) t).
  { apply send_task_response_workflow. intros refreshed w1 Hdb.
    destruct (Hwr refreshed w1 Hdb) as (id & -> & Hid). now apply truthy_nonempty. }
  split; [exact Ht|]. split.
  - intros url payload headers r Hin.
    rewrite Forall_forall in Ht. specialize (Ht _ Hin). discriminate.
  - intros task_block workflow workflow_run task_order task_retry w0 req r Hin.
    pose proof (create_task_from_block_emits
                  E task_block workflow workflow_run task_order task_retry w0) as H.
    rewrite Forall_forall in H. exact (H _ Hin req r eq_refl).
Qed.

(** C2, witness: a task of the workflow run "wr_1" that has a webhook
    url. *)
Lemma workflow_task_never_posts_witness :
  Forall (fun ev => before_cleanup ev = true)
         (transcript (send_task_response
                        Sample.E (Sample.task (Some "wr_1") (Some "https://hook"))
                        Sample.step0 (Some "key") true
                        (Sample.db [Sample.step0]
                                   (Sample.task (Some "wr_1") (Some "https://hook")) None))).
Proof.
  apply (workflow_task_never_posts
           Mem.Db Sample.E (Sample.task (Some "wr_1") (Some "https://hook"))
           Sample.step0 (Some "key") true).
  intros refreshed w1 Hdb. vm_compute in Hdb. inversion Hdb; subst.
  exists "wr_1". split; [reflexivity | discriminate].
Defined.

(** ** Executor loop: an action without results fails the step *)

Lemma inert_harmless (ev : Event) : inert ev = true -> harmless ev = true.
Proof.
  unfold inert, harmless. intros H. apply andb_true_iff in H as [Hd Hc].
  rewrite Hc, andb_true_r. destruct ev; try reflexivity. discriminate.
Qed.

Lemma harmless_no_empty_reply (t : list Event) :
  Forall (fun ev => harmless ev = true) t -> ~ has_empty_reply t.
Proof.
  intros H He. unfold has_empty_reply in He. rewrite Exists_exists in He.
  destruct He as (ev & Hin & Hev). rewrite Forall_forall in H. specialize (H ev Hin).
  unfold harmless in H. rewrite Hev in H. discriminate.
Qed.

Lemma no_empty_reply_quiet (t : list Event) :
  ~ has_empty_reply t -> quiet_after_empty_reply t.
Proof.
  induction t as [|ev t IH]; intros H; simpl; auto.
  destruct (is_empty_reply ev) eqn:Hev.
  - exfalso. apply H. now constructor.
  - apply IH. intros He. apply H. now constructor 2.
Qed.

Lemma quiet_app_inert (t post : list Event) :
  quiet_after_empty_reply t ->
  Forall (fun ev => inert ev = true) post ->
  quiet_after_empty_reply (t ++ post).
Proof.
  intros Ht Hp. induction t as [|ev t IH]; simpl in *.
  - apply no_empty_reply_quiet, harmless_no_empty_reply.
    eapply Forall_impl; [|exact Hp]. apply inert_harmless.
  - destruct (is_empty_reply ev).
    + apply Forall_app. split; [exact Ht|].
      eapply Forall_impl; [|exact Hp]. intros e He. unfold inert in He.
      apply andb_true_iff in He as [He _]. now destruct (is_dispatch e).
    + now apply IH.
Qed.

Lemma has_empty_reply_app (t1 t2 : list Event) :
  has_empty_reply (t1 ++ t2) <-> has_empty_reply t1 \/ has_empty_reply t2.
Proof. apply Exists_app. Qed.

Lemma marked_failed_app {W : Type} (E : Env W) fs d (pre t : list Event) :
  marked_failed E fs d t -> marked_failed E fs d (pre ++ t).
Proof.
  intros (t' & diff & a & b & c & ->).
  exists (pre ++ t'), diff, a, b, c. now rewrite app_assoc.
Qed.

Section Fails.

Context {W A : Type} (E : Env W)
        (returned : A -> option (Step.t * DetailedAgentStepOutput)).

Lemma fails_no_empty_reply (r : Res A) (t : list Event) :
  ~ has_empty_reply t -> fails_after_empty_reply E returned r t.
Proof.
  intros H. split; [now apply no_empty_reply_quiet | intros He; contradiction].
Qed.

Lemma fails_harmless (r : Res A) (t : list Event) :
  Forall (fun ev => harmless ev = true) t -> fails_after_empty_reply E returned r t.
Proof. intros H. now apply fails_no_empty_reply, harmless_no_empty_reply. Qed.

Lemma fails_app (r : Res A) (pre t : list Event) :
  Forall (fun ev => harmless ev = true) pre ->
  fails_after_empty_reply E returned r t ->
  fails_after_empty_reply E returned r (pre ++ t).
Proof.
  intros Hpre [Hq Hf]. split.
  - induction pre as [|ev pre IH]; simpl; auto.
    inversion Hpre as [|? ? Hev Hrest]; subst.
    unfold harmless in Hev. apply andb_true_iff in Hev as [Hev _].
    destruct (is_empty_reply ev); [discriminate|]. now apply IH.
  - intros He. apply has_empty_reply_app in He as [He|He].
    + exfalso. exact (harmless_no_empty_reply pre Hpre He).
    + destruct (Hf He) as [Hc Hv]. split.
      * apply Forall_app. split; [|exact Hc].
        eapply Forall_impl; [|exact Hpre]. intros ev Hev. unfold harmless in Hev.
        apply andb_true_iff in Hev as [_ Hev]. now destruct (marks_completed ev).
      * intros v Hr. destruct (Hv v Hr) as (fs & d & Hret & Hm).
        exists fs, d. split; [exact Hret | now apply marked_failed_app].
Qed.

Lemma fails_cons (r : Res A) (ev : Event) (t : list Event) :
  harmless ev = true ->
  fails_after_empty_reply E returned r t ->
  fails_after_empty_reply E returned r (ev :: t).
Proof.
  intros Hev Ht. apply (fails_app r [ev] t); [now constructor | exact Ht].
Qed.

End Fails.

Lemma record_artifacts_inert {W : Type} (E : Env W) task step bs :
  emits (fun ev => inert ev = true) (record_artifacts_after_action E task step bs).
Proof.
  unfold record_artifacts_after_action.
  repeat emits_step; reflexivity.
Qed.

Lemma set_item_nth {A : Type} (l : list A) :
  forall i v l', set_item l i v = Some l' ->
                 nth_error l' i = Some v /\ set_item l' i v = Some l'.
Proof.
  induction l as [|x l IH]; intros i v l' H; simpl in H.
  - destruct i; discriminate.
  - destruct i as [|i].
    + inversion H; subst. split; reflexivity.
    + destruct (set_item l i v) as [l''|] eqn:Hs; [|discriminate].
      inversion H; subst. destruct (IH i v l'' Hs) as [Hn Hi].
      split; [exact Hn|]. simpl. now rewrite Hi.
Qed.

Lemma store_results_run {W : Type} idx a rs (s : W * Locals) :
  @store_results W idx a rs s =
  match d_actions_and_results (l_out (snd s)) with
  | None => (Raise TypeError, s, [])
  | Some ars =>
      match set_item ars idx (a, rs) with
      | None => (Raise IndexError, s, [])
      | Some ars' =>
          (Ok tt, (fst s, {| l_step := l_step (snd s);
                             l_out := with_actions_and_results ars' (l_out (snd s)) |}), [])
      end
  end.
Proof.
  unfold store_results, bind, get_out.
  destruct (d_actions_and_results (l_out (snd s))) as [ars|]; [|reflexivity].
  destruct (set_item ars idx (a, rs)); reflexivity.
Qed.

Ltac inert_events Hra :=
  cbn; rewrite ?app_nil_r;
  repeat match goal with
         | |- _ /\ _ => split
         | |- exists t', _ :: _ = _ :: t' /\ _ => eexists; split; [reflexivity|]
         | |- _ <> _ => discriminate
         | |- forall _, _ => intros
         | H : Raise _ = Ok _ |- _ => discriminate H
         | |- Forall _ (_ ++ _) => apply Forall_app; split
         | |- Forall _ _ => first [exact Hra | constructor]
         | |- inert _ = true => reflexivity
         | |- harmless _ = true => reflexivity
         end.

Lemma empty_results_run {W : Type} (E : Env W) sp task step bs acc ids idx a rest st w1 :
  element_seen a ids = false ->
  handle_action E sp task step bs a (fst st) = (Ok [], w1) ->
  let x := execute_actions E sp task step bs acc ids idx (a :: rest) st in
  (exists t', transcript x = HandleAction a (Ok []) :: t'
              /\ Forall (fun ev => inert ev = true) t')
  /\ result x <> Ok None
  /\ (forall failed_step d,
        result x = Ok (Some (failed_step, d)) ->
        d = l_out (snd (final x))
        /\ d_action_results d = Some acc
        /\ (exists ars, d_actions_and_results d = Some ars
                        /\ nth_error ars idx = Some (a, []))
        /\ exists t' diff,
            transcript x
            = t' ++ [Log WARNING "Action failed, marking step as failed";
                     LogDiff "Updating step in db" diff;
                     DbUpdateStep (Step.task_id step) (Step.step_id step)
                                  (Step.organization_id step)
                                  (step_updates (Some StepStatus.failed)
                                                (Some (to_agent_step_output E d)) None None)
                                  (Ok failed_step)]).
Proof.
  intros Hseen Hhandle x.
  assert (Hx : x = execute_actions E sp task step bs acc ids idx (a :: rest) st)
    by reflexivity.
  clearbody x. simpl in Hx. rewrite Hseen in Hx.
  unfold bind at 1, lift at 1, call at 1 in Hx. rewrite Hhandle in Hx.
  unfold bind at 1 in Hx. rewrite store_results_run in Hx. simpl snd in Hx.
  destruct (d_actions_and_results (l_out (snd st))) as [ars|] eqn:Hars.
  2:{ subst x. inert_events I. }
  destruct (set_item ars idx (a, [])) as [ars'|] eqn:Hset.
  2:{ subst x. inert_events I. }
  destruct (set_item_nth ars idx (a, []) ars' Hset) as [Hnth Hidem].
  unfold bind at 1, lift at 1, call at 1 in Hx. simpl fst in Hx.
  destruct (sleep E w1) as [[[]|e] w2].
  2:{ subst x. inert_events I. }
  unfold bind at 1, lift at 1 in Hx. simpl fst in Hx.
  pose proof (record_artifacts_inert E task step bs w2) as Hra.
  destruct (record_artifacts_after_action E task step bs w2) as [[[[]|e] w3] t3];
    unfold transcript in Hra; simpl in Hra.
  2:{ subst x. inert_events Hra. }
  unfold bind at 1 in Hx. rewrite store_results_run in Hx.
  cbn [map snd fst l_out l_step with_actions_and_results d_actions_and_results] in Hx.
  rewrite Hidem in Hx.
  unfold bind at 1, set_out at 1 in Hx.
  cbn [snd fst l_out l_step results_succeeded py_last] in Hx.
  rewrite app_nil_r in Hx.
  unfold bind at 1, LOG at 1 in Hx.
  unfold bind at 1, get_out at 1 in Hx.
  unfold bind at 1, lift at 1 in Hx. rewrite update_step_run in Hx.
  cbn [snd fst l_out l_step] in Hx.
  match type of Hx with
  | context [to_agent_step_output E ?d] => set (d0 := d) in *
  end.
  destruct (step_validate_update E step (Some StepStatus.failed)
                                 (Some (to_agent_step_output E d0)) None).
  { subst x. inert_events Hra. }
  cbv zeta in Hx.
  destruct (db_update_step E _ _ _ _ w3) as [[fs|e] w4].
  - subst x. cbn. split; [|split].
    + inert_events Hra.
    + discriminate.
    + intros failed_step d H. inversion H; subst.
      split; [reflexivity|]. split; [reflexivity|].
      split; [exists ars'; split; [reflexivity | exact Hnth]|].
      exists (HandleAction a (Ok []) :: Sleep (Ok tt) :: t3). eexists.
      reflexivity.
  - subst x. inert_events Hra.
Qed.

Lemma inert_not_dispatch (t : list Event) :
  Forall (fun ev => inert ev = true) t -> Forall (fun ev => is_dispatch ev = false) t.
Proof.
  apply Forall_impl. intros ev H. unfold inert in H.
  apply andb_true_iff in H as [H _]. now destruct (is_dispatch ev).
Qed.

Lemma inert_not_completed (t : list Event) :
  Forall (fun ev => inert ev = true) t -> Forall (fun ev => marks_completed ev = false) t.
Proof.
  apply Forall_impl. intros ev H. unfold inert in H.
  apply andb_true_iff in H as [_ H]. now destruct (marks_completed ev).
Qed.

Lemma inert_all_harmless (t : list Event) :
  Forall (fun ev => inert ev = true) t -> Forall (fun ev => harmless ev = true) t.
Proof. apply Forall_impl. apply inert_harmless. Qed.

Ltac harmless_events :=
  cbn; rewrite ?app_nil_r; apply fails_harmless;
  repeat match goal with
         | |- Forall _ (_ ++ _) => apply Forall_app; split
         | |- Forall _ _ => first [assumption | constructor]
         | |- harmless _ = true => reflexivity
         end.

Lemma execute_actions_fails_after_empty_reply {W : Type} (E : Env W) sp task step bs :
  forall actions acc ids idx st,
    fails_after_empty_reply
      E (fun v => v)
      (result (execute_actions E sp task step bs acc ids idx actions st))
      (transcript (execute_actions E sp task step bs acc ids idx actions st)).
Proof.
  induction actions as [|a rest IH]; intros acc ids idx st.
  - apply fails_harmless. constructor.
  - destruct (element_seen a ids) eqn:Hseen.
    { remember (execute_actions E sp task step bs acc ids idx (a :: rest) st) as x eqn:Hx.
      simpl in Hx. rewrite Hseen in Hx. subst x. harmless_events. }
    destruct (handle_action E sp task step bs a (fst st)) as [[[|r0 rs]|e] w1] eqn:Hhandle.
    + (* an empty reply *)
      destruct (empty_results_run E sp task step bs acc ids idx a rest st w1 Hseen Hhandle)
        as ((t' & Ht & Hinert) & Hnone & Hret).
      split.
      * rewrite Ht. simpl. now apply inert_not_dispatch.
      * intros _. split.
        -- rewrite Ht. constructor; [reflexivity | now apply inert_not_completed].
        -- intros [[fs d]|] Hr; [|contradiction].
           exists fs, d. split; [reflexivity|].
           destruct (Hret fs d Hr) as (_ & _ & _ & t'' & diff & Htr).
           exists (t'' ++ [Log WARNING "Action failed, marking step as failed"]), diff,
                  (Step.task_id step), (Step.step_id step), (Step.organization_id step).
           rewrite Htr, <- app_assoc. reflexivity.
    + (* some results *)
      remember (execute_actions E sp task step bs acc ids idx (a :: rest) st) as x eqn:Hx.
      simpl in Hx. rewrite Hseen in Hx.
      unfold bind at 1, lift at 1, call at 1 in Hx. rewrite Hhandle in Hx.
      unfold bind at 1 in Hx. rewrite store_results_run in Hx. simpl snd in Hx.
      destruct (d_actions_and_results (l_out (snd st))) as [ars|] eqn:Hars.
      2:{ subst x. harmless_events. }
      destruct (set_item ars idx (a, r0 :: rs)) as [ars'|] eqn:Hset.
      2:{ subst x. harmless_events. }
      unfold bind at 1, lift at 1, call at 1 in Hx. simpl fst in Hx.
      destruct (sleep E w1) as [[[]|e] w2].
      2:{ subst x. harmless_events. }
      unfold bind at 1, lift at 1 in Hx. simpl fst in Hx.
      pose proof (inert_all_harmless _ (record_artifacts_inert E task step bs w2)) as Hra.
      destruct (record_artifacts_after_action E task step bs w2) as [[[[]|e] w3] t3];
        unfold transcript in Hra; simpl in Hra.
      2:{ subst x. harmless_events. }
      unfold bind at 1 in Hx. rewrite store_results_run in Hx.
      cbn [snd fst l_out l_step with_actions_and_results d_actions_and_results] in Hx.
      destruct (set_item ars' idx (a, map (stamp step) (r0 :: rs))) as [ars''|].
      2:{ subst x. harmless_events. }
      unfold bind at 1, set_out at 1 in Hx.
      cbn [snd fst l_out l_step] in Hx.
      destruct (results_succeeded (map (stamp step) (r0 :: rs))).
      * unfold bind at 1, LOG at 1 in Hx.
        destruct (last_javascript_triggered (map (stamp step) (r0 :: rs))).
        -- subst x. harmless_events.
        -- match type of Hx with
           | context [execute_actions E sp task step bs ?acc' ?ids' ?idx' rest ?st'] =>
               pose proof (IH acc' ids' idx' st') as Hrec;
               destruct (execute_actions E sp task step bs acc' ids' idx' rest st')
                 as [[r' s'] t']
           end.
           subst x. cbn in Hrec |- *.
           apply fails_cons; [reflexivity|].
           apply fails_cons; [reflexivity|].
           apply fails_app; [exact Hra|].
           apply fails_cons; [reflexivity|]. exact Hrec.
      * unfold bind at 1, LOG at 1 in Hx.
        unfold bind at 1, get_out at 1 in Hx.
        unfold bind at 1, lift at 1 in Hx. rewrite update_step_run in Hx.
        cbn [snd fst l_out l_step] in Hx.
        destruct (step_validate_update E step (Some StepStatus.failed) _ None).
        { subst x. harmless_events. }
        cbv zeta in Hx.
        destruct (db_update_step E _ _ _ _ w3) as [[fs|e] w4];
          subst x; harmless_events.
    + remember (execute_actions E sp task step bs acc ids idx (a :: rest) st) as x eqn:Hx.
      simpl in Hx. rewrite Hseen in Hx.
      unfold bind at 1, lift at 1, call at 1 in Hx. rewrite Hhandle in Hx.
      subst x. harmless_events.
Qed.

Lemma fails_when_harmless {W S A : Type} (E : Env W) returned (m : M S A) :
  emits (fun ev => harmless ev = true) m -> fails_when_empty E returned m.
Proof. intros H s. apply fails_harmless, H. Qed.

Lemma fails_bind_harmless {W S A B : Type} (E : Env W) returned
      (m : M S A) (f : A -> M S B) :
  emits (fun ev => harmless ev = true) m ->
  (forall a, fails_when_empty E returned (f a)) ->
  fails_when_empty E returned (bind m f).
Proof.
  intros Hm Hf s. unfold bind. specialize (Hm s).
  destruct (m s) as [[[a|e] s1] t1]; unfold transcript in Hm; simpl in Hm.
  - specialize (Hf a s1). destruct (f a s1) as [[r s2] t2].
    cbn in *. now apply fails_app.
  - cbn. now apply fails_harmless.
Qed.

Lemma update_step_harmless {W : Type} (E : Env W) step st out il ri :
  st <> Some StepStatus.completed ->
  emits (fun ev => harmless ev = true) (update_step E step st out il ri).
Proof.
  intros Hst. unfold update_step.
  destruct (step_validate_update E step st out il); [apply emits_raise|].
  apply emits_bind; [intros s; repeat constructor|].
  intros _. apply emits_call. intros r.
  destruct st as [[]|], out, il, ri; try reflexivity; congruence.
Qed.

Lemma update_step_no_empty_reply {W : Type} (E : Env W) step st out il ri :
  emits (fun ev => is_empty_reply ev = false) (update_step E step st out il ri).
Proof. apply emits_update_step; reflexivity. Qed.

Lemma build_prompt_harmless {W : Type} (E : Env W) task step bs :
  emits (fun ev => harmless ev = true) (_build_and_record_step_prompt E task step bs).
Proof.
  unfold _build_and_record_step_prompt. repeat emits_step; reflexivity.
Qed.

Lemma no_empty_reply_app (t post : list Event) :
  ~ has_empty_reply t ->
  Forall (fun ev => is_empty_reply ev = false) post ->
  ~ has_empty_reply (t ++ post).
Proof.
  intros Ht Hp He. apply has_empty_reply_app in He as [He|He]; [contradiction|].
  unfold has_empty_reply in He. rewrite Exists_exists in He.
  destruct He as (ev & Hin & Hev). rewrite Forall_forall in Hp.
  rewrite (Hp ev Hin) in Hev. discriminate.
Qed.

Lemma agent_step_try_fails_when_empty {W : Type} (E : Env W) task step bs :
  fails_when_empty E Some (agent_step_try E task step bs).
Proof.
  unfold agent_step_try.
  apply fails_bind_harmless; [apply emits_LOG; reflexivity | intros _].
  apply fails_bind_harmless.
  { apply emits_lift, update_step_harmless. discriminate. }
  intros step1.
  apply fails_bind_harmless; [apply emits_silent; reflexivity | intros _].
  apply fails_bind_harmless; [apply emits_lift, build_prompt_harmless | intros sp].
  apply fails_bind_harmless; [apply emits_silent; reflexivity | intros _].
  apply fails_bind_harmless.
  { destruct (truthy_str (Task.navigation_goal task)); repeat emits_step; reflexivity. }
  intros ra.
  apply fails_bind_harmless; [apply emits_silent; reflexivity | intros _].
  destruct (snd ra) as [|a0 actions0].
  - apply fails_when_harmless.
    apply emits_bind; [apply emits_LOG; reflexivity | intros _].
    apply emits_bind; [apply emits_silent; reflexivity | intros d].
    apply emits_bind; [apply emits_lift, update_step_harmless; discriminate | intros s1].
    repeat emits_step.
  - apply fails_bind_harmless; [apply emits_LOG; reflexivity | intros _].
    apply fails_bind_harmless; [apply emits_silent; reflexivity | intros _].
    apply fails_bind_harmless.
    { destruct (skips_wait_actions _); repeat emits_step; reflexivity. }
    intros _.
    apply fails_bind_harmless; [apply emits_silent; reflexivity | intros _].
    intros s.
    match goal with
    | |- fails_after_empty_reply _ _ (result ?m) _ => remember m as x eqn:Hx
    end.
    unfold bind at 1 in Hx.
    pose proof (execute_actions_fails_after_empty_reply
                  E (fst sp) task step1 bs (filter_wait_actions (a0 :: actions0))
                  [] [] 0%nat s) as [Hq Hf].
    destruct (execute_actions E (fst sp) task step1 bs [] [] 0%nat
                              (filter_wait_actions (a0 :: actions0)) s)
      as [[[[v|]|e] s1] t1]; cbn in Hq, Hf.
    + subst x. cbn. rewrite app_nil_r. split; [exact Hq|].
      intros He. destruct (Hf He) as [Hc Hv]. split; [exact Hc|].
      intros v' Hv'. inversion Hv'; subst.
      destruct (Hv (Some v') eq_refl) as (fs & d & Hret & Hm).
      exists fs, d. split; assumption.
    + assert (Hne : ~ has_empty_reply t1).
      { intros He. destruct (Hf He) as [_ Hv].
        destruct (Hv None eq_refl) as (fs & d & Hret & _). discriminate. }
      match type of Hx with
      | context [match ?k s1 with _ => _ end] =>
          assert (Hpost : Forall (fun ev => is_empty_reply ev = false) (transcript (k s1)));
          [|destruct (k s1) as [[r2 s2] t2]]
      end.
      { apply emits_bind; [apply emits_LOG; reflexivity | intros _].
        apply emits_bind; [apply emits_silent; reflexivity | intros d].
        apply emits_bind; [apply emits_lift, update_step_no_empty_reply | intros s2].
        apply emits_ret. }
      subst x. cbn in Hpost |- *. apply fails_no_empty_reply. now apply no_empty_reply_app.
    + subst x. cbn. split; [exact Hq|].
      intros He. destruct (Hf He) as [Hc _]. split; [exact Hc|].
      intros v Hv. discriminate.
Qed.

Lemma agent_step_fails_when_empty {W : Type} (E : Env W) task step bs organization :
  fails_when_empty E Some (agent_step E task step bs organization).
Proof.
  intros w.
  match goal with
  | |- fails_after_empty_reply _ _ (result ?m) _ => remember m as x eqn:Hx
  end.
  unfold agent_step, try_except in Hx.
  pose proof (agent_step_try_fails_when_empty
                E task step bs (w, {| l_step := step; l_out := empty_output |}))
    as [Hq Hf].
  destruct (agent_step_try E task step bs (w, {| l_step := step; l_out := empty_output |}))
    as [[[v|e] [w1 l]] t1]; cbn in Hq, Hf.
  - subst x. cbn. split; assumption.
  - assert (Hpost : forall post,
               Forall (fun ev => inert ev = true) post ->
               quiet_after_empty_reply (t1 ++ post)
               /\ (has_empty_reply (t1 ++ post) ->
                   Forall (fun ev => marks_completed ev = false) (t1 ++ post))).
    { intros post Hpost. split; [now apply quiet_app_inert|].
      intros He. apply Forall_app. split; [|now apply inert_not_completed].
      apply has_empty_reply_app in He as [He|He]; [now destruct (Hf He)|].
      exfalso. revert He. now apply harmless_no_empty_reply, inert_all_harmless. }
    destruct (isinstance_Exception e).
    + unfold agent_step_except, bind, LOG, lift in Hx. cbn [fst snd] in Hx.
      rewrite update_step_run in Hx.
      destruct (step_validate_update E (l_step l) (Some StepStatus.failed) _ None).
      * subst x. cbn.
        destruct (Hpost [Log EXCEPTION
                             "Unexpected exception in agent_step, marking step as failed"])
          as [Hq' Hc']; [repeat constructor|].
        split; [exact Hq'|]. intros He. split; [now apply Hc'|]. intros v Hv. discriminate.
      * cbv zeta in Hx. destruct (db_update_step E _ _ _ _ w1) as [[fs|e'] w2];
          subst x; cbn; rewrite ?app_nil_r;
          match goal with
          | |- fails_after_empty_reply _ _ _ (t1 ++ ?post) =>
              destruct (Hpost post) as [Hq' Hc']; [repeat constructor|]
          end;
          (split; [exact Hq'|]); intros He; (split; [now apply Hc'|]); intros v Hv.
        -- inversion Hv; subst. exists fs, (l_out l). split; [reflexivity|].
           exists (t1 ++ [Log EXCEPTION
                              "Unexpected exception in agent_step, marking step as failed"]).
           do 4 eexists. rewrite <- app_assoc. reflexivity.
        -- discriminate.
    + subst x. cbn. split; [exact Hq|]. intros He. destruct (Hf He) as [Hc _].
      split; [exact Hc | intros v Hv; discriminate].
Qed.

Lemma quiet_after_any_empty_reply (t1 t2 : list Event) (ev : Event) :
  quiet_after_empty_reply (t1 ++ ev :: t2) ->
  is_empty_reply ev = true ->
  Forall (fun ev' => is_dispatch ev' = false) t2.
Proof.
  induction t1 as [|e t1 IH]; simpl; intros Hq Hev.
  - now rewrite Hev in Hq.
  - destruct (is_empty_reply e); [|now apply IH].
    apply Forall_app in Hq as [_ Hq]. now inversion Hq.
Qed.

(** C10: when the handler of an action of the executor loop returns an
    empty result list, no later action is dispatched, the loop does not
    run to completion, and when the method returns from the loop it
    returns the step that [update_step] marked [failed] together with the
    accumulated output, in which the action has an empty result list.
    For [agent_step] as a whole: after such a reply nothing is dispatched,
    the step is never marked [completed], and a normal return carries the
    step marked [failed] with the accumulated output. *)
Theorem empty_results_fail_the_step (W : Type) (E : Env W) :
  (forall sp task step bs acc ids idx a rest st w1,
     element_seen a ids = false ->
     handle_action E sp task step bs a (fst st) = (Ok [], w1) ->
     let x := execute_actions E sp task step bs acc ids idx (a :: rest) st in
     (exists t', transcript x = HandleAction a (Ok []) :: t'
                 /\ Forall (fun ev => is_dispatch ev = false) t')
     /\ result x <> Ok None
     /\ (forall failed_step d,
           result x = Ok (Some (failed_step, d)) ->
           d = l_out (snd (final x))
           /\ d_action_results d = Some acc
           /\ (exists ars, d_actions_and_results d = Some ars
                           /\ nth_error ars idx = Some (a, []))
           /\ exists t' diff,
               transcript x
               = t' ++ [Log WARNING "Action failed, marking step as failed";
                        LogDiff "Updating step in db" diff;
                        DbUpdateStep (Step.task_id step) (Step.step_id step)
                                     (Step.organization_id step)
                                     (step_updates (Some StepStatus.failed)
                                                   (Some (to_agent_step_output E d))
                                                   None None)
                                     (Ok failed_step)]))
  /\ (forall task step bs organization w t1 a t2,
        let x := agent_step E task step bs organization w in
        transcript x = t1 ++ HandleAction a (Ok []) :: t2 ->
        Forall (fun ev => is_dispatch ev = false) t2
        /\ Forall (fun ev => marks_completed ev = false) (transcript x)
        /\ (forall failed_step d,
              result x = Ok (failed_step, d) ->
              exists t' diff task_id step_id org,
                transcript x
                = t' ++ [LogDiff "Updating step in db" diff;
                         DbUpdateStep task_id step_id org
                                      (step_updates (Some StepStatus.failed)
                                                    (Some (to_agent_step_output E d))
                                                    None None)
                                      (Ok failed_step)])).
Proof.
  split.
  - intros sp task step bs acc ids idx a rest st w1 Hseen Hhandle x.
    destruct (empty_results_run E sp task step bs acc ids idx a rest st w1 Hseen Hhandle)
      as ((t' & Ht & Hinert) & Hnone & Hret).
    split; [|split; assumption].
    exists t'. split; [exact Ht | now apply inert_not_dispatch].
  - intros task step bs organization w t1 a t2 x Ht.
    destruct (agent_step_fails_when_empty E task step bs organization w) as [Hq Hf].
    fold x in Hq, Hf.
    assert (He : has_empty_reply (transcript x)).
    { rewrite Ht. apply has_empty_reply_app. right. now constructor. }
    destruct (Hf He) as [Hc Hv].
    split; [|split].
    + rewrite Ht in Hq. now apply (quiet_after_any_empty_reply t1 t2 _ Hq).
    + exact Hc.
    + intros failed_step d Hr.
      destruct (Hv _ Hr) as (fs & d' & Hret & Hm).
      inversion Hret; subst. exact Hm.
Qed.

(** C10, witness: a WAIT whose handler returns no result, followed by a
    click. *)
Lemma empty_results_fail_the_step_witness :
  result (execute_actions Sample.E Sample.scraped Sample.task0 Sample.running
                          Sample.browser [] [] 0 [Sample.wait; Sample.click 1]
                          (Sample.at_loop [Sample.wait; Sample.click 1]))
  <> Ok None.
Proof.
  destruct (empty_results_fail_the_step Mem.Db Sample.E) as [Hloop _].
  apply (Hloop Sample.scraped Sample.task0 Sample.running Sample.browser
               [] [] 0%nat Sample.wait [Sample.click 1]
               (Sample.at_loop [Sample.wait; Sample.click 1])
               (fst (Sample.at_loop [Sample.wait; Sample.click 1]))
               eq_refl eq_refl).
Defined.

(** ** The handler of [agent_step] *)

Ltac exists_run :=
  do 3 eexists; split; [reflexivity | split; reflexivity].

(** C1, counterexample: the database goes down after the step is marked
    running; the read of the task's steps raises, the handler's own
    [update_step] raises too, and the exception leaves [agent_step]. *)
Lemma agent_step_raises_when_database_is_down :
  let x := agent_step Sample.E Sample.task0 Sample.step0 Sample.browser None
                      (Sample.db [Sample.step0] Sample.task0 (Some 1%nat)) in
  result x = Raise Mem.down
  /\ In (Log EXCEPTION "Unexpected exception in agent_step, marking step as failed")
        (transcript x).
Proof.
  split; [reflexivity|].
  vm_compute. do 7 right. left. reflexivity.
Qed.

(** C1, amended: an exception deriving from [Exception] raised in the
    [try] block of [agent_step] is caught by the one handler, which logs
    it and calls [update_step] with status [failed] and the output
    accumulated so far; when that call returns, [agent_step] returns the
    step it gave back and the accumulated output.  An exception leaves
    [agent_step] only when it does not derive from [Exception] or is
    raised by the handler's own [update_step], by its validation or by
    the write to persistence. *)
Theorem agent_step_handler_catches
        (W : Type) (E : Env W) (task : Task.t) (step : Step.t) (bs : BrowserState)
        (organization : option Organization) (w : W) :
  let x := agent_step E task step bs organization w in
  let body := agent_step_try E task step bs (w, {| l_step := step; l_out := empty_output |}) in
  let caught := snd (final body) in
  let failed_output := to_agent_step_output E (l_out caught) in
  (forall v, result body = Ok v -> result x = Ok v /\ transcript x = transcript body)
  /\ (forall e0,
        result body = Raise e0 -> isinstance_Exception e0 = true ->
        exists r w2 t2,
          update_step E (l_step caught) (Some StepStatus.failed) (Some failed_output)
                      None None (fst (final body)) = (r, w2, t2)
          /\ transcript x
             = transcript body
               ++ Log EXCEPTION "Unexpected exception in agent_step, marking step as failed"
               :: t2
          /\ result x = match r with
                        | Ok failed_step => Ok (failed_step, l_out caught)
                        | Raise e => Raise e
                        end)
  /\ (forall e,
        result x = Raise e ->
        isinstance_Exception e = false
        \/ (transcript x
            = transcript body
              ++ [Log EXCEPTION "Unexpected exception in agent_step, marking step as failed"]
            /\ step_validate_update E (l_step caught) (Some StepStatus.failed)
                                    (Some failed_output) None = Some e)
        \/ (exists diff,
              transcript x
              = transcript body
                ++ [Log EXCEPTION "Unexpected exception in agent_step, marking step as failed";
                    LogDiff "Updating step in db" diff;
                    DbUpdateStep (Step.task_id (l_step caught)) (Step.step_id (l_step caught))
                                 (Step.organization_id (l_step caught))
                                 (step_updates (Some StepStatus.failed) (Some failed_output)
                                               None None)
                                 (Raise e)])).
Proof.
  intros x body caught failed_output.
  subst x caught failed_output. unfold agent_step, try_except. fold body.
  destruct body as [[[v|e0] [w1 l]] t1]; cbn [result final transcript fst snd].
  - split; [|split].
    + intros v' H. inversion H; subst. split; reflexivity.
    + intros e0 H. discriminate.
    + intros e H. discriminate.
  - unfold agent_step_except, bind, LOG, lift. cbn [fst snd].
    split; [|split].
    + intros v H. discriminate.
    + intros e H He. inversion H; subst. rewrite He.
      destruct (update_step E (l_step l) (Some StepStatus.failed)
                            (Some (to_agent_step_output E (l_out l))) None None w1)
        as [[[fs|e'] w2] t2]; unfold ret; cbn; rewrite ?app_nil_r; exists_run.
    + intros e H. destruct (isinstance_Exception e0) eqn:He0.
      * rewrite update_step_run in H |- *.
        destruct (step_validate_update E (l_step l) (Some StepStatus.failed)
                                       (Some (to_agent_step_output E (l_out l))) None)
          as [e'|].
        -- cbn in H |- *. inversion H; subst. right. left. split; reflexivity.
        -- cbv zeta in H |- *.
           destruct (db_update_step E _ _ _ _ w1) as [[fs|e'] w2]; cbn in H |- *.
           ++ discriminate.
           ++ inversion H; subst. right. right. eexists. reflexivity.
      * cbn in H. inversion H; subst. left. exact He0.
Qed.

(** C1, witness: the database goes down after the first call. *)
Lemma agent_step_handler_catches_witness :
  isinstance_Exception Mem.down = false
  \/ (exists t, transcript (agent_step Sample.E Sample.task0 Sample.step0 Sample.browser None
                                       (Sample.db [Sample.step0] Sample.task0 (Some 1%nat)))
                = t ++ [Log EXCEPTION
                            "Unexpected exception in agent_step, marking step as failed"])
  \/ (exists t diff updates,
        transcript (agent_step Sample.E Sample.task0 Sample.step0 Sample.browser None
                               (Sample.db [Sample.step0] Sample.task0 (Some 1%nat)))
        = t ++ [Log EXCEPTION "Unexpected exception in agent_step, marking step as failed";
                LogDiff "Updating step in db" diff;
                DbUpdateStep "task_0" "step_0" (Some "org_1") updates (Raise Mem.down)]).
Proof.
  destruct (agent_step_handler_catches
              Mem.Db Sample.E Sample.task0 Sample.step0 Sample.browser None
              (Sample.db [Sample.step0] Sample.task0 (Some 1%nat)))
    as (_ & _ & H).
  destruct (H Mem.down eq_refl) as [H1 | [[H2 _] | [diff H3]]].
  - left. exact H1.
  - right. left. eexists. exact H2.
  - right. right. do 3 eexists. exact H3.
Defined.

(** * Further properties of the code *)

Lemma py_last_map {A B : Type} (f : A -> B) (l : list A) :
  py_last (map f l) = option_map f (py_last l).
Proof.
  induction l as [|x l IH]; simpl; auto.
  destruct l as [|y l]; simpl in *; auto.
Qed.

Lemma results_succeeded_stamp (step : Step.t) (rs : list ActionResult) :
  results_succeeded (map (stamp step) rs) = results_succeeded rs.
Proof.
  unfold results_succeeded. rewrite py_last_map. now destruct (py_last rs).
Qed.

Lemma last_javascript_triggered_stamp (step : Step.t) (rs : list ActionResult) :
  last_javascript_triggered (map (stamp step) rs) = last_javascript_triggered rs.
Proof.
  unfold last_javascript_triggered. rewrite py_last_map. now destruct (py_last rs).
Qed.

Ltac stop_events Hra :=
  cbn; rewrite ?app_nil_r;
  repeat match goal with
         | |- _ /\ _ => split
         | |- forall _, _ => intros
         | H : Raise _ = Ok _ |- _ => discriminate H
         | H : Ok _ = Ok _ |- _ => inversion H; subst; clear H
         | H : Ok _ = Raise _ |- _ => discriminate H
         | H : Some _ = None |- _ => discriminate H
         | H : None = Some _ |- _ => discriminate H
         | |- Forall _ (_ ++ _) => apply Forall_app; split
         | |- Forall _ _ => first [exact Hra | constructor]
         | |- inert _ = true => reflexivity
         | |- _ = _ => reflexivity
         end.

Ltac stop_leaf y Hra :=
  subst y; cbn; rewrite ?app_nil_r; eexists; split; cycle 1;
  [ left; split; [reflexivity|];
    repeat match goal with
           | |- _ /\ _ => split
           | |- forall _, _ => intros
           | H : _ = _ |- _ => first [discriminate H | rewrite H in *]
           | |- exists e, Raise _ = Raise e => eexists; reflexivity
           | |- _ = _ => first [reflexivity | discriminate | congruence]
           end
  | repeat match goal with
           | |- Forall _ (_ ++ _) => apply Forall_app; split
           | |- Forall _ _ => first [exact Hra | constructor]
           | |- inert _ = true => reflexivity
           end ].

(** One iteration of the executor loop on an action that passes the
    duplicate-element guard: the action is dispatched, and either the loop
    stops there, or the action succeeded without triggering javascript and
    the loop goes on with the rest. *)
Lemma execute_actions_unfold {W : Type} (E : Env W) sp task step bs acc ids idx a rest st :
  element_seen a ids = false ->
  let y := execute_actions E sp task step bs acc ids idx (a :: rest) st in
  exists r q,
    Forall (fun ev => inert ev = true) q
    /\ ((transcript y = HandleAction a r :: q
         /\ (result y = Ok None -> triggered_javascript r = true)
         /\ (forall v, result y = Ok (Some v) -> succeeded r = false)
         /\ (succeeded r = true -> triggered_javascript r = false ->
             exists e, result y = Raise e))
        \/ (succeeded r = true /\ triggered_javascript r = false
            /\ exists rs acc' st',
                r = Ok rs
                /\ acc' = acc ++ map (stamp step) rs
                /\ transcript y
                   = HandleAction a r
                     :: q ++ transcript (execute_actions E sp task step bs acc'
                                                         (add_element a ids) (S idx) rest st')
                /\ result y
                   = result (execute_actions E sp task step bs acc'
                                             (add_element a ids) (S idx) rest st'))).
Proof.
  intros Hseen y.
  assert (Hy : y = execute_actions E sp task step bs acc ids idx (a :: rest) st)
    by reflexivity.
  clearbody y. simpl in Hy. rewrite Hseen in Hy.
  unfold bind at 1, lift at 1, call at 1 in Hy.
  destruct (handle_action E sp task step bs a (fst st)) as [[rs|e] w1].
  2:{ exists (Raise e). stop_leaf y I. }
  exists (Ok rs).
  unfold bind at 1 in Hy. rewrite store_results_run in Hy. simpl snd in Hy.
  destruct (d_actions_and_results (l_out (snd st))) as [ars|].
  2:{ stop_leaf y I. }
  destruct (set_item ars idx (a, rs)) as [ars'|].
  2:{ stop_leaf y I. }
  unfold bind at 1, lift at 1, call at 1 in Hy. simpl fst in Hy.
  destruct (sleep E w1) as [[[]|e] w2].
  2:{ stop_leaf y I. }
  unfold bind at 1, lift at 1 in Hy. simpl fst in Hy.
  pose proof (record_artifacts_inert E task step bs w2) as Hra.
  destruct (record_artifacts_after_action E task step bs w2) as [[[[]|e] w3] t3];
    unfold transcript in Hra; simpl in Hra.
  2:{ stop_leaf y Hra. }
  unfold bind at 1 in Hy. rewrite store_results_run in Hy.
  cbn [snd fst l_out l_step with_actions_and_results d_actions_and_results] in Hy.
  destruct (set_item ars' idx (a, map (stamp step) rs)) as [ars''|].
  2:{ stop_leaf y Hra. }
  unfold bind at 1, set_out at 1 in Hy.
  cbn [snd fst l_out l_step] in Hy.
  rewrite results_succeeded_stamp, last_javascript_triggered_stamp in Hy.
  destruct (results_succeeded rs) eqn:Hs.
  - unfold bind at 1, LOG at 1 in Hy.
    destruct (last_javascript_triggered rs) eqn:Hjs.
    + stop_leaf y Hra.
    + exists (Sleep (Ok tt) :: t3 ++ [Log INFO "Action succeeded"]).
      split; [constructor; [reflexivity|]; apply Forall_app; split;
              [exact Hra | repeat constructor]|].
      right. cbn. rewrite Hs, Hjs. split; [reflexivity|]. split; [reflexivity|].
      match type of Hy with
      | context [execute_actions E sp task step bs ?acc' ?ids' ?idx' rest ?st'] =>
          exists rs, acc', st'; destruct (execute_actions E sp task step bs acc' ids' idx' rest st')
            as [[r' s'] t']
      end.
      subst y. cbn. rewrite <- app_assoc. repeat split; reflexivity.
  - unfold bind at 1, LOG at 1 in Hy.
    unfold bind at 1, get_out at 1 in Hy.
    unfold bind at 1, lift at 1 in Hy. rewrite update_step_run in Hy.
    cbn [snd fst l_out l_step] in Hy.
    match type of Hy with
    | context [step_validate_update E step ?a1 ?a2 ?a3] =>
        destruct (step_validate_update E step a1 a2 a3)
    end.
    + stop_leaf y Hra.
    + cbv zeta in Hy.
      match type of Hy with
      | context [db_update_step E ?a1 ?a2 ?a3 ?a4 w3] =>
          destruct (db_update_step E a1 a2 a3 a4 w3) as [[fs|e] w4] eqn:Hdb
      end; stop_leaf y Hra.
Qed.

Lemma dispatched_app (t1 t2 : list Event) :
  dispatched (t1 ++ t2) = dispatched t1 ++ dispatched t2.
Proof.
  induction t1 as [|ev t1 IH]; simpl; auto.
  destruct ev; simpl; auto. now rewrite IH.
Qed.

Lemma inert_dispatched (t : list Event) :
  Forall (fun ev => inert ev = true) t -> dispatched t = [].
Proof.
  induction 1 as [|ev t Hev _ IH]; simpl; auto.
  destruct ev; auto. discriminate.
Qed.

Lemma element_seen_In (a : Action) (ids : list Z) (id : Z) :
  element_seen a ids = false -> element_id a = Some id -> ~ In id ids.
Proof.
  unfold element_seen. intros H Hid Hin. rewrite Hid in H.
  assert (existsb (Z.eqb id) ids = true)
    by (apply existsb_exists; exists id; split; [assumption | apply Z.eqb_refl]).
  congruence.
Qed.

Lemma execute_actions_orderly {W : Type} (E : Env W) sp task step bs :
  forall actions acc ids idx st,
    let y := execute_actions E sp task step bs acc ids idx actions st in
    orderly_dispatches actions ids (dispatched (transcript y))
    /\ Forall (fun ev => marks_completed ev = false) (transcript y)
    /\ (result y = Ok None ->
        Forall (fun d => succeeded (snd d) = true) (dispatched (transcript y)))
    /\ (actions <> [] -> ids = [] -> dispatched (transcript y) <> []).
Proof.
  induction actions as [|a rest IH]; intros acc ids idx st y.
  - subst y. cbn. split; [|split; [|split]].
    + split; [exists 0%nat; reflexivity|]. split; [intros id []|].
      split; [constructor|]. intros pre d post H. now destruct pre.
    + constructor.
    + constructor.
    + congruence.
  - destruct (element_seen a ids) eqn:Hseen.
    { assert (Hy : y = (Ok None, st,
                        [Log ERROR "Duplicate action element id. Action handling stops"])).
      { subst y. simpl. rewrite Hseen. reflexivity. }
      rewrite Hy. cbn. split; [|split; [|split]].
      - split; [exists 0%nat; reflexivity|]. split; [intros id []|].
        split; [constructor|]. intros pre d post H. now destruct pre.
      - repeat constructor.
      - constructor.
      - intros _ ->. unfold element_seen in Hseen. destruct (element_id a); discriminate. }
    destruct (execute_actions_unfold E sp task step bs acc ids idx a rest st Hseen)
      as (r & q & Hq & [(Ht & Hnone & Hsome & Hexn) | (Hs & Hjs & rs & acc' & st' & -> & -> & Ht & Hr)]);
      fold y in Ht |- *.
    + rewrite Ht. cbn. rewrite (inert_dispatched q Hq).
      split; [|split; [|split]].
      * split; [exists 1%nat; reflexivity|]. split; [|split].
        -- cbn. intros id Hid.
           destruct (element_id a) as [i|] eqn:Hi; [|contradiction].
           destruct Hid as [<-|[]]. now apply (element_seen_In a ids i).
        -- cbn. destruct (element_id a); repeat constructor. intros [].
        -- intros pre d post H Hpost. destruct pre as [|p pre]; inversion H; subst.
           ++ contradiction.
           ++ now destruct pre.
      * constructor; [reflexivity | now apply inert_not_completed].
      * intros Hy. fold y in Hnone. specialize (Hnone Hy).
        constructor; [|constructor]. cbn.
        unfold triggered_javascript, succeeded in *. destruct r; [|discriminate].
        now apply andb_true_iff in Hnone as [? _].
      * discriminate.
    + fold y in Hr.
      specialize (IH (acc ++ map (stamp step) rs) (add_element a ids) (S idx) st').
      cbv zeta in IH.
      set (y' := execute_actions E sp task step bs (acc ++ map (stamp step) rs)
                                 (add_element a ids) (S idx) rest st') in *.
      destruct IH as (((k & Hk) & Hfresh & Hnodup & Hlast) & Hc & Hnone & _).
      clearbody y'.
      rewrite Ht, Hr. cbn. rewrite dispatched_app, (inert_dispatched q Hq). cbn.
      assert (Hids : forall id, In id (web_ids (map fst (dispatched (transcript y')))) ->
                                ~ In id ids /\ element_id a <> Some id).
      { intros id Hid. specialize (Hfresh id Hid). unfold add_element in Hfresh.
        destruct (element_id a) as [i|]; split; try congruence.
        - intros Hin. apply Hfresh. now right.
        - intros Heq. inversion Heq; subst. apply Hfresh. now left. }
      split; [|split; [|split]].
      * split; [exists (S k); cbn [map fst firstn]; f_equal; exact Hk|]. split; [|split].
        -- intros id Hid. unfold web_ids in Hid. cbn in Hid.
           apply in_app_or in Hid as [Hid|Hid].
           ++ destruct (element_id a) as [i|] eqn:Hi; [|contradiction].
              destruct Hid as [<-|[]]. now apply (element_seen_In a ids i).
           ++ now apply Hids.
        -- unfold web_ids. cbn. destruct (element_id a) as [i|] eqn:Hi; cbn; [|exact Hnodup].
           constructor; [|exact Hnodup]. intros Hin. now destruct (Hids i Hin).
        -- intros pre d post H Hpost.
           destruct pre as [|p pre]; inversion H; subst; cbn; [split; assumption|].
           now apply (Hlast pre d post).
      * constructor; [reflexivity|]. apply Forall_app.
        split; [now apply inert_not_completed | exact Hc].
      * intros Hy. constructor; [exact Hs | now apply Hnone].
      * discriminate.
Qed.

Lemma inert_not_marked (t : list Event) :
  Forall (fun ev => inert ev = true) t -> ~ Exists (fun ev => marks_completed ev = true) t.
Proof.
  intros H He. apply inert_not_completed in H. rewrite Exists_exists in He.
  destruct He as (ev & Hin & Hev). rewrite Forall_forall in H.
  rewrite (H ev Hin) in Hev. discriminate.
Qed.

Lemma parsed_for_app {W : Type} (E : Env W) task (pre t post : list Event) actions :
  parsed_for E task t actions -> parsed_for E task (pre ++ t ++ post) actions.
Proof.
  unfold parsed_for. destruct (truthy_str (Task.navigation_goal task)); [|auto].
  intros (prompt & step_id & shots & json & raw & Hin & Hraw & Hp).
  exists prompt, step_id, shots, json, raw. split; [|now split].
  apply in_or_app. right. apply in_or_app. now left.
Qed.

Lemma dispatches_of_weaken (P Q : list Action -> Prop) (t : list Event) :
  (forall actions, P actions -> Q actions) -> dispatches_of P t -> dispatches_of Q t.
Proof.
  intros HPQ [H | (actions & Hp & H)]; [now left|].
  right. exists actions. split; [now apply HPQ | exact H].
Qed.

Lemma dispatches_of_inert (P : list Action -> Prop) (t : list Event) :
  Forall (fun ev => inert ev = true) t -> dispatches_of P t.
Proof.
  intros H. left. split; [now apply inert_dispatched | now apply inert_not_completed].
Qed.

Lemma dispatches_of_prefix (P : list Action -> Prop) (pre t : list Event) :
  Forall (fun ev => inert ev = true) pre ->
  dispatches_of P t -> dispatches_of P (pre ++ t).
Proof.
  intros Hpre [[Hd Hc] | (actions & Hp & Hne & Hds & Ho & Hm)].
  - left. rewrite dispatched_app, (inert_dispatched pre Hpre), Hd. split; [reflexivity|].
    apply Forall_app. split; [now apply inert_not_completed | exact Hc].
  - right. exists actions. rewrite dispatched_app, (inert_dispatched pre Hpre). cbn.
    repeat (split; [assumption|]). intros He. apply Hm.
    apply Exists_app in He as [He|He]; [|exact He].
    exfalso. exact (inert_not_marked pre Hpre He).
Qed.

Lemma dispatches_of_suffix (P : list Action -> Prop) (t post : list Event) :
  Forall (fun ev => inert ev = true) post ->
  dispatches_of P t -> dispatches_of P (t ++ post).
Proof.
  intros Hpost [[Hd Hc] | (actions & Hp & Hne & Hds & Ho & Hm)].
  - left. rewrite dispatched_app, (inert_dispatched post Hpost), Hd. split; [reflexivity|].
    apply Forall_app. split; [exact Hc | now apply inert_not_completed].
  - right. exists actions. rewrite dispatched_app, (inert_dispatched post Hpost), app_nil_r.
    repeat (split; [assumption|]). intros He. apply Hm.
    apply Exists_app in He as [He|He]; [exact He|].
    exfalso. exact (inert_not_marked post Hpost He).
Qed.

Lemma step_dispatches_inert {W : Type} (E : Env W) task (t : list Event) :
  Forall (fun ev => inert ev = true) t -> step_dispatches E task t.
Proof. apply dispatches_of_inert. Qed.

Lemma step_dispatches_prefix {W : Type} (E : Env W) task (pre t : list Event) :
  Forall (fun ev => inert ev = true) pre ->
  step_dispatches E task t -> step_dispatches E task (pre ++ t).
Proof.
  intros Hpre H. apply dispatches_of_prefix; [exact Hpre|].
  revert H. apply dispatches_of_weaken. intros actions Hp.
  rewrite <- (app_nil_r t). now apply parsed_for_app.
Qed.

Lemma step_dispatches_suffix {W : Type} (E : Env W) task (t post : list Event) :
  Forall (fun ev => inert ev = true) post ->
  step_dispatches E task t -> step_dispatches E task (t ++ post).
Proof.
  intros Hpost H. apply dispatches_of_suffix; [exact Hpost|].
  revert H. apply dispatches_of_weaken. intros actions Hp.
  now apply (parsed_for_app E task [] t post).
Qed.

(** What follows the reply of the LLM works on the actions parsed from
    it. *)
Lemma step_dispatches_recorded {W : Type} (E : Env W) task (pre t : list Event) actions :
  Forall (fun ev => inert ev = true) pre ->
  parsed_for E task pre actions ->
  dispatches_of (eq actions) t ->
  step_dispatches E task (pre ++ t).
Proof.
  intros Hpre Hp H. apply dispatches_of_prefix; [exact Hpre|].
  revert H. apply dispatches_of_weaken. intros actions' <-.
  rewrite <- (app_nil_l (pre ++ t)). now apply parsed_for_app.
Qed.

Lemma bind_inert_prefix {S A B : Type} (Phi : list Event -> Prop) (Q : A -> Prop)
      (m : M S A) (f : A -> M S B) :
  (forall pre t, Forall (fun ev => inert ev = true) pre -> Phi t -> Phi (pre ++ t)) ->
  (forall t, Forall (fun ev => inert ev = true) t -> Phi t) ->
  emits (fun ev => inert ev = true) m ->
  (forall s a, result (m s) = Ok a -> Q a) ->
  (forall a, Q a -> forall s, Phi (transcript (f a s))) ->
  forall s, Phi (transcript (bind m f s)).
Proof.
  intros Hpre Hinert Hm HQ Hf s. unfold bind. specialize (Hm s). specialize (HQ s).
  destruct (m s) as [[[a|e] s1] t1]; unfold transcript in Hm; simpl in Hm.
  - specialize (Hf a (HQ a eq_refl) s1). destruct (f a s1) as [[r s2] t2].
    cbn in *. now apply Hpre.
  - cbn. now apply Hinert.
Qed.

Lemma bind_inert_recorded {S A B : Type} (Phi : list Event -> Prop)
      (Q : A -> list Event -> Prop) (m : M S A) (f : A -> M S B) :
  (forall t, Forall (fun ev => inert ev = true) t -> Phi t) ->
  emits (fun ev => inert ev = true) m ->
  (forall s a, result (m s) = Ok a -> Q a (transcript (m s))) ->
  (forall a pre, Forall (fun ev => inert ev = true) pre -> Q a pre ->
                 forall s, Phi (pre ++ transcript (f a s))) ->
  forall s, Phi (transcript (bind m f s)).
Proof.
  intros Hinert Hm HQ Hf s. unfold bind. specialize (Hm s). specialize (HQ s).
  destruct (m s) as [[[a|e] s1] t1]; unfold transcript in Hm; simpl in Hm.
  - specialize (Hf a t1 Hm (HQ a eq_refl) s1). destruct (f a s1) as [[r s2] t2].
    exact Hf.
  - cbn. now apply Hinert.
Qed.

Lemma update_step_inert {W : Type} (E : Env W) step st out il ri :
  st <> Some StepStatus.completed ->
  emits (fun ev => inert ev = true) (update_step E step st out il ri).
Proof.
  intros Hst. unfold update_step.
  destruct (step_validate_update E step st out il); [apply emits_raise|].
  apply emits_bind; [intros s; repeat constructor|].
  intros _. apply emits_call. intros r.
  destruct st as [[]|], out, il, ri; try reflexivity; congruence.
Qed.

Lemma build_prompt_inert {W : Type} (E : Env W) task step bs :
  emits (fun ev => inert ev = true) (_build_and_record_step_prompt E task step bs).
Proof.
  unfold _build_and_record_step_prompt. repeat emits_step; reflexivity.
Qed.

Lemma filter_wait_actions_nonempty (actions : list Action) :
  actions <> [] -> filter_wait_actions actions <> [].
Proof.
  intros Hne. unfold filter_wait_actions.
  destruct (skips_wait_actions actions) eqn:Hskip; [|exact Hne].
  unfold skips_wait_actions, wait_actions_to_skip in Hskip.
  destruct (1 <? List.length actions)%nat; [|discriminate].
  apply andb_true_iff in Hskip as [_ Hlt]. apply Nat.ltb_lt in Hlt.
  intros Hnil.
  assert (Hlen : (List.length (filter is_wait actions)
                  + List.length (filter (fun a => negb (is_wait a)) actions)
                  = List.length actions)%nat).
  { clear. induction actions as [|a l IH]; simpl; auto.
    destruct (is_wait a); simpl; lia. }
  rewrite Hnil in Hlen. simpl in Hlen. lia.
Qed.

Lemma agent_step_try_dispatches {W : Type} (E : Env W) task step bs :
  forall s, step_dispatches E task (transcript (agent_step_try E task step bs s)).
Proof.
  unfold agent_step_try.
  pose proof (step_dispatches_prefix E task) as Hpre.
  pose proof (step_dispatches_inert E task) as Hin.
  apply (bind_inert_prefix _ (fun _ => True)); auto; [apply emits_LOG; reflexivity|].
  intros _ _.
  apply (bind_inert_prefix _ (fun _ => True)); auto;
    [apply emits_lift, update_step_inert; discriminate|].
  intros step1 _.
  apply (bind_inert_prefix _ (fun _ => True)); auto; [apply emits_silent; reflexivity|].
  intros _ _.
  apply (bind_inert_prefix _ (fun _ => True)); auto; [apply emits_lift, build_prompt_inert|].
  intros sp _.
  apply (bind_inert_prefix _ (fun _ => True)); auto; [apply emits_silent; reflexivity|].
  intros _ _.
  apply (bind_inert_recorded _ (fun ra pre => parsed_for E task pre (snd ra))); auto.
  { destruct (truthy_str (Task.navigation_goal task)); repeat emits_step; reflexivity. }
  { intros s ra. unfold parsed_for.
    destruct (truthy_str (Task.navigation_goal task)).
    - unfold bind, lift, call, set_out, of_res, ret, raise.
      destruct (LLM_API_HANDLER E _ _ _ (fst s)) as [[json|e] w1]; [|discriminate].
      cbn. destruct (assoc json "actions") as [raw|] eqn:Hraw; [|discriminate].
      destruct (parse_actions E task raw) as [actions|e] eqn:Hp; [|discriminate].
      cbn. intros H. inversion H; subst.
      do 5 eexists. split; [left; reflexivity|]. split; eassumption.
    - cbn. intros H. inversion H; subst. reflexivity. }
  intros ra pre Hrecorded Hra s.
  apply (step_dispatches_recorded E task pre _ (snd ra)); auto.
  clear Hpre Hin Hrecorded Hra pre. revert s.
  pose proof (dispatches_of_prefix (eq (snd ra))) as Hpre.
  apply (bind_inert_prefix _ (fun _ => True)); auto;
    [apply dispatches_of_inert | apply emits_silent; reflexivity|].
  intros _ _. clear Hpre.
  destruct (snd ra) as [|a0 actions0] eqn:Hactions.
  - intros s. apply dispatches_of_inert.
    revert s. change (emits (fun ev => inert ev = true)
                            (LOG INFO "No actions to execute, marking step as failed" ;;
                             d <- get_out ;;
                             step0 <- lift (update_step E step1 (Some StepStatus.failed)
                                                        (Some (to_agent_step_output E d))
                                                        None None) ;;
                             set_step step0 ;;
                             set_out (fun _ => {| d_scraped_page := Some (fst sp);
                                                  d_extract_action_prompt := Some (snd sp);
                                                  d_llm_response := fst ra;
                                                  d_actions := Some [];
                                                  d_action_results := Some [];
                                                  d_actions_and_results := Some [] |}) ;;
                             ret (step0, {| d_scraped_page := Some (fst sp);
                                            d_extract_action_prompt := Some (snd sp);
                                            d_llm_response := fst ra;
                                            d_actions := Some [];
                                            d_action_results := Some [];
                                            d_actions_and_results := Some [] |}))).
    apply emits_bind; [apply emits_LOG; reflexivity | intros _].
    apply emits_bind; [apply emits_silent; reflexivity | intros d].
    apply emits_bind; [apply emits_lift, update_step_inert; discriminate | intros s1].
    repeat emits_step.
  - pose proof (dispatches_of_prefix (eq (a0 :: actions0))) as Hpre.
    pose proof (dispatches_of_inert (eq (a0 :: actions0))) as Hin.
    apply (bind_inert_prefix _ (fun _ => True)); auto; [apply emits_LOG; reflexivity|].
    intros _ _.
    apply (bind_inert_prefix _ (fun _ => True)); auto; [apply emits_silent; reflexivity|].
    intros _ _.
    apply (bind_inert_prefix _ (fun _ => True)); auto.
    { destruct (skips_wait_actions _); repeat emits_step; reflexivity. }
    intros _ _.
    apply (bind_inert_prefix _ (fun _ => True)); auto; [apply emits_silent; reflexivity|].
    intros _ _ s.
    match goal with
    | |- dispatches_of _ (transcript ?m) => remember m as x eqn:Hx
    end.
    unfold bind at 1 in Hx.
    destruct (execute_actions_orderly E (fst sp) task step1 bs
                                      (filter_wait_actions (a0 :: actions0)) [] [] 0%nat s)
      as (Ho & Hc & Hnone & Hne).
    assert (Hds : dispatched
                    (transcript (execute_actions E (fst sp) task step1 bs [] [] 0%nat
                                                 (filter_wait_actions (a0 :: actions0)) s))
                  <> [])
      by (apply Hne; [apply filter_wait_actions_nonempty; discriminate | reflexivity]).
    clear Hne.
    destruct (execute_actions E (fst sp) task step1 bs [] [] 0%nat
                              (filter_wait_actions (a0 :: actions0)) s)
      as [[[[v|]|e] s1] t1]; cbn in Ho, Hc, Hnone, Hds.
    + subst x. cbn. rewrite app_nil_r. right. exists (a0 :: actions0).
      repeat (split; [first [assumption | discriminate | reflexivity]|]).
      intros He. exfalso. rewrite Exists_exists in He. destruct He as (ev & Hi & Hev).
      rewrite Forall_forall in Hc. rewrite (Hc ev Hi) in Hev. discriminate.
    + match type of Hx with
      | context [match ?k s1 with _ => _ end] =>
          assert (Hpost : Forall (fun ev => is_dispatch ev = false) (transcript (k s1)));
          [|destruct (k s1) as [[r2 s2] t2]]
      end.
      { apply emits_bind; [apply emits_LOG; reflexivity | intros _].
        apply emits_bind; [apply emits_silent; reflexivity | intros d].
        apply emits_bind; [apply emits_lift, emits_update_step; reflexivity | intros s2].
        apply emits_ret. }
      subst x. cbn in Hpost |- *. right. exists (a0 :: actions0).
      assert (Hdp : dispatched t2 = []).
      { clear - Hpost. induction Hpost as [|ev t Hev _ IH]; simpl; auto.
        destruct ev; auto. discriminate. }
      rewrite dispatched_app, Hdp, app_nil_r.
      repeat (split; [first [assumption | discriminate | reflexivity]|]).
      intros _. now apply Hnone.
    + subst x. cbn. right. exists (a0 :: actions0).
      repeat (split; [first [assumption | discriminate | reflexivity]|]).
      intros He. exfalso. rewrite Exists_exists in He. destruct He as (ev & Hi & Hev).
      rewrite Forall_forall in Hc. rewrite (Hc ev Hi) in Hev. discriminate.
Qed.

Lemma agent_step_dispatches_core {W : Type} (E : Env W) task step bs org w :
  step_dispatches E task (transcript (agent_step E task step bs org w)).
Proof.
  unfold agent_step, try_except.
  pose proof (agent_step_try_dispatches E task step bs
                (w, {| l_step := step; l_out := empty_output |})) as H.
  destruct (agent_step_try E task step bs _) as [[[v|e] s1] t1]; [exact H|].
  destruct (isinstance_Exception e); [|exact H].
  assert (Hh : Forall (fun ev => inert ev = true) (transcript (agent_step_except E e s1))).
  { clear. revert s1.
    change (emits (fun ev => inert ev = true) (agent_step_except E e)).
    unfold agent_step_except.
    apply emits_bind; [apply emits_LOG; reflexivity | intros _].
    apply emits_bind; [apply emits_silent; reflexivity | intros l].
    apply emits_bind; [apply emits_lift, update_step_inert; discriminate | intros s2].
    apply emits_ret. }
  destruct (agent_step_except E e s1) as [[r s2] t2]. cbn in Hh |- *.
  now apply step_dispatches_suffix.
Qed.

(** X1: in one run of [agent_step] no two dispatched web actions target
    the same element: the element ids of the actions handed to the action
    handler are pairwise distinct. *)
Theorem agent_step_never_repeats_an_element {W : Type} (E : Env W) task step bs org w :
  NoDup (web_ids (map fst (dispatched (transcript (agent_step E task step bs org w))))).
Proof.
  destruct (agent_step_dispatches_core E task step bs org w)
    as [[Hd _] | (actions & _ & _ & _ & (_ & _ & Hnd & _) & _)].
  - rewrite Hd. constructor.
  - exact Hnd.
Qed.

(** X2: one run of [agent_step] dispatches nothing, or it dispatches, in
    order and without gaps, the first actions (at least one) of an action
    list after the WAIT filter.  With a navigation goal that list is what
    [parse_actions] returned for the "actions" entry of a reply the LLM
    gave in this run; without one it is the single COMPLETE action. *)
Theorem agent_step_dispatches_in_order {W : Type} (E : Env W) task step bs org w :
  dispatched (transcript (agent_step E task step bs org w)) = []
  \/ exists actions k,
       parsed_for E task (transcript (agent_step E task step bs org w)) actions
       /\ map fst (dispatched (transcript (agent_step E task step bs org w)))
          = firstn (S k) (filter_wait_actions actions).
Proof.
  destruct (agent_step_dispatches_core E task step bs org w)
    as [[Hd _] | (actions & Hp & _ & Hne & ((k & Hk) & _) & _)]; [now left|].
  right. exists actions. destruct k as [|k].
  - exfalso. apply Hne. destruct (dispatched _); [reflexivity | discriminate].
  - now exists k.
Qed.

(** X3: in one run of [agent_step] every dispatched action that is
    followed by another dispatch succeeded (its last result reports
    success) and did not trigger javascript: a failure, an exception or a
    javascript trigger ends the dispatching. *)
Theorem agent_step_stops_at_failure_or_javascript {W : Type} (E : Env W)
        task step bs org w pre d post :
  dispatched (transcript (agent_step E task step bs org w)) = pre ++ d :: post ->
  post <> [] ->
  succeeded (snd d) = true /\ triggered_javascript (snd d) = false.
Proof.
  intros Hd Hpost.
  destruct (agent_step_dispatches_core E task step bs org w)
    as [[Hn _] | (actions & _ & _ & _ & (_ & _ & _ & Hl) & _)].
  - rewrite Hn in Hd. destruct pre; discriminate.
  - exact (Hl pre d post Hd Hpost).
Qed.

(** X4: when a run of [agent_step] writes the status completed to a
    step, it dispatched at least one action and the last result of every
    dispatched action reports success. *)
Theorem agent_step_completed_after_successes {W : Type} (E : Env W) task step bs org w :
  Exists (fun ev => marks_completed ev = true)
         (transcript (agent_step E task step bs org w)) ->
  dispatched (transcript (agent_step E task step bs org w)) <> []
  /\ Forall (fun d => succeeded (snd d) = true)
            (dispatched (transcript (agent_step E task step bs org w))).
Proof.
  intros He.
  destruct (agent_step_dispatches_core E task step bs org w)
    as [[_ Hc] | (actions & _ & _ & Hne & _ & Hm)].
  - exfalso. rewrite Exists_exists in He. destruct He as (ev & Hi & Hev).
    rewrite Forall_forall in Hc. rewrite (Hc ev Hi) in Hev. discriminate.
  - split; [exact Hne | exact (Hm He)].
Qed.

Lemma update_step_step_event {W : Type} (E : Env W) llm step st out il ri :
  emits (fun ev => step_event llm ev = true) (update_step E step st out il ri).
Proof. apply emits_update_step; reflexivity. Qed.

Lemma record_artifacts_step_event {W : Type} (E : Env W) llm task step bs :
  emits (fun ev => step_event llm ev = true) (record_artifacts_after_action E task step bs).
Proof. unfold record_artifacts_after_action. repeat emits_step; reflexivity. Qed.

Lemma build_prompt_step_event {W : Type} (E : Env W) llm task step bs :
  emits (fun ev => step_event llm ev = true) (_build_and_record_step_prompt E task step bs).
Proof. unfold _build_and_record_step_prompt. repeat emits_step; reflexivity. Qed.

Lemma execute_actions_step_event {W : Type} (E : Env W) llm sp task step bs :
  forall actions acc ids idx,
    emits (fun ev => step_event llm ev = true)
          (execute_actions E sp task step bs acc ids idx actions).
Proof.
  induction actions as [|action rest IH]; intros acc ids idx; simpl.
  - apply emits_ret.
  - destruct (element_seen action ids); [repeat emits_step; reflexivity|].
    apply emits_bind; [apply emits_lift, emits_call; reflexivity | intros results].
    apply emits_bind; [apply store_results_silent | intros _].
    apply emits_bind; [apply emits_lift, emits_call; reflexivity | intros _].
    apply emits_bind; [apply emits_lift, record_artifacts_step_event | intros _].
    apply emits_bind; [apply store_results_silent | intros _].
    apply emits_bind; [apply emits_silent; reflexivity | intros _].
    destruct (results_succeeded _).
    + apply emits_bind; [apply emits_LOG; reflexivity | intros _].
      destruct (last_javascript_triggered _); [repeat emits_step; reflexivity | apply IH].
    + apply emits_bind; [apply emits_LOG; reflexivity | intros _].
      apply emits_bind; [apply emits_silent; reflexivity | intros d].
      apply emits_bind; [| intros ?; apply emits_ret].
      apply emits_lift, update_step_step_event.
Qed.

Lemma agent_step_try_step_event {W : Type} (E : Env W) task step bs :
  emits (fun ev => step_event (truthy_str (Task.navigation_goal task)) ev = true)
        (agent_step_try E task step bs).
Proof.
  unfold agent_step_try.
  apply emits_bind; [apply emits_LOG; reflexivity | intros _].
  apply emits_bind; [apply emits_lift, update_step_step_event | intros step1].
  apply emits_bind; [apply emits_silent; reflexivity | intros _].
  apply emits_bind; [apply emits_lift, build_prompt_step_event | intros sp].
  apply emits_bind; [apply emits_silent; reflexivity | intros _].
  apply emits_bind.
  { destruct (truthy_str (Task.navigation_goal task)); repeat emits_step; reflexivity. }
  intros ra.
  apply emits_bind; [apply emits_silent; reflexivity | intros _].
  destruct (snd ra) as [|a0 actions0].
  - repeat emits_step; try reflexivity. apply update_step_step_event.
  - apply emits_bind; [apply emits_LOG; reflexivity | intros _].
    apply emits_bind; [apply emits_silent; reflexivity | intros _].
    apply emits_bind; [destruct (skips_wait_actions _); repeat emits_step; reflexivity | intros _].
    apply emits_bind; [apply emits_silent; reflexivity | intros _].
    apply emits_bind; [apply execute_actions_step_event | ].
    intros [v|]; repeat emits_step; try reflexivity. apply update_step_step_event.
Qed.

Lemma agent_step_step_event {W : Type} (E : Env W) task step bs organization :
  emits (fun ev => step_event (truthy_str (Task.navigation_goal task)) ev = true)
        (agent_step E task step bs organization).
Proof.
  intros w. unfold agent_step.
  assert (H : emits (fun ev => step_event (truthy_str (Task.navigation_goal task)) ev = true)
                    (try_except (agent_step_try E task step bs) isinstance_Exception
                                (agent_step_except E))).
  { apply emits_try_except; [apply agent_step_try_step_event | intros e].
    unfold agent_step_except.
    apply emits_bind; [apply emits_LOG; reflexivity | intros _].
    apply emits_bind; [apply emits_silent; reflexivity | intros l].
    apply emits_bind; [apply emits_lift, update_step_step_event | intros fs; apply emits_ret]. }
  specialize (H (w, {| l_step := step; l_out := empty_output |})).
  destruct (try_except _ _ _ _) as [[r s] t]. exact H.
Qed.

(** X5: for a task without navigation goal [agent_step] never calls the
    LLM, and the only action it can dispatch is the COMPLETE action with
    the reasoning [Task has no navigation goal.] and the task's data
    extraction goal. *)
Theorem agent_step_without_navigation_goal {W : Type} (E : Env W) task step bs org w :
  truthy_str (Task.navigation_goal task) = false ->
  Forall (fun ev => is_llm_call ev = false) (transcript (agent_step E task step bs org w))
  /\ (dispatched (transcript (agent_step E task step bs org w)) = []
      \/ map fst (dispatched (transcript (agent_step E task step bs org w)))
         = [CompleteAction "Task has no navigation goal." (Task.data_extraction_goal task)]).
Proof.
  intros Hg. split.
  - pose proof (agent_step_step_event E task step bs org w) as H. rewrite Hg in H.
    eapply Forall_impl; [|exact H]. intros [] Hev; try reflexivity; discriminate.
  - destruct (agent_step_dispatches_core E task step bs org w)
      as [[Hd _] | (actions & Hp & _ & Hne & ((k & Hk) & _) & _)]; [now left|].
    right. unfold parsed_for in Hp. rewrite Hg in Hp. subst actions.
    rewrite Hk. destruct k as [|k].
    + exfalso. apply Hne. destruct (dispatched _); [reflexivity | discriminate].
    + cbn. now destruct k.
Qed.

(** X7: [agent_step] stays within its step: it never creates or updates
    a task, never creates a step, never posts a webhook, never captures
    analytics and never opens or cleans up a browser session. *)
Theorem agent_step_stays_within_step {W : Type} (E : Env W) task step bs org w :
  Forall (fun ev => leaves_step ev = false) (transcript (agent_step E task step bs org w)).
Proof.
  pose proof (agent_step_step_event E task step bs org w) as H.
  eapply Forall_impl; [|exact H]. intros [] Hev; try reflexivity; discriminate.
Qed.

Lemma agent_step_stops_at_failure_or_javascript_witness :
  succeeded (Ok [Sample.outcome true None]) = true
  /\ triggered_javascript (Ok [Sample.outcome true None]) = false.
Proof.
  apply (agent_step_stops_at_failure_or_javascript
           (Runs.E [Sample.click 1; Sample.click 2]) Sample.task0 Sample.step0
           Sample.browser None Sample.db0
           [] (Sample.click 1, Ok [Sample.outcome true None])
           [(Sample.click 2, Ok [Sample.outcome true None])]).
  - vm_compute. reflexivity.
  - discriminate.
Defined.

Lemma agent_step_completed_after_successes_witness :
  dispatched (transcript (Runs.agent_step_on [Sample.click 1; Sample.click 2])) <> []
  /\ Forall (fun d => succeeded (snd d) = true)
            (dispatched (transcript (Runs.agent_step_on [Sample.click 1; Sample.click 2]))).
Proof.
  apply (agent_step_completed_after_successes
           (Runs.E [Sample.click 1; Sample.click 2]) Sample.task0 Sample.step0
           Sample.browser None Sample.db0).
  vm_compute. repeat (first [apply Exists_cons_hd; reflexivity | apply Exists_cons_tl]).
Defined.

Lemma agent_step_without_navigation_goal_witness :
  Forall (fun ev => is_llm_call ev = false)
         (transcript (agent_step (Runs.E []) Runs.extraction_only Sample.step0
                                 Sample.browser None Sample.db0))
  /\ (dispatched (transcript (agent_step (Runs.E []) Runs.extraction_only Sample.step0
                                         Sample.browser None Sample.db0)) = []
      \/ map fst (dispatched (transcript (agent_step (Runs.E []) Runs.extraction_only
                                                     Sample.step0 Sample.browser None
                                                     Sample.db0)))
         = [CompleteAction "Task has no navigation goal."
                           (Task.data_extraction_goal Runs.extraction_only)]).
Proof.
  apply (agent_step_without_navigation_goal (Runs.E []) Runs.extraction_only Sample.step0
                                            Sample.browser None Sample.db0).
  reflexivity.
Defined.

(** ** The webhook *)

(** X8: a POST of [execute_task_webhook] happens only with a non-empty api
    key and a task that has a webhook URL.  It goes to the webhook URL of
    the task as read back from persistence, carries the JSON of that
    task's response as payload, and its headers hold the decimal
    timestamp of the clock reading and the signature of the payload
    under the api key.  It is the only POST of the call. *)
Theorem webhook_post_is_signed {W : Type} (E : Env W) task last_step api_key w
        url payload headers reply :
  In (RequestsPost url payload headers reply)
     (transcript (execute_task_webhook E task last_step api_key w)) ->
  (exists key task_from_db now screenshot_url recording_url,
      nonempty api_key = Some key
      /\ nonempty (Task.webhook_callback_url task) <> None
      /\ In (DbGetTask (Task.task_id task) (Task.organization_id task)
                       (Ok (Some task_from_db)))
            (transcript (execute_task_webhook E task last_step api_key w))
      /\ nonempty (Task.webhook_callback_url task_from_db) = Some url
      /\ In (UtcNow (Ok now)) (transcript (execute_task_webhook E task last_step api_key w))
      /\ payload = task_response_json E task_from_db screenshot_url recording_url
      /\ headers = webhook_headers (str_of_int now)
                                   (generate_skyvern_signature E payload key))
  /\ filter (fun ev => is_post ev)
            (transcript (execute_task_webhook E task last_step api_key w))
     = [RequestsPost url payload headers reply].
Proof.
  remember (execute_task_webhook E task last_step api_key w) as x eqn:Hx.
  unfold execute_task_webhook, bind, call, LOG, ret, raise, try_except in Hx.
  run_in Hx; subst x; in_events; (split; [|reflexivity]);
    do 5 eexists; (split; [reflexivity|]); (split; [congruence|]);
    cbn; eauto 20.
Qed.

Lemma webhook_post_is_signed_witness :
  (exists key task_from_db now screenshot_url recording_url,
      nonempty (Some "key") = Some key
      /\ nonempty (Task.webhook_callback_url Sample.task0) <> None
      /\ In (DbGetTask "task_0" (Some "org_1") (Ok (Some task_from_db)))
            (transcript (execute_task_webhook Sample.E Sample.task0 Sample.step0
                                              (Some "key") Sample.db0))
      /\ nonempty (Task.webhook_callback_url task_from_db) = Some "https://hook"
      /\ In (UtcNow (Ok now))
            (transcript (execute_task_webhook Sample.E Sample.task0 Sample.step0
                                              (Some "key") Sample.db0))
      /\ "task_0" = task_response_json Sample.E task_from_db screenshot_url recording_url
      /\ webhook_headers "1700000000" "task_0key"
         = webhook_headers (str_of_int now)
                           (generate_skyvern_signature Sample.E "task_0" key))
  /\ filter (fun ev => is_post ev)
            (transcript (execute_task_webhook Sample.E Sample.task0 Sample.step0
                                              (Some "key") Sample.db0))
     = [RequestsPost "https://hook" "task_0" (webhook_headers "1700000000" "task_0key")
                     (Ok Sample.server_error)].
Proof.
  apply (webhook_post_is_signed Sample.E Sample.task0 Sample.step0 (Some "key") Sample.db0
                                "https://hook" "task_0"
                                (webhook_headers "1700000000" "task_0key")
                                (Ok Sample.server_error)).
  vm_compute. do 5 right. left. reflexivity.
Defined.

Lemma reaches_here (rest : list Event) : reaches rest rest.
Proof. exists []. split; [constructor | reflexivity]. Qed.

Lemma reaches_skip (ev : Event) (t rest : list Event) :
  off_stage ev = true -> reaches t rest -> reaches (ev :: t) rest.
Proof.
  intros Hev (a & Ha & ->). exists (ev :: a). split; [now constructor | reflexivity].
Qed.

Lemma off_stage_no_post (t : list Event) :
  Forall (fun ev => off_stage ev = true) t -> Forall (fun ev => is_post ev = false) t.
Proof.
  apply Forall_impl. intros ev H. destruct ev; try reflexivity; discriminate.
Qed.

(** What comes before the first event of a kind in [p ++ rest], when [p]
    has none of that kind, starts with [p]. *)
Lemma prefix_before (kind : Event -> bool) (p rest t1 : list Event) ev t2 :
  Forall (fun e => kind e = false) p ->
  kind ev = true ->
  p ++ rest = t1 ++ ev :: t2 ->
  exists t1', t1 = p ++ t1'.
Proof.
  intros Hp Hev. revert t1. induction Hp as [|e p He _ IH]; intros t1 Heq.
  - now exists t1.
  - destruct t1 as [|e1 t1]; simpl in Heq; inversion Heq; subst.
    + rewrite Hev in He. discriminate.
    + destruct (IH t1 H1) as (t1' & ->). now exists t1'.
Qed.

Lemma cleanup_transcript {W : Type} (E : Env W) close last_step task w :
  exists r q,
    transcript (cleanup_browser_and_create_artifacts E close last_step task w)
    = CleanupForTask (Task.task_id task) close r :: q
    /\ Forall (fun ev => off_stage ev = true) q.
Proof.
  remember (cleanup_browser_and_create_artifacts E close last_step task w) as x eqn:Hx.
  unfold cleanup_browser_and_create_artifacts, new_artifact, bind, call, LOG, ret in Hx.
  run_in Hx; subst x; cbn; do 2 eexists; (split; [reflexivity|]); repeat constructor.
Qed.

(** A run of [send_task_response] makes no POST, or it is: the read of the
    task, then the cleanup for the task read, then the wait for the
    uploads of that task, which returns, then the webhook. *)
Lemma send_task_response_stages {W : Type} (E : Env W) task last_step api_key close w :
  let t := transcript (send_task_response E task last_step api_key close w) in
  Forall (fun ev => is_post ev = false) t
  \/ exists refreshed rest r q tw,
      t = DbGetTask (Task.task_id task) (Task.organization_id task) (Ok (Some refreshed))
          :: rest
      /\ reaches rest (CleanupForTask (Task.task_id refreshed) close r
                       :: q ++ WaitForUpload (Task.task_id refreshed) (Ok tt) :: tw)
      /\ Forall (fun ev => off_stage ev = true) q.
Proof.
  intros t. subst t.
  remember (send_task_response E task last_step api_key close w) as x eqn:Hx.
  unfold send_task_response, new_artifact in Hx.
  unfold bind, call, LOG, ret, raise, try_except in Hx.
  run_in Hx; try (subst x; left; solve [repeat constructor]).
  all: match type of Hx with
       | context [cleanup_browser_and_create_artifacts ?E' ?c ?l ?t ?w'] =>
           destruct (cleanup_transcript E' c l t w') as (? & q & Hq & Hoff);
           destruct (cleanup_browser_and_create_artifacts E' c l t w') as [[[[]|?] ?] tc];
           cbn in Hq; subst tc
       end.
  all: run_in Hx.
  all: try match type of Hx with
       | context [execute_task_webhook ?E' ?t ?l ?k ?w'] =>
           destruct (execute_task_webhook E' t l k w') as [[? ?] ?]
       end.
  all: subst x; cbn [transcript snd fst app];
    repeat match goal with u : unit |- _ => destruct u end.
  all: first
         [ right; do 5 eexists; split; [reflexivity|]; split; [|exact Hoff];
           cbn [app]; repeat (apply reaches_skip; [reflexivity|]); apply reaches_here
         | left; rewrite ?app_nil_r;
           repeat first [ apply Forall_cons; [reflexivity|]
                        | apply Forall_app; split
                        | apply Forall_nil
                        | apply off_stage_no_post; exact Hoff ] ].
Qed.

(** X9: in a run of [send_task_response] a webhook POST comes only after
    the task was read again from the database, the browser session of
    the task read was cleaned up with the caller's close flag and, after
    that, the wait for the artifact uploads of that same task returned
    normally. *)
Theorem send_task_response_posts_after_cleanup_and_uploads {W : Type} (E : Env W)
        task last_step api_key close w t1 url payload headers reply t2 :
  transcript (send_task_response E task last_step api_key close w)
  = t1 ++ RequestsPost url payload headers reply :: t2 ->
  exists refreshed a r b c,
    t1 = DbGetTask (Task.task_id task) (Task.organization_id task) (Ok (Some refreshed))
         :: a ++ CleanupForTask (Task.task_id refreshed) close r
         :: b ++ WaitForUpload (Task.task_id refreshed) (Ok tt) :: c.
Proof.
  intros Ht.
  destruct (send_task_response_stages E task last_step api_key close w)
    as [Hnone | (refreshed & rest & r & q & tw & Hrun & (a & Ha & ->) & Hq)].
  - exfalso. rewrite Ht in Hnone. apply Forall_elt in Hnone. discriminate.
  - rewrite Ht in Hrun. clear Ht.
    destruct (prefix_before
                is_post
                (DbGetTask (Task.task_id task) (Task.organization_id task)
                           (Ok (Some refreshed))
                 :: a ++ CleanupForTask (Task.task_id refreshed) close r
                 :: q ++ [WaitForUpload (Task.task_id refreshed) (Ok tt)])
                tw t1 (RequestsPost url payload headers reply) t2)
      as (c & ->).
    + constructor; [reflexivity|]. apply Forall_app. split; [now apply off_stage_no_post|].
      constructor; [reflexivity|]. apply Forall_app. split; [now apply off_stage_no_post|].
      repeat constructor.
    + reflexivity.
    + rewrite Hrun. cbn. rewrite <- !app_assoc. cbn. rewrite <- !app_assoc. reflexivity.
    + exists refreshed, a, r, q, c. cbn. rewrite <- !app_assoc. cbn.
      rewrite <- !app_assoc. reflexivity.
Qed.

Lemma send_task_response_posts_after_cleanup_and_uploads_witness :
  exists refreshed a r b c,
    firstn 15 (transcript (send_task_response Sample.E Sample.task0 Sample.step0
                                              (Some "key") true Sample.db0))
    = DbGetTask (Task.task_id Sample.task0) (Task.organization_id Sample.task0)
                (Ok (Some refreshed))
      :: a ++ CleanupForTask (Task.task_id refreshed) true r
      :: b ++ WaitForUpload (Task.task_id refreshed) (Ok tt) :: c.
Proof.
  apply (send_task_response_posts_after_cleanup_and_uploads
           Sample.E Sample.task0 Sample.step0 (Some "key") true Sample.db0
           (firstn 15 (transcript (send_task_response Sample.E Sample.task0 Sample.step0
                                                      (Some "key") true Sample.db0)))
           "https://hook" "task_0" (webhook_headers "1700000000" "task_0key")
           (Ok Sample.server_error)
           (skipn 16 (transcript (send_task_response Sample.E Sample.task0 Sample.step0
                                                     (Some "key") true Sample.db0)))).
  vm_compute. reflexivity.
Defined.

(** X10: when the task cannot be read back, because persistence has no
    such task or the read raises an [Exception], [send_task_response]
    raises [TaskNotFound] for the task, chained to the cause, after
    logging the failure; it captures no analytics, touches no browser and
    sends nothing. *)
Theorem send_task_response_task_not_found {W : Type} (E : Env W)
        task last_step api_key close w r w1 :
  db_get_task E (Task.task_id task) (Task.organization_id task) w = (r, w1) ->
  (forall refreshed, r <> Ok (Some refreshed)) ->
  (forall e, r = Raise e -> isinstance_Exception e = true) ->
  let x := send_task_response E task last_step api_key close w in
  result x = Raise (RaiseFrom (TaskNotFound (Task.task_id task))
                              match r with
                              | Raise e => e
                              | Ok _ => TaskNotFound (Task.task_id task)
                              end)
  /\ transcript x
     = DbGetTask (Task.task_id task) (Task.organization_id task) r
       :: repeat (Log ERROR "Failed to get task from db when sending task response")
                 match r with Raise _ => 1%nat | Ok _ => 2%nat end
  /\ final x = w1.
Proof.
  intros Hdb Hsome Hexn x. subst x.
  remember (send_task_response E task last_step api_key close w) as x eqn:Hx.
  unfold send_task_response, bind, try_except, call, LOG, raise in Hx.
  rewrite Hdb in Hx. destruct r as [[refreshed|]|e].
  - exfalso. exact (Hsome refreshed eq_refl).
  - cbn in Hx. subst x. repeat split.
  - cbn in Hx. rewrite (Hexn e eq_refl) in Hx. subst x. repeat split.
Qed.

Lemma send_task_response_task_not_found_witness :
  let x := send_task_response Sample.E Sample.task0 Sample.step0 (Some "key") true
                              (Sample.db [Sample.step0] Sample.task0 (Some 0%nat)) in
  result x = Raise (RaiseFrom (TaskNotFound "task_0") Mem.down)
  /\ transcript x
     = DbGetTask "task_0" (Some "org_1") (Raise Mem.down)
       :: repeat (Log ERROR "Failed to get task from db when sending task response") 1
  /\ final x = Sample.db [Sample.step0] Sample.task0 (Some 0%nat).
Proof.
  apply (send_task_response_task_not_found
           Sample.E Sample.task0 Sample.step0 (Some "key") true
           (Sample.db [Sample.step0] Sample.task0 (Some 0%nat))
           (Raise Mem.down) (Sample.db [Sample.step0] Sample.task0 (Some 0%nat))).
  - reflexivity.
  - discriminate.
  - intros e H. inversion H. reflexivity.
Defined.

Lemma cleanup_no_screenshot {W : Type} (E : Env W) close last_step task :
  emits (fun ev => is_screenshot ev = false)
        (cleanup_browser_and_create_artifacts E close last_step task).
Proof.
  unfold cleanup_browser_and_create_artifacts. repeat emits_step; reflexivity.
Qed.

Lemma webhook_no_screenshot {W : Type} (E : Env W) task last_step api_key :
  emits (fun ev => is_screenshot ev = false) (execute_task_webhook E task last_step api_key).
Proof.
  unfold execute_task_webhook. repeat emits_step; reflexivity.
Qed.

Lemma no_screenshot_in (t : list Event) bs r :
  Forall (fun ev => is_screenshot ev = false) t -> ~ In (TakeScreenshot bs r) t.
Proof.
  intros H Hin. rewrite Forall_forall in H. specialize (H _ Hin). discriminate.
Qed.

(** X11: when the final screenshot of [send_task_response] raises, the
    response goes on only for a [TargetClosedError], which is logged:
    the task is then found to belong to a workflow run or the browser is
    cleaned up.  Any other error leaves [send_task_response] at once: the
    browser is not cleaned up, no upload is awaited and nothing is
    posted. *)
Theorem final_screenshot_failure {W : Type} (E : Env W)
        task last_step api_key close w bs e :
  let x := send_task_response E task last_step api_key close w in
  In (TakeScreenshot bs (Raise e)) (transcript x) ->
  if isinstance_TargetClosedError e
  then
    In (Log WARNING "Failed to take screenshot before sending task response, page is closed")
       (transcript x)
    /\ (In (Log INFO "Task is part of a workflow run, not sending a webhook response")
           (transcript x)
        \/ exists task_id r, In (CleanupForTask task_id close r) (transcript x))
  else
    result x = Raise e /\ Forall (fun ev => off_stage ev = true) (transcript x).
Proof.
  intros x. subst x.
  remember (send_task_response E task last_step api_key close w) as x eqn:Hx.
  unfold send_task_response, new_artifact in Hx.
  unfold bind, call, LOG, ret, raise, try_except in Hx.
  run_in Hx.
  all: try match type of Hx with
       | context [cleanup_browser_and_create_artifacts ?E' ?c ?l ?t ?w'] =>
           destruct (cleanup_transcript E' c l t w') as (? & q & Hq & Hoff);
           pose proof (cleanup_no_screenshot E' c l t w') as Hns;
           destruct (cleanup_browser_and_create_artifacts E' c l t w') as [[[[]|?] ?] tc];
           cbn in Hq, Hns; subst tc; apply Forall_inv_tail in Hns
       end.
  all: run_in Hx.
  all: try match type of Hx with
       | context [execute_task_webhook ?E' ?t ?l ?k ?w'] =>
           pose proof (webhook_no_screenshot E' t l k w') as Hnw;
           destruct (execute_task_webhook E' t l k w') as [[? ?] tw];
           cbn in Hnw
       end.
  all: subst x; cbn; intros Hin;
    repeat match type of Hin with
           | _ \/ _ => destruct Hin as [Hin|Hin]
           | False => contradiction
           | @eq Event _ _ => first [discriminate Hin | inversion Hin; subst; clear Hin]
           | In _ (_ ++ _) => apply in_app_or in Hin
           | In _ (_ :: _) => cbn in Hin
           | In _ [] => contradiction
           | In _ ?q =>
               match goal with
               | H : Forall (fun ev => is_screenshot ev = false) q |- _ =>
                   exfalso; exact (no_screenshot_in q _ _ H Hin)
               end
           end.
  all: repeat match goal with
       | H : isinstance_TargetClosedError ?e = _ |- context [isinstance_TargetClosedError ?e] =>
           rewrite H
       end.
  all: try (split; [reflexivity | repeat constructor]).
  all: try (split; [cbn; auto 20 | first [left; cbn; now auto 20
                                         | right; do 2 eexists; cbn; auto 20]]).
Qed.

Lemma final_screenshot_failure_witness :
  result (send_task_response (Runs.no_screenshot (OtherException "crashed")) Sample.task0
                             Sample.step0 (Some "key") true Sample.db0)
  = Raise (OtherException "crashed")
  /\ Forall (fun ev => off_stage ev = true)
            (transcript (send_task_response (Runs.no_screenshot (OtherException "crashed"))
                                            Sample.task0 Sample.step0 (Some "key") true
                                            Sample.db0)).
Proof.
  apply (final_screenshot_failure (Runs.no_screenshot (OtherException "crashed"))
                                  Sample.task0 Sample.step0 (Some "key") true Sample.db0
                                  Sample.browser (OtherException "crashed")).
  vm_compute. do 4 right. left. reflexivity.
Defined.

(** ** Browser cleanup *)

Lemma eqb_empty_false (s : string) : (s =? "")%string = false -> s <> "".
Proof. intros H ->. discriminate. Qed.

Lemma nonempty_Some (o : option string) (s : string) :
  nonempty o = Some s -> o = Some s /\ s <> "".
Proof.
  unfold nonempty. destruct o as [s'|]; [|discriminate].
  destruct (s' =? "")%string eqn:H; [discriminate|].
  intros Heq. inversion Heq; subst. split; [reflexivity | now apply eqb_empty_false].
Qed.

(** X12: the artifacts [cleanup_browser_and_create_artifacts] creates
    belong to the last step and are of two kinds only: a HAR artifact
    with the non-empty HAR data read from the browser manager, and a
    TRACE artifact, created only when the cleaned-up browser state has a
    browser context and a non-empty traces directory, whose path is
    [<traces_dir>/<task_id>.zip]. *)
Theorem cleanup_creates_har_and_trace {W : Type} (E : Env W) close last_step task w
        step_id ty payload r :
  let t := transcript (cleanup_browser_and_create_artifacts E close last_step task w) in
  In (CreateArtifact step_id ty payload r) t ->
  step_id = Step.step_id last_step
  /\ ((ty = ArtifactType.HAR
       /\ exists har_data,
           payload = Data har_data /\ har_data <> ""
           /\ In (GetHarData (Task.task_id task) (Ok har_data)) t)
      \/ (ty = ArtifactType.TRACE
          /\ exists browser_state dir,
              In (CleanupForTask (Task.task_id task) close (Ok (Some browser_state))) t
              /\ browser_context browser_state = true
              /\ traces_dir (browser_artifacts browser_state) = Some dir
              /\ dir <> ""
              /\ payload = Path (dir ++ "/" ++ Task.task_id task ++ ".zip"))).
Proof.
  intros t. subst t.
  remember (cleanup_browser_and_create_artifacts E close last_step task w) as x eqn:Hx.
  unfold cleanup_browser_and_create_artifacts, new_artifact, bind, call, LOG, ret in Hx.
  run_in Hx; subst x; in_events; (split; [reflexivity|]);
    repeat match goal with
           | H : nonempty _ = Some _ |- _ => apply nonempty_Some in H; destruct H
           | H : (_ =? "")%string = false |- _ => apply eqb_empty_false in H
           end;
    first [ left; split; [reflexivity|]; eexists; split; [reflexivity|];
            split; [assumption|]; cbn; now auto 20
          | right; split; [reflexivity|]; do 2 eexists;
            split; [cbn; left; reflexivity|];
            split; [assumption|]; split; [eassumption|];
            split; [assumption | reflexivity] ].
Qed.

Lemma cleanup_creates_har_and_trace_witness :
  let t := transcript (cleanup_browser_and_create_artifacts
                         Runs.recording true Sample.step0 Sample.task0 Sample.db0) in
  "step_0" = Step.step_id Sample.step0
  /\ ((ArtifactType.TRACE = ArtifactType.HAR
       /\ exists har_data,
           Path "/tmp/traces/task_0.zip" = Data har_data /\ har_data <> ""
           /\ In (GetHarData (Task.task_id Sample.task0) (Ok har_data)) t)
      \/ (ArtifactType.TRACE = ArtifactType.TRACE
          /\ exists browser_state dir,
              In (CleanupForTask (Task.task_id Sample.task0) true (Ok (Some browser_state))) t
              /\ browser_context browser_state = true
              /\ traces_dir (browser_artifacts browser_state) = Some dir
              /\ dir <> ""
              /\ Path "/tmp/traces/task_0.zip"
                 = Path (dir ++ "/" ++ Task.task_id Sample.task0 ++ ".zip"))).
Proof.
  apply (cleanup_creates_har_and_trace Runs.recording true Sample.step0 Sample.task0
                                       Sample.db0 "step_0" ArtifactType.TRACE
                                       (Path "/tmp/traces/task_0.zip")
                                       (Ok "artifact_step_0")).
  vm_compute. do 5 right. left. reflexivity.
Defined.

(** X13: [cleanup_browser_and_create_artifacts] updates an artifact only
    with the non-empty video data read after the cleanup, and the
    artifact it updates is the video artifact of the cleaned-up browser
    state, within the organization of the task. *)
Theorem cleanup_updates_the_recording {W : Type} (E : Env W) close last_step task w
        artifact_id org bytes r :
  let t := transcript (cleanup_browser_and_create_artifacts E close last_step task w) in
  In (UpdateArtifactData artifact_id org bytes r) t ->
  bytes <> ""
  /\ org = Task.organization_id task
  /\ In (GetVideoData (Task.task_id task) (Ok bytes)) t
  /\ exists browser_state,
      In (CleanupForTask (Task.task_id task) close (Ok (Some browser_state))) t
      /\ artifact_id = video_artifact_id (browser_artifacts browser_state).
Proof.
  intros t. subst t.
  remember (cleanup_browser_and_create_artifacts E close last_step task w) as x eqn:Hx.
  unfold cleanup_browser_and_create_artifacts, new_artifact, bind, call, LOG, ret in Hx.
  run_in Hx; subst x; in_events;
    repeat match goal with
           | H : (_ =? "")%string = false |- _ => apply eqb_empty_false in H
           end;
    (split; [assumption|]); (split; [reflexivity|]); (split; [cbn; now auto 20|]);
    (eexists; split; [cbn; left; reflexivity | reflexivity]).
Qed.

Lemma cleanup_updates_the_recording_witness :
  let t := transcript (cleanup_browser_and_create_artifacts
                         Runs.recording true Sample.step0 Sample.task0 Sample.db0) in
  "video" <> ""
  /\ Some "org_1" = Task.organization_id Sample.task0
  /\ In (GetVideoData (Task.task_id Sample.task0) (Ok "video")) t
  /\ exists browser_state,
      In (CleanupForTask (Task.task_id Sample.task0) true (Ok (Some browser_state))) t
      /\ Some "video_1" = video_artifact_id (browser_artifacts browser_state).
Proof.
  apply (cleanup_updates_the_recording Runs.recording true Sample.step0 Sample.task0
                                       Sample.db0 (Some "video_1") (Some "org_1") "video"
                                       (Ok tt)).
  vm_compute. do 2 right. left. reflexivity.
Defined.

(** ** Artifacts after an action *)

(** X14: without a page [record_artifacts_after_action] raises
    [BrowserStateMissingPage] before it captures anything.  With a page it
    is best effort: no [Exception] leaves it, and when it returns it has
    asked for the screenshot, for the page content and for the video
    data, whatever became of the earlier captures; a capture that raised
    an [Exception] is logged. *)
Theorem record_artifacts_is_best_effort {W : Type} (E : Env W) task step bs w :
  let x := record_artifacts_after_action E task step bs w in
  match page bs with
  | None => result x = Raise BrowserStateMissingPage /\ transcript x = []
  | Some _ =>
      (forall e, result x = Raise e -> isinstance_Exception e = false)
      /\ (result x = Ok tt ->
          exists shot content video,
            In (TakeScreenshot bs shot) (transcript x)
            /\ In (PageContent bs content) (transcript x)
            /\ In (GetVideoData (Task.task_id task) video) (transcript x))
      /\ (forall e, In (TakeScreenshot bs (Raise e)) (transcript x) ->
                    isinstance_Exception e = true ->
                    In (Log ERROR "Failed to record screenshot after action") (transcript x)
                    /\ exists content, In (PageContent bs content) (transcript x))
      /\ (forall e, In (PageContent bs (Raise e)) (transcript x) ->
                    isinstance_Exception e = true ->
                    In (Log ERROR "Failed to record html after action") (transcript x)
                    /\ exists video, In (GetVideoData (Task.task_id task) video)
                                        (transcript x))
  end.
Proof.
  intros x. subst x.
  remember (record_artifacts_after_action E task step bs w) as x eqn:Hx.
  unfold record_artifacts_after_action in Hx.
  destruct (page bs) as [p|]; [|subst x; split; reflexivity].
  unfold new_artifact, bind, call, LOG, ret, raise, try_except in Hx.
  run_in Hx; subst x; cbn;
    (split; [intros ? He0; first [discriminate He0 | inversion He0; subst; assumption]|]);
    (split; [intros Hr; first [discriminate Hr | do 3 eexists; cbn; eauto 20]|]);
    (split; intros ? Hin Hexn; in_events; try congruence;
     (split; [cbn; now auto 20 | eexists; cbn; eauto 20])).
Qed.

Lemma task_updates_status st ei fr :
  assoc (task_updates st ei fr) "status" = Some (VTaskStatus st).
Proof. destruct ei, fr; reflexivity. Qed.

(** X15: a normal return of [handle_completed_step] either concludes the
    task or advances it, never both.  Concluding, it returns the flag
    [is_goal_achieved()] of the step, the step as persistence returned it
    from the write of [is_last = True], and no next step, after writing
    to the task the status completed (goal achieved), terminated
    (terminated by the agent) or failed (step ceiling).  Advancing, it
    returns no flag and no last step, only the step created with the
    next order and retry index 0, and has written nothing to the step or
    the task. *)
Theorem handle_completed_step_concludes_or_advances {W : Type} (E : Env W)
        organization task step w is_task_completed maybe_last_step maybe_next_step :
  let x := handle_completed_step E organization task step w in
  result x = Ok (is_task_completed, maybe_last_step, maybe_next_step) ->
  match is_task_completed with
  | Some flag =>
      flag = is_goal_achieved E step
      /\ maybe_next_step = None
      /\ (exists last_step,
             maybe_last_step = Some last_step
             /\ In (DbUpdateStep (Step.task_id step) (Step.step_id step)
                                 (Step.organization_id step) [("is_last", VBool true)]
                                 (Ok last_step)) (transcript x))
      /\ (exists updates updated,
             In (DbUpdateTask (Task.task_id task) (Task.organization_id task) updates
                              (Ok updated)) (transcript x)
             /\ assoc updates "status" = Some (VTaskStatus (concluded_status E step)))
  | None =>
      maybe_last_step = None
      /\ is_goal_achieved E step = false
      /\ is_terminated E step = false
      /\ (exists next_step,
             maybe_next_step = Some next_step
             /\ In (DbCreateStep (Task.task_id task) (Task.organization_id task)
                                 (Step.order step + 1) 0 (Ok next_step)) (transcript x))
      /\ Forall (fun ev => is_row_update ev = false) (transcript x)
  end.
Proof.
  intros x. subst x.
  remember (handle_completed_step E organization task step w) as x eqn:Hx.
  unfold handle_completed_step, concluded_status in *.
  unfold get_extracted_information_for_task, get_failure_reason_for_task in Hx.
  destruct (is_goal_achieved E step) eqn:Hgoal;
    [|destruct (is_terminated E step) eqn:Hterm];
    unfold bind, call, LOG, ret, raise in Hx;
    repeat (rewrite ?update_step_run, ?update_task_run in Hx;
            cbn beta iota zeta in Hx;
            match type of Hx with
            | context [let (_, _) := ?y in _] =>
                match type of y with
                | (Res _ * _)%type => destruct y as [[?|?] ?]
                end
            | context [match ?y with Some _ => _ | None => _ end] => destruct y eqn:?
            | context [if ?y then _ else _] => destruct y eqn:?
            end);
    subst x; cbn -[In]; intros Hr; try discriminate Hr; inversion Hr; subst; clear Hr;
    repeat match goal with
           | |- _ /\ _ => split
           | |- _ = _ => reflexivity
           | |- exists s, Some ?a = Some s /\ _ => exists a; split; [reflexivity|]
           | |- In _ _ => cbn; now auto 20
           | |- exists updates updated, In (DbUpdateTask _ _ updates (Ok updated)) _ /\ _ =>
               do 2 eexists; split;
               [cbn; now eauto 20
               | first [ apply task_updates_status
                       | repeat match goal with
                                | |- context [set_if _ _ ?o _] => is_var o; destruct o
                                end; reflexivity ]]
           | |- Forall _ _ => repeat constructor
           end.
Qed.

Lemma handle_completed_step_concludes_or_advances_witness :
  let x := handle_completed_step Sample.E (Sample.org None) Sample.task0 Sample.done
                                 (Sample.db [Sample.clicked; Sample.done] Sample.task0 None) in
  exists maybe_last_step,
    true = is_goal_achieved Sample.E Sample.done
    /\ @None Step.t = None
    /\ (exists last_step,
           maybe_last_step = Some last_step
           /\ In (DbUpdateStep (Step.task_id Sample.done) (Step.step_id Sample.done)
                               (Step.organization_id Sample.done) [("is_last", VBool true)]
                               (Ok last_step)) (transcript x))
    /\ (exists updates updated,
           In (DbUpdateTask (Task.task_id Sample.task0) (Task.organization_id Sample.task0)
                            updates (Ok updated)) (transcript x)
           /\ assoc updates "status"
              = Some (VTaskStatus (concluded_status Sample.E Sample.done))).
Proof.
  eexists.
  apply (handle_completed_step_concludes_or_advances
           Sample.E (Sample.org None) Sample.task0 Sample.done
           (Sample.db [Sample.clicked; Sample.done] Sample.task0 None)
           (Some true) _ None).
  vm_compute. reflexivity.
Defined.

Lemma terminate_reasoning_in_hd (ars : list (Action * list ActionResult)) :
  terminate_reasoning_in ars
  = hd_error (flat_map
                (fun ar =>
                   if ActionType.eqb (action_type (fst ar)) ActionType.TERMINATE
                   then [reasoning (fst ar)]
                   else [])
                ars).
Proof.
  induction ars as [|[a rs] ars IH]; simpl; auto.
  destruct (ActionType.eqb (action_type a) ActionType.TERMINATE); simpl; auto.
Qed.

Lemma failure_reason_in_hd (l : list Step.t) :
  failure_reason_in l = hd_error (flat_map terminate_reasonings (filter scanned l)).
Proof.
  induction l as [|s l IH]; simpl; auto.
  unfold scanned at 1.
  destruct (is_completed s); simpl; auto.
  destruct (Step.output s) as [o|] eqn:Ho; simpl; auto.
  destruct (actions_and_results o) as [[|ar ars]|] eqn:Hars;
    [simpl; auto | | simpl; auto].
  cbn [truthy_list flat_map].
  match goal with
  | |- match ?c with Some _ => _ | None => _ end = _ =>
      change c with (terminate_reasoning_in (ar :: ars))
  end.
  rewrite hd_error_app. unfold terminate_reasonings at 1.
  rewrite Ho, Hars, <- terminate_reasoning_in_hd, <- IH.
  destruct (terminate_reasoning_in (ar :: ars)); auto.
Qed.

(** X16: when the steps of the task are read, [get_failure_reason_for_task]
    returns the reasoning of the first TERMINATE action of the most
    recent completed step that has one, be it [None]; only when no
    completed step has a TERMINATE action does it log the error and
    return [None].  It reads the steps once and calls nothing else. *)
Theorem failure_reason_is_most_recent_terminate {W : Type} (E : Env W) task w steps w1 :
  db_get_task_steps E (Task.task_id task) (Task.organization_id task) w = (Ok steps, w1) ->
  let x := get_failure_reason_for_task E task w in
  match recent_terminate_reasonings steps with
  | reasoning :: _ =>
      result x = Ok reasoning
      /\ transcript x
         = [DbGetTaskSteps (Task.task_id task) (Task.organization_id task) (Ok steps)]
  | [] =>
      result x = Ok None
      /\ transcript x
         = [DbGetTaskSteps (Task.task_id task) (Task.organization_id task) (Ok steps);
            Log ERROR "Failed to find failure reasoning for task"]
  end.
Proof.
  intros Hdb x. subst x.
  remember (get_failure_reason_for_task E task w) as x eqn:Hx.
  unfold get_failure_reason_for_task, bind, call in Hx. rewrite Hdb in Hx.
  rewrite failure_reason_in_hd in Hx. fold (recent_terminate_reasonings steps) in Hx.
  destruct (recent_terminate_reasonings steps) as [|r rs]; subst x; cbn; split; reflexivity.
Qed.

Lemma failure_reason_is_most_recent_terminate_witness :
  let x := get_failure_reason_for_task Sample.E Sample.task0
             (Sample.db [Runs.gave_up; Sample.clicked] Sample.task0 None) in
  result x = Ok (Some "login is blocked")
  /\ transcript x
     = [DbGetTaskSteps (Task.task_id Sample.task0) (Task.organization_id Sample.task0)
                       (Ok [Runs.gave_up; Sample.clicked])].
Proof.
  apply (failure_reason_is_most_recent_terminate
           Sample.E Sample.task0
           (Sample.db [Runs.gave_up; Sample.clicked] Sample.task0 None)
           [Runs.gave_up; Sample.clicked]
           (Sample.db [Runs.gave_up; Sample.clicked] Sample.task0 None)).
  reflexivity.
Defined.

(** ** Task updates *)

(** X17: [update_task] validates first: a rejected update raises the
    validation error and neither logs nor writes.  An accepted update
    logs one diff and issues one [DATABASE.update_task] for the task's
    id and organization, whose reply it returns.  The write always
    carries the status, changed or not, and carries the extracted
    information and the failure reason exactly when they are not [None];
    the diff holds the written fields whose value differs from the
    task's. *)
Theorem update_task_validates_then_writes {W : Type} (E : Env W) task status
        extracted_information failure_reason w :
  let x := update_task E task status extracted_information failure_reason w in
  match task_validate_update E task status extracted_information failure_reason with
  | Some e => result x = Raise e /\ transcript x = [] /\ final x = w
  | None =>
      exists diff updates reply,
        transcript x
        = [LogDiff "Updating task in db" diff;
           DbUpdateTask (Task.task_id task) (Task.organization_id task) updates reply]
        /\ result x = reply
        /\ assoc updates "status" = Some (VTaskStatus status)
        /\ assoc updates "extracted_information"
           = option_map (fun j => VJson (Some j)) extracted_information
        /\ assoc updates "failure_reason"
           = option_map (fun s => VStr (Some s)) failure_reason
        /\ (forall key, In key (dict_keys updates) ->
                        In key ["status"; "extracted_information"; "failure_reason"])
        /\ (forall key old new,
               In (key, (old, new)) diff <->
               In (key, new) updates /\ old = Task_getattr task key /\ old <> new)
  end.
Proof.
  intros x. subst x. rewrite update_task_run.
  destruct (task_validate_update E task status extracted_information failure_reason).
  - repeat split.
  - cbv zeta.
    destruct (db_update_task E (Task.task_id task) (Task.organization_id task)
                             (task_updates status extracted_information failure_reason) w)
      as [r w1].
    exists (update_comparison (Task_getattr task)
                              (task_updates status extracted_information failure_reason)),
      (task_updates status extracted_information failure_reason), r.
    split; [reflexivity|]. split; [reflexivity|].
    split; [apply task_updates_status|].
    split; [destruct extracted_information, failure_reason; reflexivity|].
    split; [destruct extracted_information, failure_reason; reflexivity|].
    split.
    + destruct extracted_information, failure_reason; cbn; intros key H; tauto.
    + apply update_comparison_spec.
Qed.

Lemma assoc_dict_set {V : Type} (d : list (string * V)) (k key : string) (v : V) :
  assoc (dict_set d k v) key = if (k =? key)%string then Some v else assoc d key.
Proof.
  induction d as [|[k' v'] d IH]; simpl.
  - reflexivity.
  - destruct (String.eqb_spec k' k) as [->|Hne]; simpl.
    + destruct (k =? key)%string; reflexivity.
    + rewrite IH. destruct (String.eqb_spec k' key) as [->|Hne'].
      * destruct (String.eqb_spec k key) as [->|]; [contradiction | reflexivity].
      * reflexivity.
Qed.

Lemma last_value_quiet (key : string) (t1 t2 : list Event) (default : option Json) :
  Forall (fun ev => is_get_value ev = false) t2 ->
  last_value key (t1 ++ t2) default = last_value key t1 default.
Proof.
  intros H. revert default. induction t1 as [|ev t1 IH]; intros default; simpl.
  - induction H as [|ev t Hev _ IH]; simpl; auto.
    destruct ev; auto. discriminate.
  - destruct ev; auto. destruct r; auto.
Qed.

Lemma last_value_defined (key : string) (t : list Event) :
  forall default,
    last_value key t default <> None <->
    default <> None \/ exists v, In (GetValue key (Ok v)) t.
Proof.
  induction t as [|ev t IH]; intros default; simpl.
  - split; [auto | intros [H|(v & [])]; exact H].
  - assert (Hskip : (forall k r, ev <> GetValue k (Ok r)) ->
                    (last_value key t default <> None <->
                     default <> None \/ exists v, ev = GetValue key (Ok v) \/
                                                  In (GetValue key (Ok v)) t)).
    { intros Hev. rewrite IH. split; intros [H|(v & H)]; auto.
      - right. exists v. now right.
      - destruct H as [H|H]; [now apply Hev in H|]. right. now exists v. }
    destruct ev; try (apply Hskip; intros; discriminate).
    destruct r as [v|e]; [|apply Hskip; intros; discriminate].
    rewrite IH. destruct (String.eqb_spec key0 key) as [->|Hne].
    + split; [intros _; right; exists v; now left | intros _; left; discriminate].
    + split; intros [H|(v' & H)]; auto.
      * right. exists v'. now right.
      * destruct H as [H|H]; [inversion H; contradiction|]. right. now exists v'.
Qed.

Lemma resolve_parameters_run {W : Type} (E : Env W) :
  forall keys payload w,
    let y := resolve_parameters E payload keys w in
    Forall (fun ev => is_db_write ev = false) (transcript y)
    /\ (forall key v, In (GetValue key v) (transcript y) -> In key keys)
    /\ (forall p, result y = Ok p ->
                  (forall key, assoc p key = last_value key (transcript y) (assoc payload key))
                  /\ (forall key, In key keys -> exists v, In (GetValue key (Ok v)) (transcript y))).
Proof.
  induction keys as [|k rest IH]; intros payload w y; subst y.
  - cbn. split; [constructor|]. split; [intros ? ? []|].
    intros p H. inversion H; subst. split; [reflexivity | intros ? []].
  - remember (resolve_parameters E payload (k :: rest) w) as y eqn:Hy.
    simpl in Hy. unfold bind at 1, call at 1 in Hy.
    destruct (get_value E k w) as [[v|e] w1].
    + specialize (IH (dict_set payload k v) w1). cbv zeta in IH.
      destruct (resolve_parameters E (dict_set payload k v) rest w1) as [[r w2] t2].
      cbn in IH. destruct IH as (Hw & Hk & Hp). subst y. cbn.
      split; [constructor; [reflexivity | exact Hw]|].
      split.
      * intros key v' [H|H]; [inversion H; now left | right; eapply Hk; exact H].
      * intros p Hr. destruct (Hp p Hr) as [Hl Hin]. split.
        -- intros key. rewrite Hl, assoc_dict_set. reflexivity.
        -- intros key [<-|Hkey]; [exists v; now left|].
           destruct (Hin key Hkey) as (v' & Hv'). exists v'. now right.
    + subst y. cbn. split; [repeat constructor|].
      split; [intros key v' [H|[]]; inversion H; now left|]. discriminate.
Qed.

Lemma not_written (t : list Event) (ev : Event) :
  Forall (fun ev => is_db_write ev = false) t -> is_db_write ev = true -> ~ In ev t.
Proof.
  intros H Hev Hin. rewrite Forall_forall in H. rewrite (H ev Hin) in Hev. discriminate.
Qed.

(** Splits a hypothesis [In ev (t1 ++ l)] along the transcript. *)
Ltac split_in Hin Hw :=
  cbn -[In] in Hin; apply in_app_or in Hin; destruct Hin as [Hin|Hin];
  [ exfalso; refine (not_written _ _ Hw _ Hin); reflexivity
  | cbn [In] in Hin;
    repeat match type of Hin with
           | _ \/ _ => destruct Hin as [Hin|Hin]
           | False => contradiction
           | @eq Event _ _ => first [discriminate Hin | inversion Hin; subst; clear Hin]
           end ].

(** X18: the task [create_task_and_step_from_block] asks persistence to
    create takes title, goals, data schema and error code mapping from
    the block, the organization from the workflow, the proxy location
    from the workflow run, and the given order and retry.  Its
    navigation payload maps exactly the keys of the block's parameters,
    each to the value the workflow run context returned for it last.
    Its URL is the block's URL, or without one the URL of the page of
    the workflow run's browser, which is then not [about:blank]. *)
Theorem workflow_task_request {W : Type} (E : Env W) task_block workflow workflow_run
        task_order task_retry w req r :
  let t := transcript (create_task_and_step_from_block E task_block workflow workflow_run
                                                       task_order task_retry w) in
  In (DbCreateTask req r) t ->
  c_title req = tb_title task_block
  /\ c_navigation_goal req = tb_navigation_goal task_block
  /\ c_data_extraction_goal req = tb_data_extraction_goal task_block
  /\ c_extracted_information_schema req = tb_data_schema task_block
  /\ c_error_code_mapping req = tb_error_code_mapping task_block
  /\ c_organization_id req = wf_organization_id workflow
  /\ c_proxy_location req = wr_proxy_location workflow_run
  /\ c_order req = Some task_order
  /\ c_retry req = Some task_retry
  /\ (forall key, assoc (c_navigation_payload req) key = last_value key t None)
  /\ (forall key, assoc (c_navigation_payload req) key <> None <->
                  In key (tb_parameters task_block))
  /\ match tb_url task_block with
     | Some task_url => c_url req = task_url
     | None =>
         c_url req <> "about:blank"
         /\ exists browser_state current_page,
             In (GetOrCreateForWorkflowRun (wr_workflow_run_id workflow_run) None
                                           (Ok browser_state)) t
             /\ page browser_state = Some current_page
             /\ page_url current_page = c_url req
     end.
Proof.
  intros t. subst t.
  remember (create_task_and_step_from_block E task_block workflow workflow_run
                                            task_order task_retry w) as x eqn:Hx.
  unfold create_task_and_step_from_block in Hx. unfold bind at 1 in Hx.
  pose proof (resolve_parameters_run E (tb_parameters task_block) [] w) as Hrp.
  cbv zeta in Hrp.
  destruct (resolve_parameters E [] (tb_parameters task_block) w) as [[[np|e] w1] t1];
    cbn in Hrp; destruct Hrp as (Hw & Hk & Hp).
  2:{ subst x. cbn. intros Hin. exfalso. refine (not_written _ _ Hw _ Hin). reflexivity. }
  destruct (Hp np eq_refl) as [Hl Hin]. clear Hp.
  assert (Hkeys : forall key, assoc np key <> None <-> In key (tb_parameters task_block)).
  { intros key. rewrite Hl, last_value_defined. split.
    - intros [H|(v & H)]; [now contradiction H | eapply Hk; exact H].
    - intros H. right. exact (Hin key H). }
  unfold bind, call, LOG, ret, raise in Hx.
  run_in Hx; subst x; intros Hev; split_in Hev Hw.
  all: cbn [transcript snd fst app c_navigation_payload c_url].
  all: repeat (split; [reflexivity|]).
  all: (split; [intros key;
                rewrite last_value_quiet; [apply Hl | repeat constructor]|]).
  all: (split; [exact Hkeys|]).
  all: cbn [c_url]; try reflexivity.
  all: (split; [intros Heq;
                match goal with
                | H : (_ =? "about:blank")%string = false |- _ =>
                    rewrite Heq in H; discriminate H
                end|]).
  all: do 2 eexists; split; [apply in_or_app; right; left; reflexivity|];
    split; [eassumption | reflexivity].
Qed.

Lemma workflow_task_request_witness :
  let t := transcript (create_task_and_step_from_block Sample.E Runs.block Runs.workflow
                                                       Runs.workflow_run 1 0 Sample.db0) in
  exists req,
    c_title req = tb_title Runs.block
    /\ c_navigation_goal req = tb_navigation_goal Runs.block
    /\ c_data_extraction_goal req = tb_data_extraction_goal Runs.block
    /\ c_extracted_information_schema req = tb_data_schema Runs.block
    /\ c_error_code_mapping req = tb_error_code_mapping Runs.block
    /\ c_organization_id req = wf_organization_id Runs.workflow
    /\ c_proxy_location req = wr_proxy_location Runs.workflow_run
    /\ c_order req = Some 1
    /\ c_retry req = Some 0
    /\ (forall key, assoc (c_navigation_payload req) key = last_value key t None)
    /\ (forall key, assoc (c_navigation_payload req) key <> None <->
                    In key (tb_parameters Runs.block))
    /\ c_url req <> "about:blank"
    /\ exists browser_state current_page,
        In (GetOrCreateForWorkflowRun (wr_workflow_run_id Runs.workflow_run) None
                                      (Ok browser_state)) t
        /\ page browser_state = Some current_page
        /\ page_url current_page = c_url req.
Proof.
  eexists.
  eapply (workflow_task_request Sample.E Runs.block Runs.workflow Runs.workflow_run 1 0
                                Sample.db0).
  vm_compute. do 4 right. left. reflexivity.
Defined.

(** X19: without a URL on the block, [create_task_and_step_from_block]
    looks at the browser of the workflow run before it writes anything:
    when that browser has no page it raises [MissingBrowserStatePage],
    when the page is [about:blank] it raises
    [InvalidWorkflowTaskURLState], both for the id of the run, and no
    task or step has been created or updated; with any other page it
    asks persistence for a task with the URL of the page. *)
Theorem workflow_task_needs_a_url {W : Type} (E : Env W) task_block workflow workflow_run
        task_order task_retry w browser_state :
  let x := create_task_and_step_from_block E task_block workflow workflow_run
                                           task_order task_retry w in
  tb_url task_block = None ->
  In (GetOrCreateForWorkflowRun (wr_workflow_run_id workflow_run) None (Ok browser_state))
     (transcript x) ->
  match page browser_state with
  | None =>
      result x = Raise (MissingBrowserStatePage (wr_workflow_run_id workflow_run))
      /\ Forall (fun ev => is_db_write ev = false) (transcript x)
  | Some current_page =>
      if (page_url current_page =? "about:blank")%string
      then
        result x = Raise (InvalidWorkflowTaskURLState (wr_workflow_run_id workflow_run))
        /\ Forall (fun ev => is_db_write ev = false) (transcript x)
      else
        exists req r, In (DbCreateTask req r) (transcript x) /\ c_url req = page_url current_page
  end.
Proof.
  intros x Hurl. subst x.
  remember (create_task_and_step_from_block E task_block workflow workflow_run
                                            task_order task_retry w) as x eqn:Hx.
  unfold create_task_and_step_from_block in Hx. unfold bind at 1 in Hx. rewrite Hurl in Hx.
  pose proof (resolve_parameters_run E (tb_parameters task_block) [] w) as Hrp.
  pose proof (resolve_parameters_emits E (fun ev => is_get_value ev = true)
                                       (fun _ _ => eq_refl) (tb_parameters task_block) [] w)
    as Hgv.
  cbv zeta in Hrp.
  assert (Hno : forall t, Forall (fun ev => is_get_value ev = true) t ->
                          ~ In (GetOrCreateForWorkflowRun (wr_workflow_run_id workflow_run)
                                                          None (Ok browser_state)) t).
  { intros t Ht Hin. rewrite Forall_forall in Ht. specialize (Ht _ Hin). discriminate. }
  destruct (resolve_parameters E [] (tb_parameters task_block) w) as [[[np|e] w1] t1];
    cbn in Hrp, Hgv; destruct Hrp as (Hw & _ & _).
  2:{ subst x. cbn. intros Hin. exfalso. exact (Hno t1 Hgv Hin). }
  unfold bind, call, LOG, ret, raise in Hx.
  run_in Hx; subst x; cbn [transcript result snd fst app]; intros Hin;
    apply in_app_or in Hin; (destruct Hin as [Hin|Hin]; [exfalso; exact (Hno t1 Hgv Hin)|]);
    cbn [In] in Hin;
    repeat match type of Hin with
           | _ \/ _ => destruct Hin as [Hin|Hin]
           | False => contradiction
           | @eq Event _ _ => first [discriminate Hin | inversion Hin; subst; clear Hin]
           end;
    repeat match goal with
           | H : page _ = _ |- _ => rewrite H
           | H : (_ =? "about:blank")%string = _ |- _ => rewrite H
           end;
    first [ split; [reflexivity | apply Forall_app; split; [exact Hw | repeat constructor]]
          | do 2 eexists; split;
            [apply in_or_app; right; right; left; reflexivity | reflexivity] ].
Qed.

Lemma workflow_task_needs_a_url_witness :
  let x := create_task_and_step_from_block Runs.E_blank Runs.block Runs.workflow
                                           Runs.workflow_run 1 0 Sample.db0 in
  result x = Raise (InvalidWorkflowTaskURLState (wr_workflow_run_id Runs.workflow_run))
  /\ Forall (fun ev => is_db_write ev = false) (transcript x).
Proof.
  apply (workflow_task_needs_a_url Runs.E_blank Runs.block Runs.workflow Runs.workflow_run
                                   1 0 Sample.db0 Runs.blank).
  - reflexivity.
  - vm_compute. do 3 right. left. reflexivity.
Defined.

(** X20: when [create_task_and_step_from_block] returns a task and a
    step, it has made exactly three writes, in this order: it created
    the task, set the status of the created task to running, which
    gave the task it returns, and created the step it returns for that
    task with order 0 and retry index 0.  The status is written
    directly, without the validation and the diff of [update_task]. *)
Theorem workflow_task_is_started {W : Type} (E : Env W) task_block workflow workflow_run
        task_order task_retry w task step :
  let x := create_task_and_step_from_block E task_block workflow workflow_run
                                           task_order task_retry w in
  result x = Ok (task, step) ->
  exists pre req created,
    transcript x
    = pre ++ [DbCreateTask req (Ok created);
              Log INFO "Created new task for workflow run";
              DbUpdateTask (Task.task_id created) (Task.organization_id created)
                           [("status", VTaskStatus TaskStatus.running)] (Ok task);
              DbCreateStep (Task.task_id task) (Task.organization_id task) 0 0 (Ok step);
              Log INFO "Created new step for workflow run"]
    /\ Forall (fun ev => is_db_write ev = false) pre.
Proof.
  intros x. subst x.
  remember (create_task_and_step_from_block E task_block workflow workflow_run
                                            task_order task_retry w) as x eqn:Hx.
  unfold create_task_and_step_from_block in Hx. unfold bind at 1 in Hx.
  pose proof (resolve_parameters_run E (tb_parameters task_block) [] w) as Hrp.
  cbv zeta in Hrp.
  destruct (resolve_parameters E [] (tb_parameters task_block) w) as [[[np|e] w1] t1];
    cbn in Hrp; destruct Hrp as (Hw & _ & _).
  2:{ subst x. discriminate. }
  unfold bind, call, LOG, ret, raise in Hx.
  run_in Hx; subst x; cbn [transcript result snd fst app]; intros Hr;
    try discriminate Hr; inversion Hr; subst; clear Hr.
  - exists t1. do 2 eexists. split; [reflexivity | exact Hw].
  - eexists (t1 ++ [_]). do 2 eexists. split; [rewrite <- app_assoc; reflexivity|].
    apply Forall_app. split; [exact Hw | repeat constructor].
Qed.

Lemma workflow_task_is_started_witness :
  let x := create_task_and_step_from_block Sample.E Runs.block Runs.workflow
                                           Runs.workflow_run 1 0 Sample.db0 in
  exists task step pre req created,
    transcript x
    = pre ++ [DbCreateTask req (Ok created);
              Log INFO "Created new task for workflow run";
              DbUpdateTask (Task.task_id created) (Task.organization_id created)
                           [("status", VTaskStatus TaskStatus.running)] (Ok task);
              DbCreateStep (Task.task_id task) (Task.organization_id task) 0 0 (Ok step);
              Log INFO "Created new step for workflow run"]
    /\ Forall (fun ev => is_db_write ev = false) pre.
Proof.
  do 2 eexists.
  eapply (workflow_task_is_started Sample.E Runs.block Runs.workflow Runs.workflow_run 1 0
                                   Sample.db0).
  vm_compute. reflexivity.
Defined.

(** X21: [validate_step_execution] reads the steps of the task once,
    whatever the statuses are.  It returns when the task is running, the
    step is created or failed, and no step of the task is running;
    otherwise it raises an exception whose text is made from the list
    of the reasons that apply, in this order: the task status, the step
    status, another running step.  It raises exactly when that list is
    not empty. *)
Theorem validate_step_execution_admits {W : Type} (X : Driver.Deps W) task step w steps w1 :
  db_get_task_steps (Driver.base X) (Task.task_id task) (Task.organization_id task) w
  = (Ok steps, w1) ->
  let x := Driver.validate_step_execution X task step w in
  transcript x = [DbGetTaskSteps (Task.task_id task) (Task.organization_id task) (Ok steps)]
  /\ final x = w1
  /\ result x = match refusals task step steps with
                | [] => Ok tt
                | reasons => Raise (OtherException (Driver.cannot_execute_step X reasons step))
                end
  /\ (refusals task step steps = [] <->
      Task.status task = TaskStatus.running
      /\ (Step.status step = StepStatus.created \/ Step.status step = StepStatus.failed)
      /\ forall s, In s steps -> Step.status s <> StepStatus.running).
Proof.
  intros Hdb x. subst x.
  remember (Driver.validate_step_execution X task step w) as x eqn:Hx.
  unfold Driver.validate_step_execution, bind, call in Hx. rewrite Hdb in Hx.
  assert (Hrun : existsb Driver.is_running steps = false <->
                 forall s, In s steps -> Step.status s <> StepStatus.running).
  { split.
    - intros H s Hin Hs. assert (existsb Driver.is_running steps = true).
      { apply existsb_exists. exists s. split; [exact Hin|].
        unfold Driver.is_running. now rewrite Hs. }
      congruence.
    - intros H. destruct (existsb Driver.is_running steps) eqn:He; [|reflexivity].
      apply existsb_exists in He as (s & Hin & Hs). exfalso. apply (H s Hin).
      unfold Driver.is_running in Hs. destruct (Step.status s); congruence. }
  unfold refusals, Driver.append_unless, Driver.has_valid_task_status,
    Driver.has_valid_step_status in *.
  destruct (Task.status task), (Step.status step),
    (existsb Driver.is_running steps) eqn:He;
    subst x; cbn; (split; [reflexivity|]); (split; [reflexivity|]);
    (split; [reflexivity|]);
    (split; [try discriminate; intros _ | intros (Ht & Hs & Hr)]);
    try discriminate; try reflexivity;
    try (destruct Hs; discriminate);
    try (apply Hrun in Hr; discriminate);
    (split; [reflexivity|]); (split; [auto|]); apply Hrun; reflexivity.
Qed.

Lemma validate_step_execution_admits_witness :
  let x := Driver.validate_step_execution (Trial.deps false Sample.E) Sample.task0
                                          Sample.step0 Sample.db0 in
  transcript x
  = [DbGetTaskSteps (Task.task_id Sample.task0) (Task.organization_id Sample.task0)
                    (Ok [Sample.step0])]
  /\ final x = Sample.db0
  /\ result x = match refusals Sample.task0 Sample.step0 [Sample.step0] with
                | [] => Ok tt
                | reasons =>
                    Raise (OtherException
                             (Driver.cannot_execute_step (Trial.deps false Sample.E)
                                                         reasons Sample.step0))
                end
  /\ (refusals Sample.task0 Sample.step0 [Sample.step0] = [] <->
      Task.status Sample.task0 = TaskStatus.running
      /\ (Step.status Sample.step0 = StepStatus.created
          \/ Step.status Sample.step0 = StepStatus.failed)
      /\ forall s, In s [Sample.step0] -> Step.status s <> StepStatus.running).
Proof.
  apply (validate_step_execution_admits (Trial.deps false Sample.E) Sample.task0
                                        Sample.step0 Sample.db0 [Sample.step0] Sample.db0).
  reflexivity.
Defined.

Section Demits.

Context {S : Type} (P : Driver.Call -> Prop).

Lemma demits_dret {A : Type} (a : A) : demits P (Driver.dret (S := S) a).
Proof. intros s. constructor. Qed.

Lemma demits_dcall {A : Type} (oracle : S -> Res A * S) (c : Res A -> Driver.Call) :
  (forall r, P (c r)) -> demits P (Driver.dcall oracle c).
Proof.
  intros H s. unfold Driver.dcall. destruct (oracle s) as [r s1].
  repeat constructor. apply H.
Qed.

Lemma demits_dbind {A B : Type} (m : Driver.D S A) (f : A -> Driver.D S B) :
  demits P m -> (forall a, demits P (f a)) -> demits P (Driver.dbind m f).
Proof.
  intros Hm Hf s. unfold Driver.dbind. specialize (Hm s).
  destruct (m s) as [[[a|e] s1] t1]; [|exact Hm].
  specialize (Hf a s1). destruct (f a s1) as [[r s2] t2].
  unfold Driver.calls in *. simpl in *. apply Forall_app. split; assumption.
Qed.

Lemma demits_dtry_except {A : Type} (m : Driver.D S A) (catches : Exn -> bool)
      (h : Exn -> Driver.D S A) :
  demits P m -> (forall e, demits P (h e)) -> demits P (Driver.dtry_except m catches h).
Proof.
  intros Hm Hh s. unfold Driver.dtry_except. specialize (Hm s).
  destruct (m s) as [[[a|e] s1] t1]; [exact Hm|].
  destruct (catches e); [|exact Hm].
  specialize (Hh e s1). destruct (h e s1) as [[r s2] t2].
  unfold Driver.calls in *. simpl in *. apply Forall_app. split; assumption.
Qed.

Lemma demits_engine {A : Type} (m : M S A) :
  emits (fun ev => P (Driver.Engine ev)) m -> demits P (Driver.engine m).
Proof.
  intros Hm s. unfold Driver.engine. specialize (Hm s).
  destruct (m s) as [[r s1] t]. unfold transcript, Driver.calls in *. simpl in *.
  induction Hm; constructor; auto.
Qed.

Lemma demits_DLOG (level : LogLevel) (msg : string) :
  P (Driver.Engine (Log level msg)) -> demits P (Driver.DLOG (S := S) level msg).
Proof. intros H. apply demits_engine, emits_LOG. exact H. Qed.

End Demits.

Lemma demits_dlift {W A : Type} (P : Driver.Call -> Prop) (m : Driver.D W A) :
  demits P m -> demits P (Driver.dlift m).
Proof.
  intros Hm s. unfold Driver.dlift. specialize (Hm (fst s)).
  destruct (m (fst s)) as [[r w] t]. exact Hm.
Qed.

Lemma demits_silent {S A : Type} (P : Driver.Call -> Prop) (m : Driver.D S A) :
  (forall s, Driver.calls (m s) = []) -> demits P m.
Proof. intros H s. rewrite H. constructor. Qed.

(** ** Errors of a task *)

Lemma extend_errors_concat (steps : list Step.t) :
  forall acc, Driver.extend_errors acc steps = acc ++ errors_of_steps steps.
Proof.
  induction steps as [|s steps IH]; intros acc; simpl.
  - now rewrite app_nil_r.
  - destruct (Step.output s) as [o|]; [|apply IH].
    destruct (errors o) as [|e es] eqn:He; rewrite IH; [reflexivity|].
    now rewrite <- app_assoc.
Qed.

(** X22: [get_task_errors] reads the steps of the task once and returns
    the errors of the outputs of all its steps, whatever their status,
    in the order of the steps; a step without output contributes
    none. *)
Theorem get_task_errors_collects_all {W : Type} (X : Driver.Deps W) task w steps w1 :
  db_get_task_steps (Driver.base X) (Task.task_id task) (Task.organization_id task) w
  = (Ok steps, w1) ->
  Driver.get_task_errors X task w
  = (Ok (errors_of_steps steps), w1,
     [DbGetTaskSteps (Task.task_id task) (Task.organization_id task) (Ok steps)]).
Proof.
  intros Hdb. unfold Driver.get_task_errors, bind, call, ret. rewrite Hdb.
  now rewrite extend_errors_concat.
Qed.

Lemma get_task_errors_collects_all_witness :
  Driver.get_task_errors (Trial.deps false Sample.E) Sample.task0
                         (Sample.db [Trial.blamed; Sample.clicked] Sample.task0 None)
  = (Ok (errors_of_steps [Trial.blamed; Sample.clicked]),
     Sample.db [Trial.blamed; Sample.clicked] Sample.task0 None,
     [DbGetTaskSteps (Task.task_id Sample.task0) (Task.organization_id Sample.task0)
                     (Ok [Trial.blamed; Sample.clicked])]).
Proof.
  apply (get_task_errors_collects_all
           (Trial.deps false Sample.E) Sample.task0
           (Sample.db [Trial.blamed; Sample.clicked] Sample.task0 None)
           [Trial.blamed; Sample.clicked]
           (Sample.db [Trial.blamed; Sample.clicked] Sample.task0 None)).
  reflexivity.
Defined.

(** ** [execute_step] *)

Lemma validate_step_execution_run {W : Type} (X : Driver.Deps W) task step w steps w1 :
  db_get_task_steps (Driver.base X) (Task.task_id task) (Task.organization_id task) w
  = (Ok steps, w1) ->
  Driver.validate_step_execution X task step w
  = (match refusals task step steps with
     | [] => Ok tt
     | reasons => Raise (OtherException (Driver.cannot_execute_step X reasons step))
     end, w1,
     [DbGetTaskSteps (Task.task_id task) (Task.organization_id task) (Ok steps)]).
Proof.
  intros Hdb.
  unfold Driver.validate_step_execution, bind, call. rewrite Hdb.
  unfold refusals, Driver.append_unless.
  destruct (Driver.has_valid_task_status task), (Driver.has_valid_step_status step),
    (existsb Driver.is_running steps); reflexivity.
Qed.

(** X23: a step that [validate_step_execution] refuses is not executed:
    [execute_step] raises the exception of the validation after the one
    read of the steps of the task, and has called nothing else: no
    browser, no LLM, no write. *)
Theorem execute_step_refuses {W : Type} (X : Driver.Deps W) depth organization task step
        api_key workflow_run close w steps w1 :
  db_get_task_steps (Driver.base X) (Task.task_id task) (Task.organization_id task) w
  = (Ok steps, w1) ->
  refusals task step steps <> [] ->
  Driver.execute_step X (S depth) organization task step api_key workflow_run close w
  = (Raise (OtherException
              (Driver.cannot_execute_step X (refusals task step steps) step)),
     w1,
     [Driver.Engine (DbGetTaskSteps (Task.task_id task) (Task.organization_id task)
                                    (Ok steps))]).
Proof.
  intros Hdb Hne. simpl.
  unfold Driver.dtry_except, Driver.execute_step_try.
  unfold Driver.dbind at 1, Driver.dlift at 1, Driver.engine at 1. cbn [fst snd].
  rewrite (validate_step_execution_run X task step w steps w1 Hdb).
  destruct (refusals task step steps) as [|r rs]; [contradiction|]. reflexivity.
Qed.

Lemma execute_step_refuses_witness :
  Driver.execute_step (Trial.deps false Sample.E) 1 (Sample.org None) Sample.task0
                      Sample.running (Some "key") None true
                      (Sample.db [Sample.running] Sample.task0 None)
  = (Raise (OtherException
              (Driver.cannot_execute_step (Trial.deps false Sample.E)
                                          (refusals Sample.task0 Sample.running
                                                    [Sample.running])
                                          Sample.running)),
     Sample.db [Sample.running] Sample.task0 None,
     [Driver.Engine (DbGetTaskSteps (Task.task_id Sample.task0)
                                    (Task.organization_id Sample.task0)
                                    (Ok [Sample.running]))]).
Proof.
  apply (execute_step_refuses (Trial.deps false Sample.E) 0 (Sample.org None) Sample.task0
                              Sample.running (Some "key") None true
                              (Sample.db [Sample.running] Sample.task0 None)
                              [Sample.running]
                              (Sample.db [Sample.running] Sample.task0 None)).
  - reflexivity.
  - discriminate.
Defined.

Lemma dpost_dbind {S A B : Type} (Phi1 Phi2 Phi : list Driver.Call -> Prop)
      (m : Driver.D S A) (f : A -> Driver.D S B) :
  dpost Phi1 m -> (forall a, dpost Phi2 (f a)) ->
  (forall t1, Phi1 t1 -> Phi t1) ->
  (forall t1 t2, Phi1 t1 -> Phi2 t2 -> Phi (t1 ++ t2)) ->
  dpost Phi (Driver.dbind m f).
Proof.
  intros Hm Hf H1 H12 s. unfold Driver.dbind. specialize (Hm s).
  destruct (m s) as [[[a|e] s1] t1]; [|now apply H1].
  specialize (Hf a s1). destruct (f a s1) as [[r s2] t2].
  unfold Driver.calls in *. simpl in *. now apply H12.
Qed.

Lemma demits_dpost {S A : Type} (P : Driver.Call -> Prop) (m : Driver.D S A) :
  demits P m -> dpost (Forall P) m.
Proof. intros H. exact H. Qed.

Lemma clean_filter (t : list Driver.Call) :
  Forall (fun c => is_workflow_browser c = false) t -> filter is_workflow_browser t = [].
Proof.
  induction 1 as [|c t Hc _ IH]; simpl; auto. now rewrite Hc.
Qed.

Lemma once_clean wr url (t1 t2 : list Driver.Call) :
  workflow_browser_once wr url t1 ->
  Forall (fun c => is_workflow_browser c = false) t2 ->
  workflow_browser_once wr url (t1 ++ t2).
Proof.
  intros H1 H2. unfold workflow_browser_once in *.
  rewrite filter_app, (clean_filter t2 H2), app_nil_r. exact H1.
Qed.

Lemma clean_once wr url (t1 t2 : list Driver.Call) :
  Forall (fun c => is_workflow_browser c = false) t1 ->
  workflow_browser_once wr url t2 ->
  workflow_browser_once wr url (t1 ++ t2).
Proof.
  intros H1 H2. unfold workflow_browser_once in *.
  rewrite filter_app, (clean_filter t1 H1). exact H2.
Qed.

Lemma clean_is_once wr url (t : list Driver.Call) :
  Forall (fun c => is_workflow_browser c = false) t -> workflow_browser_once wr url t.
Proof. intros H. left. now apply clean_filter. Qed.

(** Proves [demits P m] by following the structure of [m]. *)
Ltac demits_step :=
  match goal with
  | |- demits _ (Driver.dbind _ _) => apply demits_dbind; [|intros ?]
  | |- demits _ (Driver.dret _) => apply demits_dret
  | |- demits _ (Driver.dlift _) => apply demits_dlift
  | |- demits _ (Driver.DLOG _ _) => apply demits_DLOG
  | |- demits _ (Driver.dcall _ _) => apply demits_dcall; intros ?
  | |- demits _ (Driver.set_locals _) => apply demits_silent; reflexivity
  | |- demits _ Driver.get_locals => apply demits_silent; reflexivity
  | |- demits _ (match ?x with _ => _ end) => destruct x
  | |- demits _ (if ?x then _ else _) => destruct x
  end.

Section No_workflow_browser.

Context {W : Type} (X : Driver.Deps W).

Lemma step_event_clean llm (ev : Event) : step_event llm ev = true -> clean ev.
Proof. destruct ev; try reflexivity; discriminate. Qed.

Lemma validate_clean task step :
  emits clean (Driver.validate_step_execution X task step).
Proof.
  unfold Driver.validate_step_execution. repeat emits_step; reflexivity.
Qed.

Lemma agent_step_clean task step bs organization :
  emits clean (agent_step (Driver.base X) task step bs organization).
Proof.
  eapply emits_weaken; [|apply agent_step_step_event]. apply step_event_clean.
Qed.

Lemma handle_failed_step_clean task step :
  emits clean (handle_failed_step (Driver.base X) task step).
Proof.
  unfold handle_failed_step. repeat emits_step; try reflexivity.
  apply emits_update_task; reflexivity.
Qed.

Lemma handle_completed_step_clean organization task step :
  emits clean (handle_completed_step (Driver.base X) organization task step).
Proof.
  unfold handle_completed_step, get_extracted_information_for_task,
    get_failure_reason_for_task.
  repeat first [ apply emits_update_task; try reflexivity
               | apply emits_update_step; try reflexivity
               | emits_step ]; reflexivity.
Qed.

Lemma send_task_response_clean task last_step api_key close :
  emits clean (send_task_response (Driver.base X) task last_step api_key close).
Proof.
  unfold send_task_response, cleanup_browser_and_create_artifacts, execute_task_webhook.
  repeat emits_step; reflexivity.
Qed.

Lemma chain_clean recurse task step detailed_output retry next_step :
  (forall task next_step,
      demits (fun c => is_workflow_browser c = false) (recurse task next_step)) ->
  demits (fun c => is_workflow_browser c = false)
         (Driver.chain X recurse task step detailed_output retry next_step).
Proof.
  intros Hrec. unfold Driver.chain.
  repeat demits_step; try reflexivity; apply Hrec.
Qed.

Lemma initialize_once task step workflow_run :
  dpost (workflow_browser_once workflow_run (Task.url task))
        (Driver._initialize_execution_state X task step workflow_run).
Proof.
  intros w.
  remember (Driver._initialize_execution_state X task step workflow_run w) as x eqn:Hx.
  unfold Driver._initialize_execution_state, new_artifact, Driver.dbind, Driver.engine,
    Driver.dcall, Driver.dret, call in Hx.
  destruct workflow_run as [run|].
  - run_in Hx; subst x; right; exists run; eexists; split; reflexivity.
  - run_in Hx; subst x; left; reflexivity.
Qed.

Lemma initialize_clean task step :
  demits (fun c => is_workflow_browser c = false)
         (Driver._initialize_execution_state X task step None).
Proof.
  unfold Driver._initialize_execution_state, new_artifact.
  repeat first [ demits_step | apply demits_engine | emits_step ]; reflexivity.
Qed.

Lemma update_task_errors_clean task d :
  demits (fun c => is_workflow_browser c = false)
         (Driver.update_task_errors_from_detailed_output X task d).
Proof.
  unfold Driver.update_task_errors_from_detailed_output. demits_step. reflexivity.
Qed.

(** What follows [_initialize_execution_state] in [execute_step] asks for
    no browser of a workflow run, provided the recursive calls ask for
    none. *)
Lemma execute_step_try_once recurse organization task step api_key workflow_run close :
  (forall task next_step,
      demits (fun c => is_workflow_browser c = false) (recurse task next_step)) ->
  dpost (workflow_browser_once workflow_run (Task.url task))
        (Driver.execute_step_try X recurse organization task step api_key workflow_run
                                 close).
Proof.
  intros Hrec. unfold Driver.execute_step_try.
  eapply (dpost_dbind (Forall (fun c => is_workflow_browser c = false))).
  - apply demits_dlift, demits_engine, validate_clean.
  - intros _.
    eapply (dpost_dbind (workflow_browser_once workflow_run (Task.url task))
                        (Forall (fun c => is_workflow_browser c = false))).
    + intros s. unfold Driver.dlift.
      pose proof (initialize_once task step workflow_run (fst s)) as H.
      destruct (Driver._initialize_execution_state X task step workflow_run (fst s))
        as [[r w1] t]. exact H.
    + intros initial.
      apply demits_dpost. cbv zeta.
      apply demits_dbind; [apply demits_silent; reflexivity | intros _].
      apply demits_dbind;
        [apply demits_dlift, demits_engine, agent_step_clean | intros stepped].
      apply demits_dbind; [apply demits_silent; reflexivity | intros _].
      apply demits_dbind; [apply demits_dlift, update_task_errors_clean | intros task0].
      repeat first [ apply chain_clean; exact Hrec
                   | apply demits_dlift, demits_engine, handle_failed_step_clean
                   | apply demits_dlift, demits_engine, handle_completed_step_clean
                   | apply demits_dlift, demits_engine, send_task_response_clean
                   | demits_step ]; reflexivity.
    + intros t1 H. exact H.
    + intros t1 t2. apply once_clean.
  - intros t1. apply clean_is_once.
  - intros t1 t2. apply clean_once.
Qed.

Lemma filter_clean (t : list Driver.Call) :
  filter is_workflow_browser t = [] -> Forall (fun c => is_workflow_browser c = false) t.
Proof.
  induction t as [|c t IH]; simpl; [constructor|].
  destruct (is_workflow_browser c) eqn:Hc; [discriminate|].
  intros H. constructor; auto.
Qed.

Lemma execute_step_except_clean e :
  demits (fun c => is_workflow_browser c = false)
         (Driver.execute_step_except (W := W) e).
Proof. unfold Driver.execute_step_except. repeat demits_step. reflexivity. Qed.

Lemma execute_step_run depth organization task step api_key workflow_run close w :
  Driver.calls (Driver.execute_step X (S depth) organization task step api_key
                                    workflow_run close w)
  = Driver.calls
      (Driver.dtry_except
         (Driver.execute_step_try
            X (fun task next_step =>
                 Driver.execute_step X depth organization task next_step api_key None true)
            organization task step api_key workflow_run close)
         Driver.isinstance_FailedToSendWebhook Driver.execute_step_except
         (w, {| Driver.x_step := step; Driver.x_detailed_output := None;
                Driver.x_next_step := None |})).
Proof.
  simpl. destruct (Driver.dtry_except _ _ _ _) as [[r s] t]. reflexivity.
Qed.

Lemma dtry_except_once {A : Type} workflow_run url (m : Driver.D (W * Driver.Locals) A)
      catches h :
  dpost (workflow_browser_once workflow_run url) m ->
  (forall e, demits (fun c => is_workflow_browser c = false) (h e)) ->
  dpost (workflow_browser_once workflow_run url) (Driver.dtry_except m catches h).
Proof.
  intros Hm Hh s. unfold Driver.dtry_except. specialize (Hm s).
  destruct (m s) as [[[a|e] s1] t1]; [exact Hm|].
  destruct (catches e); [|exact Hm].
  specialize (Hh e s1). destruct (h e s1) as [[r s2] t2].
  unfold Driver.calls in *. simpl in *. now apply once_clean.
Qed.

Lemma execute_step_clean :
  forall depth organization task step api_key close,
    demits (fun c => is_workflow_browser c = false)
           (Driver.execute_step X depth organization task step api_key None close).
Proof.
  induction depth as [|depth IH]; intros organization task step api_key close w.
  - constructor.
  - rewrite execute_step_run. apply filter_clean.
    pose proof (dtry_except_once
                  None (Task.url task)
                  (Driver.execute_step_try
                     X (fun task next_step =>
                          Driver.execute_step X depth organization task next_step
                                              api_key None true)
                     organization task step api_key None close)
                  Driver.isinstance_FailedToSendWebhook Driver.execute_step_except
                  (execute_step_try_once _ organization task step api_key None close
                                         (fun t n => IH organization t n api_key true))
                  execute_step_except_clean
                  (w, {| Driver.x_step := step; Driver.x_detailed_output := None;
                         Driver.x_next_step := None |})) as H.
    destruct H as [H|(run & r & Hrun & _)]; [exact H | discriminate].
Qed.

End No_workflow_browser.

(** X24: [execute_step] asks for the browser of the workflow run at most
    once, for the given workflow run and the URL of the task, whatever
    the number of steps it goes on to execute: the retries and the next
    steps it executes itself get their browser for the task, since the
    recursive calls pass no workflow run. *)
Theorem workflow_browser_is_asked_once {W : Type} (X : Driver.Deps W) depth organization
        task step api_key workflow_run close w :
  let t := Driver.calls (Driver.execute_step X depth organization task step api_key
                                             workflow_run close w) in
  filter is_workflow_browser t = []
  \/ exists run r,
      workflow_run = Some run
      /\ filter is_workflow_browser t
         = [Driver.Engine (GetOrCreateForWorkflowRun (wr_workflow_run_id run)
                                                     (Some (Task.url task)) r)].
Proof.
  intros t. subst t. destruct depth as [|depth]; [left; reflexivity|].
  rewrite execute_step_run.
  exact (dtry_except_once
           workflow_run (Task.url task) _ _ _
           (execute_step_try_once X _ organization task step api_key workflow_run close
                                  (fun t n => execute_step_clean X depth organization t n
                                                                 api_key true))
           execute_step_except_clean _).
Qed.

Lemma no_post_in (t : list Event) url payload headers reply :
  Forall (fun ev => is_post ev = false) t -> ~ In (RequestsPost url payload headers reply) t.
Proof.
  intros H Hin. rewrite Forall_forall in H. specialize (H _ Hin). discriminate.
Qed.

Lemma cleanup_no_post {W : Type} (E : Env W) close last_step task :
  emits (fun ev => is_post ev = false)
        (cleanup_browser_and_create_artifacts E close last_step task).
Proof.
  unfold cleanup_browser_and_create_artifacts. repeat emits_step; reflexivity.
Qed.

(** Once the webhook POST is made, [send_task_response] returns or fails
    with [FailedToSendWebhook], unless the POST raised an exception that
    is no [Exception]. *)
Lemma send_task_response_post_outcome {W : Type} (E : Env W)
      task last_step api_key close w url payload headers reply :
  In (RequestsPost url payload headers reply)
     (transcript (send_task_response E task last_step api_key close w)) ->
  (forall e, reply = Raise e -> isinstance_Exception e = true) ->
  result (send_task_response E task last_step api_key close w) = Ok tt
  \/ exists task_id cause,
      result (send_task_response E task last_step api_key close w)
      = Raise (RaiseFrom (FailedToSendWebhook task_id) cause).
Proof.
  remember (send_task_response E task last_step api_key close w) as x eqn:Hx.
  unfold send_task_response, new_artifact in Hx.
  unfold bind, call, LOG, ret, raise, try_except in Hx.
  run_in Hx.
  all: try match type of Hx with
       | context [cleanup_browser_and_create_artifacts ?E' ?c ?l ?t ?w'] =>
           pose proof (cleanup_no_post E' c l t w') as Hnc;
           destruct (cleanup_browser_and_create_artifacts E' c l t w') as [[[[]|?] ?] tc];
           cbn in Hnc
       end.
  all: run_in Hx.
  all: try match type of Hx with
       | context [execute_task_webhook ?E' ?t ?l ?k ?w'] =>
           pose proof (webhook_post_outcome E' t l k w' url payload headers reply) as Hpo;
           destruct (execute_task_webhook E' t l k w') as [[rw ?] tw];
           cbn in Hpo
       end.
  all: subst x; cbn; intros Hin Hexn;
    repeat match type of Hin with
           | _ \/ _ => destruct Hin as [Hin|Hin]
           | False => contradiction
           | @eq Event _ _ => first [discriminate Hin | inversion Hin; subst; clear Hin]
           | In _ (_ ++ _) => apply in_app_or in Hin
           | In _ (_ :: _) => cbn in Hin
           | In _ [] => contradiction
           | In _ ?q =>
               match goal with
               | H : Forall (fun ev => is_post ev = false) q |- _ =>
                   exfalso; exact (no_post_in q _ _ _ _ H Hin)
               end
           end.
  all: specialize (Hpo Hin).
  all: destruct reply as [resp|exn];
    [ destruct (ok resp); [left; exact Hpo|];
      destruct (json resp); [left; exact Hpo | right; destruct Hpo as (i & ->); eauto]
    | rewrite (Hexn exn eq_refl) in Hpo; right; destruct Hpo as (i & ->); eauto ].
Qed.

Lemma in_map_Engine (ev : Event) (t : list Event) :
  In (Driver.Engine ev) (map Driver.Engine t) -> In ev t.
Proof.
  intros H. apply in_map_iff in H as (ev' & Heq & Hin). inversion Heq; subst. exact Hin.
Qed.

Lemma no_webhook_post_in (t : list Driver.Call) url payload headers reply :
  Forall (fun c => is_webhook_post c = false) t ->
  ~ In (Driver.Engine (RequestsPost url payload headers reply)) t.
Proof.
  intros H Hin. rewrite Forall_forall in H. specialize (H _ Hin). discriminate.
Qed.

Section Webhook_failures.

Context {W : Type} (X : Driver.Deps W).

Lemma step_event_no_post llm (ev : Event) : step_event llm ev = true -> is_post ev = false.
Proof. destruct ev; try reflexivity; discriminate. Qed.

Lemma validate_no_post task step :
  emits (fun ev => is_post ev = false) (Driver.validate_step_execution X task step).
Proof.
  unfold Driver.validate_step_execution. repeat emits_step; reflexivity.
Qed.

Lemma agent_step_no_post task step bs organization :
  emits (fun ev => is_post ev = false)
        (agent_step (Driver.base X) task step bs organization).
Proof.
  eapply emits_weaken; [|apply agent_step_step_event]. apply step_event_no_post.
Qed.

Lemma handle_failed_step_no_post task step :
  emits (fun ev => is_post ev = false) (handle_failed_step (Driver.base X) task step).
Proof.
  unfold handle_failed_step. repeat emits_step; try reflexivity.
  apply emits_update_task; reflexivity.
Qed.

Lemma handle_completed_step_no_post organization task step :
  emits (fun ev => is_post ev = false)
        (handle_completed_step (Driver.base X) organization task step).
Proof.
  unfold handle_completed_step, get_extracted_information_for_task,
    get_failure_reason_for_task.
  repeat first [ apply emits_update_task; try reflexivity
               | apply emits_update_step; try reflexivity
               | emits_step ]; reflexivity.
Qed.

Lemma initialize_no_post task step workflow_run :
  demits (fun c => is_webhook_post c = false)
         (Driver._initialize_execution_state X task step workflow_run).
Proof.
  unfold Driver._initialize_execution_state, new_artifact.
  repeat first [ demits_step | apply demits_engine | emits_step ]; reflexivity.
Qed.

Lemma update_task_errors_no_post task d :
  demits (fun c => is_webhook_post c = false)
         (Driver.update_task_errors_from_detailed_output X task d).
Proof.
  unfold Driver.update_task_errors_from_detailed_output. demits_step. reflexivity.
Qed.

End Webhook_failures.

(** Takes the next call of the run stated in [Hy] apart. *)
Ltac next_call Hy :=
  cbn beta iota zeta in Hy; cbn [fst snd] in Hy;
  match type of Hy with
  | context [Driver.validate_step_execution ?X ?t ?s ?w] =>
      pose proof (validate_no_post X t s w);
      destruct (Driver.validate_step_execution X t s w) as [[[[]|?] ?] ?]
  | context [Driver._initialize_execution_state ?X ?t ?s ?r ?w] =>
      pose proof (initialize_no_post X t s r w);
      destruct (Driver._initialize_execution_state X t s r w) as [[[[[? ?] ?]|?] ?] ?]
  | context [agent_step ?E ?t ?s ?b ?o ?w] =>
      pose proof (agent_step_no_post _ t s b o w : Forall _ (transcript (agent_step E t s b o w)));
      destruct (agent_step E t s b o w) as [[[[? ?]|?] ?] ?]
  | context [Driver.update_task_errors_from_detailed_output ?X ?t ?d ?w] =>
      pose proof (update_task_errors_no_post X t d w);
      destruct (Driver.update_task_errors_from_detailed_output X t d w) as [[[?|?] ?] ?]
  | context [handle_failed_step ?E ?t ?s ?w] =>
      pose proof (handle_failed_step_no_post _ t s w
                  : Forall _ (transcript (handle_failed_step E t s w)));
      destruct (handle_failed_step E t s w) as [[[[?|]|?] ?] ?]
  | context [handle_completed_step ?E ?o ?t ?s ?w] =>
      pose proof (handle_completed_step_no_post _ o t s w
                  : Forall _ (transcript (handle_completed_step E o t s w)));
      destruct (handle_completed_step E o t s w) as [[[[[[?|] [?|]] [?|]]|?] ?] ?]
  | context [send_task_response ?E ?t ?s ?k ?c ?w] =>
      match goal with
      | |- In (Driver.Engine (RequestsPost ?u ?p ?h ?r)) _ -> _ =>
          pose proof (send_task_response_post_outcome E t s k c w u p h r);
          destruct (send_task_response E t s k c w) as [[[[]|?] ?] ?]
      end
  | context [match Step.status ?s with _ => _ end] => destruct (Step.status s)
  | context [Driver.execute_all_steps ?X] => destruct (Driver.execute_all_steps X)
  | _ =>
      match goal with
      | Hrec : forall task next_step w', returned_after_post (?rec task next_step w') _
        |- _ =>
          match type of Hy with
          | context [rec ?t ?n ?w] =>
              pose proof (Hrec t n w); destruct (rec t n w) as [[? ?] ?]
          end
      end
  end.

(** Looks for the POST of [Hin] along the calls of a run. *)
Ltac find_post Hin :=
  repeat match type of Hin with
         | _ \/ _ => destruct Hin as [Hin|Hin]
         | False => contradiction
         | @eq Driver.Call _ _ => first [discriminate Hin | inversion Hin; subst; clear Hin]
         | In _ (_ ++ _) => apply in_app_or in Hin
         | In _ (map Driver.Engine _) => apply in_map_Engine in Hin
         | In _ (_ :: _) => cbn [In] in Hin
         | In _ [] => contradiction
         | In _ ?q =>
             match goal with
             | H : Forall (fun ev => is_post ev = false) q |- _ =>
                 exfalso; exact (no_post_in q _ _ _ _ H Hin)
             | H : Forall (fun c => is_webhook_post c = false) q |- _ =>
                 exfalso; exact (no_webhook_post_in q _ _ _ _ H Hin)
             end
         end.

Section Webhook_outcome.

Context {W : Type} (X : Driver.Deps W).

Lemma execute_step_try_post_outcome recurse organization task step api_key workflow_run
      close w l0 url payload headers reply :
  let y := Driver.execute_step_try X recurse organization task step api_key workflow_run
                                   close (w, l0) in
  Driver.x_next_step l0 = None ->
  (forall e, reply = Raise e -> isinstance_Exception e = true) ->
  (forall task next_step w',
      returned_after_post (recurse task next_step w')
                          (RequestsPost url payload headers reply)) ->
  In (Driver.Engine (RequestsPost url payload headers reply)) (Driver.calls y) ->
  (exists step detailed_output,
      Driver.outcome y = Ok (Some (step, detailed_output, None)))
  \/ (exists e,
         Driver.outcome y = Raise e
         /\ Driver.isinstance_FailedToSendWebhook e = true
         /\ Driver.x_next_step (snd (Driver.world y)) = None).
Proof.
  intros y Hnext Hexn Hrec. subst y.
  remember (Driver.execute_step_try X recurse organization task step api_key workflow_run
                                    close (w, l0)) as y eqn:Hy.
  unfold Driver.execute_step_try, Driver.chain, Driver.py_and, Driver.DLOG in Hy.
  unfold Driver.dbind, Driver.dlift, Driver.engine, Driver.set_locals, Driver.dret,
    LOG in Hy.
  repeat next_call Hy.
  all: cbn [transcript Driver.calls snd result fst] in *.
  all: subst y; cbn [Driver.calls Driver.outcome Driver.world fst snd map app]; intros Hin.
  all: find_post Hin.
  all: try (left; do 2 eexists; reflexivity).
  all: try match goal with
       | H : returned_after_post _ _ |- _ => left; exact (H Hin)
       end.
  all: match goal with
       | H : In _ _ -> _ -> _ \/ _ |- _ =>
           destruct (H Hin Hexn) as [Hok|(i & cause & Hraise)];
           [discriminate Hok | inversion Hraise; subst]
       end.
  all: right; eexists; split; [reflexivity|]; split; [reflexivity | exact Hnext].
Qed.

End Webhook_outcome.

(** X25: once [execute_step], or a step it goes on to execute, has made
    the webhook POST, it returns normally, with no next step: whether
    the endpoint accepts the response, answers with an error status, or
    the POST raises an [Exception], the failure to send the webhook is
    logged and does not fail the execution. *)
Theorem webhook_failure_does_not_fail_the_step {W : Type} (X : Driver.Deps W) depth
        organization task step api_key workflow_run close w url payload headers reply :
  let x := Driver.execute_step X depth organization task step api_key workflow_run
                               close w in
  In (Driver.Engine (RequestsPost url payload headers reply)) (Driver.calls x) ->
  (forall e, reply = Raise e -> isinstance_Exception e = true) ->
  exists returned_step detailed_output,
    Driver.outcome x = Ok (Some (returned_step, detailed_output, None)).
Proof.
  intros x Hin Hexn. subst x.
  revert organization task step api_key workflow_run close w Hin.
  change (forall organization task step api_key workflow_run close w,
             returned_after_post
               (Driver.execute_step X depth organization task step api_key workflow_run
                                    close w)
               (RequestsPost url payload headers reply)).
  induction depth as [|depth IH];
    intros organization task step api_key workflow_run close w Hin.
  - destruct Hin.
  - simpl in Hin |- *. unfold Driver.dtry_except in Hin |- *.
    pose proof (execute_step_try_post_outcome
                  X (fun task next_step =>
                     Driver.execute_step X depth organization task next_step api_key
                                         None true)
                  organization task step api_key workflow_run close w
                  {| Driver.x_step := step; Driver.x_detailed_output := None;
                     Driver.x_next_step := None |}
                  url payload headers reply eq_refl Hexn
                  (fun t n w' => IH organization t n api_key None true w')) as Hbody.
    cbv zeta in Hbody.
    destruct (Driver.execute_step_try X _ organization task step api_key workflow_run
                                      close _) as [[[v|e] s1] t1].
    + cbn in Hin, Hbody |- *.
      destruct (Hbody Hin) as [H|(e & H & _)]; [exact H | discriminate H].
    + cbn in Hbody.
      destruct (Driver.isinstance_FailedToSendWebhook e) eqn:Hcaught.
      * cbn in Hin |- *. rewrite ?app_nil_r in Hin.
        apply in_app_or in Hin as [Hin|[Hin|[]]]; [|discriminate Hin].
        destruct (Hbody Hin) as [(s & d & H)|(e' & H & _ & Hnone)]; [discriminate H|].
        rewrite Hnone. eauto.
      * cbn in Hin |- *.
        destruct (Hbody Hin) as [(s & d & H)|(e' & H & Hfs & _)]; [discriminate H|].
        inversion H; subst. congruence.
Qed.

Lemma webhook_failure_does_not_fail_the_step_witness :
  let x := Driver.execute_step
             (Trial.deps true (Mem.env (Sample.script [Sample.complete]
                                                      (Ok Sample.server_error))))
             2 (Sample.org None) Sample.task0 Sample.step0 (Some "key") None true
             Sample.db0 in
  exists returned_step detailed_output,
    Driver.outcome x = Ok (Some (returned_step, detailed_output, None)).
Proof.
  apply (webhook_failure_does_not_fail_the_step
           (Trial.deps true (Mem.env (Sample.script [Sample.complete]
                                                    (Ok Sample.server_error))))
           2 (Sample.org None) Sample.task0 Sample.step0 (Some "key") None true
           Sample.db0 "https://hook" "task_0" (webhook_headers "1700000000" "task_0key")
           (Ok Sample.server_error)).
  - vm_compute. repeat (first [left; reflexivity | right]).
  - intros e H. discriminate H.
Defined.

(** X26: [_initialize_execution_state] first asks for the browser: of the
    workflow run, with the URL of the task, when a workflow run is
    given, and of the task otherwise.  When the browser state it gets
    has a video artifact id, it calls nothing else and returns the step,
    that browser state and an empty output.  When it has none, a normal
    return means that the video data was read, a RECORDING artifact of
    the step was created with it, and the id of that artifact was given
    to the browser manager for the task, in this order; the step is
    returned unchanged with an empty output. *)
Theorem initial_state_records_video {W : Type} (X : Driver.Deps W) task step
        workflow_run w :
  let x := Driver._initialize_execution_state X task step workflow_run w in
  exists r rest,
    Driver.calls x = browser_request workflow_run task r :: rest
    /\ match r with
       | Raise e => Driver.outcome x = Raise e /\ rest = []
       | Ok obtained =>
           match nonempty (video_artifact_id (browser_artifacts obtained)) with
           | Some _ =>
               Driver.outcome x = Ok (step, obtained, empty_output) /\ rest = []
           | None =>
               forall returned_step browser_state detailed_output,
                 Driver.outcome x = Ok (returned_step, browser_state, detailed_output) ->
                 returned_step = step
                 /\ detailed_output = empty_output
                 /\ exists video_data artifact_id,
                     rest = [Driver.Engine (GetVideoData (Task.task_id task)
                                                         (Ok video_data));
                             Driver.Engine (CreateArtifact (Step.step_id step)
                                                           ArtifactType.RECORDING
                                                           (Data video_data)
                                                           (Ok artifact_id));
                             Driver.SetVideoArtifactForTask (Task.task_id task)
                                                            artifact_id
                                                            (Ok browser_state)]
           end
       end.
Proof.
  intros x. subst x.
  remember (Driver._initialize_execution_state X task step workflow_run w) as x eqn:Hx.
  unfold Driver._initialize_execution_state, new_artifact, Driver.dbind, Driver.engine,
    Driver.dcall, Driver.dret, call in Hx.
  destruct workflow_run as [run|]; run_in Hx; subst x; cbn;
    do 2 eexists; (split; [reflexivity|]); cbn;
    repeat match goal with
           | H : nonempty _ = _ |- _ => rewrite H
           end;
    try (split; reflexivity);
    intros ? ? ? Hr; try discriminate Hr; inversion Hr; subst;
    (split; [reflexivity|]); (split; [reflexivity|]); do 2 eexists; reflexivity.
Qed.

Lemma errors_only_grow_skip (held : list UserDefinedError) (t1 t2 : list Driver.Call) :
  Forall (fun c => is_errors_write c = false) t1 ->
  errors_only_grow held t2 -> errors_only_grow held (t1 ++ t2).
Proof.
  induction 1 as [|c t Hc _ IH]; simpl; auto.
  destruct c; auto. discriminate.
Qed.

Lemma engine_writes_no_errors (l : list Event) :
  Forall (fun c => is_errors_write c = false) (map Driver.Engine l).
Proof. induction l; constructor; auto. Qed.

Lemma errors_only_grow_quiet (held : list UserDefinedError) (t : list Driver.Call) :
  Forall (fun c => is_errors_write c = false) t -> errors_only_grow held t.
Proof.
  intros H. rewrite <- (app_nil_r t). apply errors_only_grow_skip; [exact H | exact I].
Qed.

Lemma initialize_writes_no_errors {W : Type} (X : Driver.Deps W) task step workflow_run :
  demits (fun c => is_errors_write c = false)
         (Driver._initialize_execution_state X task step workflow_run).
Proof.
  unfold Driver._initialize_execution_state, new_artifact.
  repeat first [ demits_step | apply demits_engine | emits_step ]; reflexivity.
Qed.

(** Takes the next call of the run stated in [Hy] apart. *)
Ltac next_write Hy :=
  cbn beta iota zeta in Hy; cbn [fst snd] in Hy;
  match type of Hy with
  | context [Driver.validate_step_execution ?X ?t ?s ?w] =>
      destruct (Driver.validate_step_execution X t s w) as [[[[]|?] ?] ?]
  | context [Driver._initialize_execution_state ?X ?t ?s ?r ?w] =>
      pose proof (initialize_writes_no_errors X t s r w);
      destruct (Driver._initialize_execution_state X t s r w) as [[[[[? ?] ?]|?] ?] ?]
  | context [agent_step ?E ?t ?s ?b ?o ?w] =>
      destruct (agent_step E t s b o w) as [[[[? ?]|?] ?] ?]
  | context [Driver.db_update_task_errors ?X ?i ?o ?e ?w] =>
      destruct (Driver.db_update_task_errors X i o e w) as [[?|?] ?]
  | context [handle_failed_step ?E ?t ?s ?w] =>
      destruct (handle_failed_step E t s w) as [[[[?|]|?] ?] ?]
  | context [handle_completed_step ?E ?o ?t ?s ?w] =>
      destruct (handle_completed_step E o t s w) as [[[[[[?|] [?|]] [?|]]|?] ?] ?]
  | context [send_task_response ?E ?t ?s ?k ?c ?w] =>
      destruct (send_task_response E t s k c w) as [[[[]|?] ?] ?]
  | context [match Step.status ?s with _ => _ end] => destruct (Step.status s)
  | context [Driver.execute_all_steps ?X] => destruct (Driver.execute_all_steps X)
  | _ =>
      match goal with
      | Hrec : forall task next_step w',
          errors_only_grow (Task.errors task) (Driver.calls (?rec task next_step w'))
        |- _ =>
          match type of Hy with
          | context [rec ?t ?n ?w] =>
              pose proof (Hrec t n w); destruct (rec t n w) as [[? ?] ?]
          end
      end
  end.

Section Errors_grow.

Context {W : Type} (X : Driver.Deps W).

Lemma execute_step_try_errors_grow recurse organization task step api_key workflow_run
      close s :
  (forall task next_step w',
      errors_only_grow (Task.errors task) (Driver.calls (recurse task next_step w'))) ->
  errors_only_grow (Task.errors task)
                   (Driver.calls (Driver.execute_step_try X recurse organization task step
                                                          api_key workflow_run close s)).
Proof.
  intros Hrec.
  remember (Driver.execute_step_try X recurse organization task step api_key workflow_run
                                    close s) as y eqn:Hy.
  unfold Driver.execute_step_try, Driver.chain, Driver.py_and, Driver.DLOG,
    Driver.update_task_errors_from_detailed_output in Hy.
  unfold Driver.dbind, Driver.dlift, Driver.engine, Driver.set_locals, Driver.dret,
    Driver.dcall, LOG in Hy.
  repeat next_write Hy.
  all: cbn [transcript Driver.calls snd result fst] in *.
  all: subst y; cbn [Driver.calls Driver.outcome Driver.world fst snd app].
  all: repeat first [ apply errors_only_grow_skip; [apply engine_writes_no_errors|]
                    | apply errors_only_grow_skip; [assumption|]
                    | exact I
                    | assumption
                    | apply errors_only_grow_quiet;
                      first [apply engine_writes_no_errors | assumption]
                    | cbn [errors_only_grow]; split; [eexists; reflexivity|] ].
Qed.

End Errors_grow.

(** X27: the errors of a task only grow while [execute_step] runs: every
    list of errors it writes to the task extends the errors of the task
    it holds at that point, which is the given task until a write of
    the errors returns, and then the task that write returned; this
    holds across the retries and the next steps it executes itself. *)
Theorem task_errors_only_grow {W : Type} (X : Driver.Deps W) depth organization task step
        api_key workflow_run close w :
  errors_only_grow (Task.errors task)
                   (Driver.calls (Driver.execute_step X depth organization task step
                                                      api_key workflow_run close w)).
Proof.
  revert organization task step api_key workflow_run close w.
  induction depth as [|depth IH];
    intros organization task step api_key workflow_run close w.
  - exact I.
  - rewrite execute_step_run. unfold Driver.dtry_except.
    pose proof (execute_step_try_errors_grow
                  X (fun task next_step =>
                     Driver.execute_step X depth organization task next_step api_key
                                         None true)
                  organization task step api_key workflow_run close
                  (w, {| Driver.x_step := step; Driver.x_detailed_output := None;
                         Driver.x_next_step := None |})
                  (fun t n w' => IH organization t n api_key None true w')) as Hbody.
    destruct (Driver.execute_step_try X _ organization task step api_key workflow_run
                                      close _) as [[[v|e] s1] t1]; [exact Hbody|].
    destruct (Driver.isinstance_FailedToSendWebhook e); [|exact Hbody].
    cbn in Hbody |- *. rewrite ?app_nil_r.
    revert Hbody. generalize (Task.errors task). clear.
    induction t1 as [|c t1 IHt]; intros held H; [simpl; exact I|].
    destruct c; simpl in *; auto. destruct H as [H1 H2]. split; auto.
Qed.

Lemma no_post_filter (t : list Driver.Call) :
  Forall (fun c => is_webhook_post c = false) t -> filter is_webhook_post t = [].
Proof.
  induction 1 as [|c t Hc _ IH]; simpl; auto. now rewrite Hc.
Qed.

Lemma no_post_once (t : list Driver.Call) :
  Forall (fun c => is_webhook_post c = false) t -> posts_at_most_once t.
Proof. intros H. unfold posts_at_most_once. rewrite no_post_filter; auto. Qed.

Lemma no_post_then_once (t1 t2 : list Driver.Call) :
  Forall (fun c => is_webhook_post c = false) t1 ->
  posts_at_most_once t2 -> posts_at_most_once (t1 ++ t2).
Proof.
  intros H1 H2. unfold posts_at_most_once in *.
  now rewrite filter_app, (no_post_filter t1 H1).
Qed.

Lemma once_then_no_post (t1 t2 : list Driver.Call) :
  posts_at_most_once t1 ->
  Forall (fun c => is_webhook_post c = false) t2 -> posts_at_most_once (t1 ++ t2).
Proof.
  intros H1 H2. unfold posts_at_most_once in *.
  now rewrite filter_app, (no_post_filter t2 H2), app_nil_r.
Qed.

Lemma engine_no_post (t : list Event) :
  Forall (fun ev => is_post ev = false) t ->
  Forall (fun c => is_webhook_post c = false) (map Driver.Engine t).
Proof. induction 1; constructor; auto. Qed.

Lemma engine_posts (t : list Event) :
  filter is_webhook_post (map Driver.Engine t) = map Driver.Engine (filter is_post t).
Proof.
  induction t as [|ev t IH]; simpl; auto.
  destruct (is_post ev); simpl; now rewrite IH.
Qed.

Lemma filter_no_post (t : list Event) :
  Forall (fun ev => is_post ev = false) t -> filter is_post t = [].
Proof.
  induction 1 as [|c t Hc _ IH]; simpl; auto. now rewrite Hc.
Qed.

Lemma webhook_posts_once {W : Type} (E : Env W) task last_step api_key w :
  (List.length (filter is_post (transcript (execute_task_webhook E task last_step api_key w)))
   <= 1)%nat.
Proof.
  remember (execute_task_webhook E task last_step api_key w) as x eqn:Hx.
  unfold execute_task_webhook, bind, call, LOG, ret, raise, try_except in Hx.
  run_in Hx; subst x; cbn; lia.
Qed.

Lemma send_task_response_posts_once {W : Type} (E : Env W) task last_step api_key close w :
  (List.length (filter is_post
                       (transcript (send_task_response E task last_step api_key close w)))
   <= 1)%nat.
Proof.
  remember (send_task_response E task last_step api_key close w) as x eqn:Hx.
  unfold send_task_response, new_artifact in Hx.
  unfold bind, call, LOG, ret, raise, try_except in Hx.
  run_in Hx; try (subst x; cbn; lia).
  all: match type of Hx with
       | context [cleanup_browser_and_create_artifacts ?E' ?c ?l ?t ?w'] =>
           pose proof (cleanup_no_post E' c l t w') as Hnc;
           destruct (cleanup_browser_and_create_artifacts E' c l t w') as [[[[]|?] ?] tc];
           cbn in Hnc; apply filter_no_post in Hnc
       end.
  all: run_in Hx.
  all: try match type of Hx with
       | context [execute_task_webhook ?E' ?t ?l ?k ?w'] =>
           pose proof (webhook_posts_once E' t l k w') as Hw;
           destruct (execute_task_webhook E' t l k w') as [[? ?] tw];
           cbn in Hw
       end.
  all: subst x; cbn; rewrite ?filter_app, ?Hnc; cbn; rewrite ?app_nil_r; try lia;
    exact Hw.
Qed.

Section One_response.

Context {W : Type} (X : Driver.Deps W).

Lemma send_once task last_step api_key close :
  dpost posts_at_most_once
        (Driver.dlift (W := W)
           (Driver.engine (send_task_response (Driver.base X) task last_step api_key
                                              close))).
Proof.
  intros s. unfold Driver.dlift, Driver.engine.
  pose proof (send_task_response_posts_once (Driver.base X) task last_step api_key close
                                            (fst s)) as H.
  destruct (send_task_response (Driver.base X) task last_step api_key close (fst s))
    as [[r w1] t].
  unfold posts_at_most_once. cbn in H |- *. now rewrite engine_posts, length_map.
Qed.

Lemma chain_once recurse task step detailed_output retry next_step :
  (forall task next_step, dpost posts_at_most_once (recurse task next_step)) ->
  dpost posts_at_most_once
        (Driver.chain X recurse task step detailed_output retry next_step).
Proof.
  intros Hrec. unfold Driver.chain.
  assert (Hlift : forall task next_step,
             dpost posts_at_most_once (Driver.dlift (recurse task next_step))).
  { intros t n s. unfold Driver.dlift. specialize (Hrec t n (fst s)).
    destruct (recurse t n (fst s)) as [[r w1] l]. exact Hrec. }
  assert (Hstop : forall (next : option Step.t),
             dpost posts_at_most_once
                   (Driver.dbind
                      (Driver.DLOG INFO "Step executed but continuous execution is disabled.")
                      (fun _ => Driver.dret (S := W * Driver.Locals)
                                            (Some (step, Some detailed_output, next))))).
  { intros next s. apply no_post_once. revert s.
    change (demits (fun c => is_webhook_post c = false)
                   (Driver.dbind
                      (Driver.DLOG INFO "Step executed but continuous execution is disabled.")
                      (fun _ => Driver.dret (S := W * Driver.Locals)
                                            (Some (step, Some detailed_output, next))))).
    repeat demits_step. reflexivity. }
  destruct (Driver.py_and retry next_step); [apply Hlift|].
  destruct (Driver.py_and (Driver.execute_all_steps X) next_step); [apply Hlift|].
  apply Hstop.
Qed.

(** Proves that a computation posts at most once, along its structure. *)
Ltac once_step Hrec :=
  match goal with
  | |- dpost posts_at_most_once
             (Driver.dbind (Driver.dlift (Driver.engine (send_task_response _ _ _ _ _))) _) =>
      eapply (dpost_dbind posts_at_most_once
                          (Forall (fun c => is_webhook_post c = false)));
      [ apply send_once
      | intros ?; apply demits_dpost, demits_dret
      | intros ? H; exact H
      | apply once_then_no_post ]
  | |- dpost posts_at_most_once (Driver.dbind _ _) =>
      eapply (dpost_dbind (Forall (fun c => is_webhook_post c = false))
                          posts_at_most_once);
      [ apply demits_dpost;
        first [ apply demits_silent; reflexivity
              | apply demits_DLOG; reflexivity
              | apply demits_dlift, demits_engine, validate_no_post
              | apply demits_dlift, demits_engine, agent_step_no_post
              | apply demits_dlift, demits_engine, handle_failed_step_no_post
              | apply demits_dlift, demits_engine, handle_completed_step_no_post
              | apply demits_dlift, initialize_no_post
              | apply demits_dlift, update_task_errors_no_post ]
      | intros ?
      | apply no_post_once
      | apply no_post_then_once ]
  | |- dpost posts_at_most_once (Driver.chain _ _ _ _ _ _ _) =>
      apply chain_once; exact Hrec
  | |- dpost posts_at_most_once (match ?x with _ => _ end) => destruct x
  end.

Lemma execute_step_try_posts_once recurse organization task step api_key workflow_run
      close :
  (forall task next_step, dpost posts_at_most_once (recurse task next_step)) ->
  dpost posts_at_most_once
        (Driver.execute_step_try X recurse organization task step api_key workflow_run
                                 close).
Proof.
  intros Hrec. unfold Driver.execute_step_try.
  repeat (cbv zeta; once_step Hrec).
Qed.

End One_response.

(** X28: [execute_step] posts the webhook at most once, however many
    retries and next steps it goes on to execute: a response is sent
    only where the execution ends. *)
Theorem webhook_is_posted_at_most_once {W : Type} (X : Driver.Deps W) depth organization
        task step api_key workflow_run close w :
  (List.length
     (filter is_webhook_post
             (Driver.calls (Driver.execute_step X depth organization task step api_key
                                                workflow_run close w))) <= 1)%nat.
Proof.
  change (posts_at_most_once
            (Driver.calls (Driver.execute_step X depth organization task step api_key
                                               workflow_run close w))).
  revert organization task step api_key workflow_run close w.
  induction depth as [|depth IH];
    intros organization task step api_key workflow_run close w.
  - unfold posts_at_most_once. cbn. lia.
  - rewrite execute_step_run. unfold Driver.dtry_except.
    pose proof (execute_step_try_posts_once
                  X (fun task next_step =>
                     Driver.execute_step X depth organization task next_step api_key
                                         None true)
                  organization task step api_key workflow_run close
                  (fun t n => IH organization t n api_key None true)
                  (w, {| Driver.x_step := step; Driver.x_detailed_output := None;
                         Driver.x_next_step := None |})) as Hbody.
    destruct (Driver.execute_step_try X _ organization task step api_key workflow_run
                                      close _) as [[[v|e] s1] t1]; [exact Hbody|].
    destruct (Driver.isinstance_FailedToSendWebhook e); [|exact Hbody].
    cbn in Hbody |- *. apply once_then_no_post; [exact Hbody | repeat constructor].
Qed.

(** ** What the LLM is asked *)

Lemma no_llm_call_in (t : list Event) prompt step_id shots reply :
  Forall (fun ev => is_llm_call ev = false) t -> ~ In (LlmCall prompt step_id shots reply) t.
Proof.
  intros H Hin. rewrite Forall_forall in H. specialize (H _ Hin). discriminate.
Qed.

Lemma build_prompt_provenance {W : Type} (E : Env W) task step bs w :
  let y := _build_and_record_step_prompt E task step bs w in
  Forall (fun ev => is_llm_call ev = false) (transcript y)
  /\ forall scraped_page prompt,
      result y = Ok (scraped_page, prompt) ->
      In (ScrapeWebsite bs (Task.url task) (Ok scraped_page)) (transcript y)
      /\ exists vars,
          In (LoadPrompt "extract-action" vars (Ok prompt)) (transcript y)
          /\ p_elements vars = element_tree_trimmed scraped_page
          /\ p_navigation_goal vars = Task.navigation_goal task
          /\ p_data_extraction_goal vars = Task.data_extraction_goal task
          /\ p_url vars = Task.url task.
Proof.
  intros y. subst y.
  remember (_build_and_record_step_prompt E task step bs w) as y eqn:Hy.
  unfold _build_and_record_step_prompt, new_artifact, bind, call, LOG, ret in Hy.
  run_in Hy; subst y; cbn; (split; [repeat constructor|]);
    intros sp prompt Hr; try discriminate Hr; inversion Hr; subst;
    (split; [now left|]); eexists; (split; [do 5 right; left; reflexivity|]);
    repeat split.
Qed.

Lemma step_event_no_llm (ev : Event) : step_event false ev = true -> is_llm_call ev = false.
Proof. destruct ev; try reflexivity; discriminate. Qed.

Lemma update_step_no_llm {W : Type} (E : Env W) step st out il ri :
  emits (fun ev => is_llm_call ev = false) (update_step E step st out il ri).
Proof. apply emits_update_step; reflexivity. Qed.

(** What follows the parsing of the actions in [agent_step] does not call
    the LLM. *)
Lemma agent_step_rest_no_llm {W : Type} (E : Env W) task step bs scraped_page
      extract_action_prompt (json_response : option (list (string * string)))
      (actions : list Action) (st : W * Locals) :
  Forall (fun ev => is_llm_call ev = false)
         (transcript
            ((set_out (with_actions actions) ;;
              match actions with
              | [] =>
                  LOG INFO "No actions to execute, marking step as failed" ;;
                  d <- get_out ;;
                  step <- lift (update_step E step (Some StepStatus.failed)
                                            (Some (to_agent_step_output E d)) None None) ;;
                  set_step step ;;
                  let d' :=
                    {| d_scraped_page := Some scraped_page;
                       d_extract_action_prompt := Some extract_action_prompt;
                       d_llm_response := json_response;
                       d_actions := Some actions;
                       d_action_results := Some [];
                       d_actions_and_results := Some [] |} in
                  set_out (fun _ => d') ;;
                  ret (step, d')
              | _ :: _ =>
                  LOG INFO "Executing actions" ;;
                  set_out (with_action_results []) ;;
                  (if skips_wait_actions actions then LOG INFO "Skipping wait actions"
                   else ret tt) ;;
                  let actions := filter_wait_actions actions in
                  set_out (with_actions_and_results (map (fun action => (action, [])) actions)) ;;
                  returned <- execute_actions E scraped_page task step bs [] [] 0 actions ;;
                  match returned with
                  | Some v => ret v
                  | None =>
                      LOG INFO "Actions executed successfully, marking step as completed" ;;
                      d <- get_out ;;
                      completed_step <-
                        lift (update_step E step (Some StepStatus.completed)
                                          (Some (to_agent_step_output E d)) None None) ;;
                      ret (completed_step, d)
                  end
              end) st)).
Proof.
  revert st.
  change (emits (fun ev => is_llm_call ev = false)
                (set_out (with_actions actions) ;;
                 match actions with
                 | [] =>
                     LOG INFO "No actions to execute, marking step as failed" ;;
                     d <- get_out ;;
                     step <- lift (update_step E step (Some StepStatus.failed)
                                               (Some (to_agent_step_output E d)) None None) ;;
                     set_step step ;;
                     let d' :=
                       {| d_scraped_page := Some scraped_page;
                          d_extract_action_prompt := Some extract_action_prompt;
                          d_llm_response := json_response;
                          d_actions := Some actions;
                          d_action_results := Some [];
                          d_actions_and_results := Some [] |} in
                     set_out (fun _ => d') ;;
                     ret (step, d')
                 | _ :: _ =>
                     LOG INFO "Executing actions" ;;
                     set_out (with_action_results []) ;;
                     (if skips_wait_actions actions then LOG INFO "Skipping wait actions"
                      else ret tt) ;;
                     let actions := filter_wait_actions actions in
                     set_out (with_actions_and_results
                                (map (fun action => (action, [])) actions)) ;;
                     returned <- execute_actions E scraped_page task step bs [] [] 0 actions ;;
                     match returned with
                     | Some v => ret v
                     | None =>
                         LOG INFO "Actions executed successfully, marking step as completed" ;;
                         d <- get_out ;;
                         completed_step <-
                           lift (update_step E step (Some StepStatus.completed)
                                             (Some (to_agent_step_output E d)) None None) ;;
                         ret (completed_step, d)
                     end
                 end)).
  eapply emits_weaken; [apply step_event_no_llm|].
  apply emits_bind; [apply emits_silent; reflexivity | intros _].
  destruct actions as [|a0 actions0]; cbv zeta.
  - repeat emits_step; try reflexivity. apply update_step_step_event.
  - apply emits_bind; [apply emits_LOG; reflexivity | intros _].
    apply emits_bind; [apply emits_silent; reflexivity | intros _].
    apply emits_bind; [destruct (skips_wait_actions _); repeat emits_step; reflexivity | intros _].
    apply emits_bind; [apply emits_silent; reflexivity | intros _].
    apply emits_bind; [apply execute_actions_step_event | ].
    intros [v|]; repeat emits_step; try reflexivity. apply update_step_step_event.
Qed.

Lemma filter_no_llm (t : list Event) :
  Forall (fun ev => is_llm_call ev = false) t -> filter is_llm_call t = [].
Proof.
  induction 1 as [|ev t Hev _ IH]; simpl; auto. now rewrite Hev.
Qed.

(** Looks for the call to the LLM of [Hin] along the transcript. *)
Ltac find_llm_call Hin :=
  repeat match type of Hin with
         | _ \/ _ => destruct Hin as [Hin|Hin]
         | False => contradiction
         | @eq Event _ _ => first [discriminate Hin | inversion Hin; subst; clear Hin]
         | In _ (_ ++ _) => apply in_app_or in Hin
         | In _ (_ :: _) => cbn [In] in Hin
         | In _ [] => contradiction
         | In _ ?q =>
             match goal with
             | H : Forall (fun ev => is_llm_call ev = false) q |- _ =>
                 exfalso; exact (no_llm_call_in q _ _ _ _ H Hin)
             end
         end.

(** A leaf of the run stated in [Hy]. *)
Ltac llm_leaf y Hy Hin :=
  subst y; cbn [transcript snd fst app] in Hin |- *; rewrite ?app_nil_r in *;
  find_llm_call Hin.

(** The transcript of a leaf holds one call to the LLM. *)
Ltac one_llm_call :=
  cbn [filter is_llm_call];
  repeat first [ rewrite filter_app
               | match goal with
                 | H : Forall (fun ev => is_llm_call ev = false) ?q
                   |- context [filter is_llm_call ?q] => rewrite (filter_no_llm q H)
                 end
               | progress cbn [filter is_llm_call app] ];
  reflexivity.

Lemma agent_step_try_llm {W : Type} (E : Env W) task step bs s prompt step_id shots reply :
  let y := agent_step_try E task step bs s in
  In (LlmCall prompt step_id shots reply) (transcript y) ->
  truthy_str (Task.navigation_goal task) = true
  /\ filter is_llm_call (transcript y) = [LlmCall prompt step_id shots reply]
  /\ exists running_step scraped_page vars,
      In (DbUpdateStep (Step.task_id step) (Step.step_id step) (Step.organization_id step)
                       [("status", VStepStatus StepStatus.running)] (Ok running_step))
         (transcript y)
      /\ step_id = Step.step_id running_step
      /\ In (ScrapeWebsite bs (Task.url task) (Ok scraped_page)) (transcript y)
      /\ shots = screenshots scraped_page
      /\ In (LoadPrompt "extract-action" vars (Ok prompt)) (transcript y)
      /\ p_elements vars = element_tree_trimmed scraped_page
      /\ p_navigation_goal vars = Task.navigation_goal task
      /\ p_data_extraction_goal vars = Task.data_extraction_goal task
      /\ p_url vars = Task.url task.
Proof.
  intros y Hin. subst y.
  remember (agent_step_try E task step bs s) as y eqn:Hy.
  unfold agent_step_try in Hy.
  unfold bind at 1, LOG at 1 in Hy.
  unfold bind at 1, lift at 1 in Hy. rewrite update_step_run in Hy.
  destruct (step_validate_update E step (Some StepStatus.running) None None).
  { llm_leaf y Hy Hin. }
  cbv zeta in Hy.
  destruct (db_update_step E (Step.task_id step) (Step.step_id step)
                           (Step.organization_id step)
                           (step_updates (Some StepStatus.running) None None None) (fst s))
    as [[step1|e] w1].
  2:{ llm_leaf y Hy Hin. }
  unfold bind at 1, set_step at 1 in Hy.
  unfold bind at 1, lift at 1 in Hy. cbn [fst snd] in Hy.
  pose proof (build_prompt_provenance E task step1 bs w1) as Hbp. cbv zeta in Hbp.
  destruct (_build_and_record_step_prompt E task step1 bs w1) as [[[[sp prompt']|e] w2] t2];
    cbn [transcript result fst snd] in Hbp; destruct Hbp as [Hnl Hbp].
  2:{ llm_leaf y Hy Hin. }
  destruct (Hbp sp prompt' eq_refl) as (Hscrape & vars & Hload & Hvars). clear Hbp.
  unfold bind at 1, set_out at 1 in Hy.
  unfold bind at 1 in Hy.
  cbn [fst snd l_step l_out] in Hy.
  destruct (truthy_str (Task.navigation_goal task)) eqn:Hgoal.
  - assert (Hfound : forall r tr,
               Forall (fun ev => is_llm_call ev = false) tr ->
               let t := [Log INFO "Starting agent step";
                         LogDiff "Updating step in db"
                                 (update_comparison
                                    (Step_getattr step)
                                    (step_updates (Some StepStatus.running) None None None));
                         DbUpdateStep (Step.task_id step) (Step.step_id step)
                                      (Step.organization_id step)
                                      (step_updates (Some StepStatus.running) None None None)
                                      (Ok step1)]
                          ++ t2 ++ LlmCall prompt' (Step.step_id step1) (screenshots sp) r
                          :: tr in
               In (LlmCall prompt step_id shots reply) t ->
               true = true
               /\ filter is_llm_call t = [LlmCall prompt step_id shots reply]
               /\ exists running_step scraped_page vars,
                   In (DbUpdateStep (Step.task_id step) (Step.step_id step)
                                    (Step.organization_id step)
                                    [("status", VStepStatus StepStatus.running)]
                                    (Ok running_step)) t
                   /\ step_id = Step.step_id running_step
                   /\ In (ScrapeWebsite bs (Task.url task) (Ok scraped_page)) t
                   /\ shots = screenshots scraped_page
                   /\ In (LoadPrompt "extract-action" vars (Ok prompt)) t
                   /\ p_elements vars = element_tree_trimmed scraped_page
                   /\ p_navigation_goal vars = Task.navigation_goal task
                   /\ p_data_extraction_goal vars = Task.data_extraction_goal task
                   /\ p_url vars = Task.url task).
    { intros r tr Htr t Ht. subst t. cbn [app] in Ht |- *.
      find_llm_call Ht.
      split; [reflexivity|]. split; [one_llm_call|].
      exists step1, sp, vars.
      split; [right; right; left; reflexivity|]. split; [reflexivity|].
      split; [do 3 right; apply in_or_app; now left|]. split; [reflexivity|].
      split; [do 3 right; apply in_or_app; now left | exact Hvars]. }
    unfold bind at 1, lift at 1, call at 1 in Hy. cbn [fst snd] in Hy.
    destruct (LLM_API_HANDLER E prompt' step1 (screenshots sp) w2) as [[json|e] w3].
    2:{ subst y. cbn [transcript snd fst app] in Hin |- *. rewrite ?app_nil_r in *.
        exact (Hfound (Raise e) [] (Forall_nil _) Hin). }
    unfold bind at 1, set_out at 1 in Hy. cbn [fst snd] in Hy.
    destruct (assoc json "actions") as [raw|].
    2:{ unfold raise in Hy. subst y. cbn [transcript snd fst app] in Hin |- *.
        rewrite ?app_nil_r in *.
        exact (Hfound (Ok json) [] (Forall_nil _) Hin). }
    unfold bind at 1, of_res at 1 in Hy.
    destruct (parse_actions E task raw) as [actions|e].
    2:{ unfold raise in Hy. subst y. cbn [transcript snd fst app] in Hin |- *.
        rewrite ?app_nil_r in *.
        exact (Hfound (Ok json) [] (Forall_nil _) Hin). }
    cbv beta iota zeta delta [ret] in Hy. cbn [fst snd app l_step l_out] in Hy.
    match type of Hy with
    | context [bind (set_out (with_actions actions)) ?k ?st] =>
        assert (Hrest : Forall (fun ev => is_llm_call ev = false)
                               (transcript (bind (set_out (with_actions actions)) k st)))
          by exact (agent_step_rest_no_llm E task step1 bs sp prompt' (Some json) actions st);
        destruct (bind (set_out (with_actions actions)) k st) as [[r5 s5] t5]
    end.
    subst y. cbn [transcript snd fst app] in Hin |- *. rewrite ?app_nil_r in *.
    exact (Hfound (Ok json) t5 Hrest Hin).
  - cbv beta iota zeta delta [ret] in Hy. cbn [fst snd app l_step l_out] in Hy.
    match type of Hy with
    | context [bind (set_out (with_actions ?acts)) ?k ?st] =>
        assert (Hrest : Forall (fun ev => is_llm_call ev = false)
                               (transcript (bind (set_out (with_actions acts)) k st)))
          by exact (agent_step_rest_no_llm E task step1 bs sp prompt' None acts st);
        destruct (bind (set_out (with_actions acts)) k st) as [[r5 s5] t5]
    end.
    cbn [transcript snd] in Hrest. llm_leaf y Hy Hin.
Qed.

(** X29: [agent_step] asks the LLM at most once, and only for a task with a
    navigation goal.  What it sends is what it obtained just before: the
    prompt that [load_prompt "extract-action"] returned for the task's goals,
    url and the trimmed element tree of the scraped page, the screenshots of
    that same page, and the step as returned by the update that marked it
    running. *)
Theorem agent_step_llm_call_provenance {W : Type} (E : Env W) task step bs organization w
        prompt step_id shots reply :
  let t := transcript (agent_step E task step bs organization w) in
  In (LlmCall prompt step_id shots reply) t ->
  truthy_str (Task.navigation_goal task) = true
  /\ filter is_llm_call t = [LlmCall prompt step_id shots reply]
  /\ exists running_step scraped_page vars,
      In (DbUpdateStep (Step.task_id step) (Step.step_id step) (Step.organization_id step)
                       [("status", VStepStatus StepStatus.running)] (Ok running_step)) t
      /\ step_id = Step.step_id running_step
      /\ In (ScrapeWebsite bs (Task.url task) (Ok scraped_page)) t
      /\ shots = screenshots scraped_page
      /\ In (LoadPrompt "extract-action" vars (Ok prompt)) t
      /\ p_elements vars = element_tree_trimmed scraped_page
      /\ p_navigation_goal vars = Task.navigation_goal task
      /\ p_data_extraction_goal vars = Task.data_extraction_goal task
      /\ p_url vars = Task.url task.
Proof.
  intros t. subst t. unfold agent_step, try_except.
  pose proof (agent_step_try_llm E task step bs
                (w, {| l_step := step; l_out := empty_output |})
                prompt step_id shots reply) as Htry.
  cbv zeta in Htry.
  destruct (agent_step_try E task step bs (w, _)) as [[[a|e] s1] t1];
    cbn [transcript snd fst] in Htry |- *; [exact Htry|].
  destruct (isinstance_Exception e); cbn [transcript snd fst]; [|exact Htry].
  assert (Hh : Forall (fun ev => is_llm_call ev = false)
                      (transcript (agent_step_except E e s1))).
  { revert s1. clear.
    change (emits (fun ev => is_llm_call ev = false) (agent_step_except (W := W) E e)).
    unfold agent_step_except.
    apply emits_bind; [apply emits_LOG; reflexivity | intros _].
    apply emits_bind; [apply emits_silent; reflexivity | intros l].
    apply emits_bind; [apply emits_lift, update_step_no_llm | intros fs; apply emits_ret]. }
  destruct (agent_step_except E e s1) as [[r2 s2] t2]. cbn [transcript snd fst] in Hh |- *.
  intros Hin. apply in_app_or in Hin. destruct Hin as [Hin|Hin].
  2:{ exfalso. exact (no_llm_call_in t2 _ _ _ _ Hh Hin). }
  destruct (Htry Hin) as (Hgoal & Hone & rs & sp & vars & H1 & H2 & H3 & H4 & H5 & H6).
  split; [exact Hgoal|]. split.
  - rewrite filter_app, Hone, (filter_no_llm t2 Hh). reflexivity.
  - exists rs, sp, vars.
    split; [apply in_or_app; now left|]. split; [exact H2|].
    split; [apply in_or_app; now left|]. split; [exact H4|].
    split; [apply in_or_app; now left | exact H6].
Qed.

Lemma agent_step_llm_call_provenance_witness :
  In (LlmCall "" "step_0" [] (Ok [("actions", "[...]")]))
     (transcript (Runs.agent_step_on [Sample.click 1]))
  /\ filter is_llm_call (transcript (Runs.agent_step_on [Sample.click 1]))
     = [LlmCall "" "step_0" [] (Ok [("actions", "[...]")])].
Proof.
  assert (Hin : In (LlmCall "" "step_0" [] (Ok [("actions", "[...]")]))
                   (transcript (Runs.agent_step_on [Sample.click 1]))).
  { vm_compute. repeat (try (left; reflexivity); right). }
  split; [exact Hin|].
  exact (proj1 (proj2 (agent_step_llm_call_provenance
                         (Runs.E [Sample.click 1]) Sample.task0 Sample.step0
                         Sample.browser None Sample.db0 _ _ _ _ Hin))).
Defined.

(** ** A reply without actions *)

(** The handler of [agent_step] does not call the LLM. *)
Lemma agent_step_except_no_llm {W : Type} (E : Env W) e :
  emits (fun ev => is_llm_call ev = false) (agent_step_except (W := W) E e).
Proof.
  unfold agent_step_except.
  apply emits_bind; [apply emits_LOG; reflexivity | intros _].
  apply emits_bind; [apply emits_silent; reflexivity | intros l].
  apply emits_bind; [apply emits_lift, update_step_no_llm | intros fs; apply emits_ret].
Qed.

(** A call to the LLM in a run of [agent_step] is the only one of the
    run. *)
Lemma agent_step_llm_calls {W : Type} (E : Env W) task step bs organization w
      prompt step_id shots reply :
  let t := transcript (agent_step E task step bs organization w) in
  In (LlmCall prompt step_id shots reply) t ->
  truthy_str (Task.navigation_goal task) = true
  /\ filter is_llm_call t = [LlmCall prompt step_id shots reply].
Proof.
  intros t. subst t. unfold agent_step, try_except.
  pose proof (agent_step_try_llm E task step bs
                (w, {| l_step := step; l_out := empty_output |})
                prompt step_id shots reply) as Htry.
  cbv zeta in Htry.
  destruct (agent_step_try E task step bs (w, _)) as [[[a|e] s1] t1];
    cbn [transcript snd fst] in Htry |- *.
  - intros Hin. destruct (Htry Hin) as (Hgoal & Hone & _). now split.
  - destruct (isinstance_Exception e); cbn [transcript snd fst].
    + pose proof (agent_step_except_no_llm E e s1) as Hh.
      destruct (agent_step_except E e s1) as [[r2 s2] t2].
      cbn [transcript snd fst] in Hh |- *.
      intros Hin. apply in_app_or in Hin. destruct Hin as [Hin|Hin].
      * destruct (Htry Hin) as (Hgoal & Hone & _). split; [exact Hgoal|].
        rewrite filter_app, Hone, (filter_no_llm t2 Hh). reflexivity.
      * exfalso. exact (no_llm_call_in t2 _ _ _ _ Hh Hin).
    + intros Hin. destruct (Htry Hin) as (Hgoal & Hone & _). now split.
Qed.

(** X6: when the reply the LLM gave in a run of [agent_step] has an
    "actions" entry that [parse_actions] turns into the empty list, the
    run dispatches no action and never writes the status completed to a
    step. *)
Theorem agent_step_without_actions {W : Type} (E : Env W) task step bs org w
        prompt step_id shots json raw :
  In (LlmCall prompt step_id shots (Ok json))
     (transcript (agent_step E task step bs org w)) ->
  assoc json "actions" = Some raw ->
  parse_actions E task raw = Ok [] ->
  dispatched (transcript (agent_step E task step bs org w)) = []
  /\ Forall (fun ev => marks_completed ev = false)
            (transcript (agent_step E task step bs org w)).
Proof.
  intros Hin Hraw Hparse.
  destruct (agent_step_llm_calls E task step bs org w _ _ _ _ Hin) as (Hgoal & Hone).
  destruct (agent_step_dispatches_core E task step bs org w)
    as [H | (actions & Hpf & Hne & _)]; [exact H|].
  exfalso. apply Hne. unfold parsed_for in Hpf. rewrite Hgoal in Hpf.
  destruct Hpf as (prompt' & step_id' & shots' & json' & raw' & Hin' & Hraw' & Hparse').
  assert (Hsame : LlmCall prompt' step_id' shots' (Ok json')
                  = LlmCall prompt step_id shots (Ok json)).
  { assert (Hf : In (LlmCall prompt' step_id' shots' (Ok json'))
                    (filter is_llm_call (transcript (agent_step E task step bs org w))))
      by (apply filter_In; split; [exact Hin' | reflexivity]).
    rewrite Hone in Hf. destruct Hf as [Hf|[]]. now symmetry. }
  inversion Hsame; subst. rewrite Hraw in Hraw'. inversion Hraw'; subst.
  rewrite Hparse in Hparse'. now inversion Hparse'.
Qed.

Lemma agent_step_without_actions_witness :
  dispatched (transcript (Runs.agent_step_on [])) = []
  /\ Forall (fun ev => marks_completed ev = false) (transcript (Runs.agent_step_on [])).
Proof.
  apply (agent_step_without_actions (Runs.E []) Sample.task0 Sample.step0
                                    Sample.browser None Sample.db0
                                    "" "step_0" [] [("actions", "[...]")] "[...]").
  - vm_compute. repeat (try (left; reflexivity); right).
  - reflexivity.
  - reflexivity.
Defined.
